(** * Cue detection and phishing-corpus census: a shallow embedding

    The development follows the Python sources
      - [src/cues.py]            lexicon, pattern compiler, [detect_cues]
      - [src/nazario.py]         [detect_with_extras] (CSV scan)
      - [src/images.py]          [detect_with_extras] (OCR scan, dual pass)
      - [src/nazario_census.py]  normaliser, signatures, year audit, census,
                                 the tables written by [main]
      - [src/urlscan.py]         apex domains, IP hosts, URL lists, masking
    together with the redaction, the column choice, the row scan and the
    summaries of [src/nazario.py] and the upscaling, the scan results and the
    summary of [src/images.py].

    Python [str] values are modelled by [string] over the code points
    0..255 (the Latin-1 block of Unicode); [None] is modelled by [option].
    On that block [str.lower], [str.strip], [str.isdigit] and the classes
    [\s], [\w], [\d] of the [re] module are the finite tables given below.
    Beyond it [\d], [str.isdigit] and [int] also accept the decimal digits
    of other scripts; what is proved of the order of years is therefore stated
    for [<] on [str], the comparison the code makes, which is the order of
    the numbers on years written with the digits 0 to 9. *)

From Stdlib Require Import List Ascii String NArith ZArith Lia Bool Arith.
From Stdlib Require Import Floats DecimalString Permutation Sorted.
Import ListNotations.

Local Open Scope string_scope.
Local Open Scope bool_scope.

(** ** Characters *)

Module Chars.

Definition code (c : ascii) : N := N_of_ascii c.

Definition between (lo hi : N) (c : ascii) : bool :=
  (lo <=? code c)%N && (code c <=? hi)%N.

(** [str.isspace] for one character, which is also the class [\s]:
    TAB..CR, FS..US, SPACE, NEL and NBSP. *)
Definition is_space (c : ascii) : bool :=
  between 9 13 c || between 28 32 c || (code c =? 133)%N || (code c =? 160)%N.

(** The class [\d] (decimal digits). *)
Definition is_digit (c : ascii) : bool := between 48 57 c.

(** [str.isdigit] for one character: the decimal digits and the
    superscripts 1, 2, 3, which [int] nevertheless refuses. *)
Definition py_isdigit (c : ascii) : bool :=
  is_digit c || (code c =? 178)%N || (code c =? 179)%N || (code c =? 185)%N.

Definition is_upper_az (c : ascii) : bool := between 65 90 c.
Definition is_lower_az (c : ascii) : bool := between 97 122 c.

(** The class [[a-z0-9]]. *)
Definition is_az09 (c : ascii) : bool := is_lower_az c || is_digit c.

(** ASCII letters and digits, the characters that follow a backslash in
    the special sequences of a pattern. *)
Definition is_ascii_alnum (c : ascii) : bool :=
  is_upper_az c || is_lower_az c || is_digit c.

(** The class [\w]: [str.isalnum] or the underscore. *)
Definition is_word (c : ascii) : bool :=
  is_ascii_alnum c || (code c =? 95)%N
  || (code c =? 170)%N || between 178 179 c || (code c =? 181)%N
  || between 185 186 c || between 188 190 c
  || between 192 214 c || between 216 246 c || between 248 255 c.

(** [str.lower] for one character. *)
Definition lower (c : ascii) : ascii :=
  if is_upper_az c || between 192 214 c || between 216 222 c
  then ascii_of_N (code c + 32)
  else c.

(** Two characters match under [re.IGNORECASE]. *)
Definition ci_eqb (a b : ascii) : bool := Ascii.eqb (lower a) (lower b).

End Chars.

(** ** Python string primitives *)

Module PyStr.
Import Chars.

Fixpoint lower (s : string) : string :=
  match s with
  | EmptyString => EmptyString
  | String c r => String (Chars.lower c) (lower r)
  end.

Fixpoint lstrip (s : string) : string :=
  match s with
  | EmptyString => EmptyString
  | String c r => if is_space c then lstrip r else s
  end.

Fixpoint rstrip (s : string) : string :=
  match s with
  | EmptyString => EmptyString
  | String c r =>
      match rstrip r with
      | EmptyString => if is_space c then EmptyString else String c EmptyString
      | r' => String c r'
      end
  end.

(** [s.strip()] *)
Definition strip (s : string) : string := lstrip (rstrip s).

(** Truth value of a string: [bool(s)]. *)
Definition truthy (s : string) : bool :=
  match s with EmptyString => false | _ => true end.

(** [x or ""] for an optional string. *)
Definition or_empty (x : option string) : string :=
  match x with Some s => s | None => "" end.

(** [s[:n]] *)
Definition take (n : nat) (s : string) : string := substring 0 n s.

Fixpoint drop (n : nat) (s : string) : string :=
  match n, s with
  | S k, String _ r => drop k r
  | _, _ => s
  end.

Fixpoint forallb (p : ascii -> bool) (s : string) : bool :=
  match s with
  | EmptyString => true
  | String c r => p c && forallb p r
  end.

(** [s.startswith(p)] *)
Fixpoint startswith (p s : string) : bool :=
  match p, s with
  | EmptyString, _ => true
  | String a p', String c s' => Ascii.eqb a c && startswith p' s'
  | String _ _, EmptyString => false
  end.

(** [p] is a prefix of [s] up to case, as a literal is matched under
    [re.IGNORECASE]. *)
Fixpoint ci_startswith (p s : string) : bool :=
  match p, s with
  | EmptyString, _ => true
  | String a p', String c s' => ci_eqb a c && ci_startswith p' s'
  | String _ _, EmptyString => false
  end.

Definition head (s : string) : option ascii :=
  match s with EmptyString => None | String c _ => Some c end.

(** Last character of [s], or [prev] when [s] is empty. *)
Fixpoint last_or (prev : option ascii) (s : string) : option ascii :=
  match s with
  | EmptyString => prev
  | String c r => last_or (Some c) r
  end.

End PyStr.

(** ** The fragment of Python's [re] module used by the program

    A compiled pattern is modelled by its behaviour at one position of the
    subject: given the character before the position ([None] at the start
    of the string) and the rest of the subject, it returns the length of the
    match the backtracking engine finds there.  [finditer]/[findall],
    [search] and [sub] scan the subject from left to right with it. *)

Module PyRe.
Import Chars PyStr.

Definition matcher := option ascii -> string -> option nat.

Definition is_word_opt (c : option ascii) : bool :=
  match c with Some a => is_word a | None => false end.

(** [\b]: exactly one of the two neighbours is a word character; outside
    the string counts as a non-word character. *)
Definition word_boundary (prev : option ascii) (s : string) : bool :=
  xorb (is_word_opt prev) (is_word_opt (head s)).

(** Length of the longest prefix of [s] made of characters in [p]: what a
    greedy [[p]*] consumes. *)
Fixpoint run_len (p : ascii -> bool) (s : string) : nat :=
  match s with
  | EmptyString => 0
  | String c r => if p c then S (run_len p r) else 0
  end.

(** *** Scanning *)

(** Number of matches [len(list(rx.finditer(s)))] and [len(rx.findall(s))].
    [skip] counts the characters of the previous match still to be passed.
    After an empty match the scan resumes one character further. *)
Fixpoint count_from (m : matcher) (prev : option ascii) (s : string)
         (skip : nat) : nat :=
  match s with
  | EmptyString =>
      match skip with
      | O => match m prev EmptyString with Some _ => 1 | None => 0 end
      | S _ => 0
      end
  | String c r =>
      match skip with
      | S k => count_from m (Some c) r k
      | O =>
          match m prev s with
          | Some O => S (count_from m (Some c) r 0)
          | Some (S k) => S (count_from m (Some c) r k)
          | None => count_from m (Some c) r 0
          end
      end
  end.

Definition finditer_count (m : matcher) (s : string) : nat :=
  count_from m None s 0.

(** [rx.sub(repl, s)] with a callable [repl] applied to the matched text. *)
Fixpoint sub_from (m : matcher) (repl : string -> string)
         (prev : option ascii) (s : string) (skip : nat) : string :=
  match s with
  | EmptyString =>
      match skip with
      | O => match m prev EmptyString with
             | Some _ => repl EmptyString
             | None => EmptyString
             end
      | S _ => EmptyString
      end
  | String c r =>
      match skip with
      | S k => sub_from m repl (Some c) r k
      | O =>
          match m prev s with
          | Some O => repl EmptyString ++ String c (sub_from m repl (Some c) r 0)
          | Some (S k) => repl (take (S k) s) ++ sub_from m repl (Some c) r k
          | None => String c (sub_from m repl (Some c) r 0)
          end
      end
  end.

Definition sub_fn (m : matcher) (repl : string -> string) (s : string) : string :=
  sub_from m repl None s 0.

(** [rx.sub(repl, s)] with a constant replacement string. *)
Definition sub (m : matcher) (repl : string) (s : string) : string :=
  sub_fn m (fun _ => repl) s.

(** [rx.search(s)]: the text of the leftmost match, [m.group(0)]. *)
Fixpoint search_from (m : matcher) (prev : option ascii) (s : string)
  : option string :=
  match m prev s with
  | Some n => Some (take n s)
  | None =>
      match s with
      | EmptyString => None
      | String c r => search_from m (Some c) r
      end
  end.

Definition search (m : matcher) (s : string) : option string :=
  search_from m None s.

(** *** Literal patterns with word boundaries

    [compile_patterns] builds its pattern text from [re.escape]; the part of
    the pattern syntax it can produce is parsed here. *)

Inductive atom : Type :=
| Boundary                (* \b *)
| Lit (c : ascii).        (* a literal character *)

(** The characters [re.escape] puts a backslash before:
    [()[]{}?*+-|^$\.&~#] and [ \t\n\r\v\f]. *)
Definition is_special (c : ascii) : bool :=
  let n := code c in
  between 9 13 c || (n =? 32)%N || between 35 36 c || (n =? 38)%N
  || between 40 43 c || between 45 46 c || (n =? 63)%N
  || between 91 94 c || between 123 126 c.

Fixpoint escape (s : string) : string :=
  match s with
  | EmptyString => EmptyString
  | String c r =>
      if is_special c then String "\" (String c (escape r))
      else String c (escape r)
  end.

(** Characters with a meaning of their own in a pattern:
    [. ^ $ * + ? { } [ ] \ | ( )]. *)
Definition is_meta (c : ascii) : bool :=
  let n := code c in
  (n =? 36)%N || between 40 43 c || (n =? 46)%N || (n =? 63)%N
  || between 91 94 c || between 123 125 c.

(** Parser for patterns made of literals, escaped punctuation and [\b].
    [None] stands for everything else: an operator, a class or group, a
    special sequence other than [\b], or a pattern [re.compile] refuses. *)
Fixpoint parse (p : string) : option (list atom) :=
  match p with
  | EmptyString => Some []
  | String c r =>
      if Ascii.eqb c "\" then
        match r with
        | EmptyString => None
        | String e r' =>
            if Ascii.eqb e "b" then option_map (cons Boundary) (parse r')
            else if is_ascii_alnum e then None
            else option_map (cons (Lit e)) (parse r')
        end
      else if is_meta c then None
      else option_map (cons (Lit c)) (parse r)
  end.

(** The match of a parsed pattern at one position; [ignorecase] is the flag
    [re.IGNORECASE]. *)
Fixpoint match_atoms (ignorecase : bool) (p : list atom)
         (prev : option ascii) (s : string) : option nat :=
  match p with
  | [] => Some 0
  | Boundary :: p' =>
      if word_boundary prev s then match_atoms ignorecase p' prev s else None
  | Lit a :: p' =>
      match s with
      | EmptyString => None
      | String c r =>
          if (if ignorecase then ci_eqb a c else Ascii.eqb a c)
          then option_map S (match_atoms ignorecase p' (Some c) r)
          else None
      end
  end.

(** A compiled literal pattern. *)
Record regex : Type := { atoms : list atom; ignorecase : bool }.

Definition compile (pattern : string) (flag_ignorecase : bool) : option regex :=
  option_map (fun a => {| atoms := a; ignorecase := flag_ignorecase |})
             (parse pattern).

Definition regex_matcher (rx : regex) : matcher :=
  match_atoms (ignorecase rx) (atoms rx).

(** *** The other patterns of the program, by the match they find *)

(** [[p]+] for a character class [p]: the longest run, at least one. *)
Definition m_plus (p : ascii -> bool) : matcher :=
  fun _ s => match run_len p s with O => None | n => Some n end.

(** [[p]]: one character of the class. *)
Definition m_class (p : ascii -> bool) : matcher :=
  fun _ s => match s with
             | String c _ => if p c then Some 1 else None
             | EmptyString => None
             end.

End PyRe.

(** ** Python values shared by the modules: exceptions and dicts *)

Module Py.

Inductive exn : Type :=
| TypeError      (* expected string or bytes-like object *)
| ValueError     (* invalid literal for int() *)
| ReError.       (* re.error: the pattern does not compile *)

Inductive result (A : Type) : Type :=
| Ok (a : A)
| Raise (e : exn).
Arguments Ok {A} a.
Arguments Raise {A} e.

Definition bind {A B : Type} (r : result A) (k : A -> result B) : result B :=
  match r with
  | Ok a => k a
  | Raise e => Raise e
  end.

(** Keys of a dict: values with a decidable equality. *)
Class KeyEq (K : Type) : Type := {
  keqb : K -> K -> bool;
  keqb_spec : forall a b : K, reflect (a = b) (keqb a b)
}.

#[export] Instance string_KeyEq : KeyEq string :=
  {| keqb := String.eqb; keqb_spec := String.eqb_spec |}.

#[export] Instance pair_KeyEq {A B : Type} `{KeyEq A} `{KeyEq B} : KeyEq (A * B).
Proof.
  refine {| keqb := fun x y => keqb (fst x) (fst y) && keqb (snd x) (snd y) |}.
  intros [a b] [a' b']; simpl.
  destruct (keqb_spec a a'), (keqb_spec b b'); simpl; constructor; congruence.
Defined.

(** A [dict] keeps its items in insertion order and its keys distinct. *)
Definition dict (K V : Type) : Type := list (K * V).

Section Dict.
Context {K V : Type} `{KeyEq K}.

(** [d.get(k)] *)
Fixpoint get (d : dict K V) (k : K) : option V :=
  match d with
  | [] => None
  | (k', v) :: r => if keqb k k' then Some v else get r k
  end.

(** [d.get(k, default)] *)
Definition get_default (d : dict K V) (k : K) (default : V) : V :=
  match get d k with Some v => v | None => default end.

(** [k in d] *)
Definition mem (d : dict K V) (k : K) : bool :=
  match get d k with Some _ => true | None => false end.

(** [d[k] = v]: an existing key keeps its place, a new one goes last. *)
Fixpoint set (d : dict K V) (k : K) (v : V) : dict K V :=
  match d with
  | [] => [(k, v)]
  | (k', v') :: r => if keqb k k' then (k', v) :: r else (k', v') :: set r k v
  end.

Definition keys (d : dict K V) : list K := map fst d.
Definition values (d : dict K V) : list V := map snd d.

End Dict.

End Py.

Declare Scope py_scope.
Notation "x <- e ;; k" := (Py.bind e (fun x => k))
  (at level 61, e at next level, right associativity) : py_scope.
Local Open Scope py_scope.

(** ** [src/cues.py] *)

Module Cues.
Import Chars PyStr PyRe Py.

Definition CUE_LEXICON : dict string (list string) :=
  [ ("authority",
      [ "official notice"; "account review team"; "security team"; "compliance team";
        "verified badge"; "support team"; "customer service"; "help center";
        "administrator"; "admin"; "security"; "support"; "service"; "notice" ]);
    ("urgency",
      [ "urgent action required"; "act now"; "immediate action"; "final notice";
        "expires soon"; "deadline"; "verify within 24 hours";
        "urgent"; "immediately"; "now"; "today"; "minutes"; "hours"; "24 hours" ]);
    ("scarcity",
      [ "only a few left"; "limited availability"; "limited slots"; "while supplies last";
        "limited"; "last chance"; "only today" ]);
    ("fear_loss",
      [ "unusual activity detected"; "unauthorised login"; "unauthorized login";
        "your account is locked"; "payment failed"; "suspicious activity";
        "security alert"; "fraud alert";
        "suspended"; "suspension"; "locked"; "disabled"; "restricted";
        "compromised"; "violation"; "failed"; "failure"; "alert"; "warning" ]);
    ("consistency_commitment",
      [ "confirm your identity"; "verify your account"; "update your details";
        "complete your profile"; "continue to your account";
        "confirm"; "verify"; "update"; "continue"; "proceed"; "submit"; "resolve";
        "login"; "sign in"; "reset"; "password"; "identity"; "account" ]);
    ("similarity_socialproof",
      [ "people like you"; "as recommended"; "popular choice"; "trending now";
        "recommended"; "popular"; "trending" ]);
    ("reward_reciprocity",
      [ "claim your reward"; "you have won"; "exclusive offer"; "congratulations";
        "reward"; "bonus"; "voucher"; "gift"; "prize" ]);
    ("brand_trust",
      [ "amazon"; "barclays"; "facebook"; "meta"; "instagram"; "mastercard"; "netflix"; "paypal";
        "apple"; "microsoft"; "google"; "coinbase"; "uphold"; "telenet" ]) ].

(** [r"\b" + re.escape(phrase) + r"\b"] *)
Definition pattern_text (phrase : string) : string :=
  "\b" ++ escape phrase ++ "\b".

(** [re.compile(pattern_text, re.IGNORECASE)] *)
Definition compile_phrase (phrase : string) : result regex :=
  match compile (pattern_text phrase) true with
  | Some rx => Ok rx
  | None => Raise ReError
  end.

(** The inner loop of [compile_patterns]: [patterns[category].append(...)]. *)
Fixpoint compile_phrases (phrases : list string) (acc : list (regex * string))
  : result (list (regex * string)) :=
  match phrases with
  | [] => Ok acc
  | phrase :: rest =>
      compiled <- compile_phrase phrase ;;
      compile_phrases rest (acc ++ [(compiled, phrase)])
  end.

Fixpoint compile_items (items : list (string * list string))
         (patterns : dict string (list (regex * string)))
  : result (dict string (list (regex * string))) :=
  match items with
  | [] => Ok patterns
  | (category, phrases) :: rest =>
      plist <- compile_phrases phrases [] ;;
      compile_items rest (set patterns category plist)
  end.

Definition compile_patterns (lexicon : dict string (list string))
  : result (dict string (list (regex * string))) :=
  compile_items lexicon [].

(** [PATTERNS = compile_patterns(CUE_LEXICON)], evaluated when the module
    is loaded. *)
Definition PATTERNS : dict string (list (regex * string)) :=
  Eval vm_compute in
    match compile_patterns CUE_LEXICON with Ok p => p | Raise _ => [] end.

(** [for _ in regex_obj.finditer(text): count += 1]; [finditer] raises
    [TypeError] when [text] is not a string. *)
Definition finditer_len (rx : regex) (text : option string) : result nat :=
  match text with
  | Some s => Ok (finditer_count (regex_matcher rx) s)
  | None => Raise TypeError
  end.

(** The loop over the phrases of one category; [inner] is
    [results[category]]. *)
Fixpoint count_phrases (text : option string) (plist : list (regex * string))
         (inner : dict string nat) : result (dict string nat) :=
  match plist with
  | [] => Ok inner
  | (regex_obj, phrase) :: rest =>
      count <- finditer_len regex_obj text ;;
      count_phrases text rest
        (if (0 <? count)%nat then set inner phrase count else inner)
  end.

(** The loop over the categories; the closing test
    [if category not in results] never fires, the key being set at the
    start of the iteration. *)
Fixpoint detect_items (text : option string)
         (items : list (string * list (regex * string)))
         (results : dict string (dict string nat))
  : result (dict string (dict string nat)) :=
  match items with
  | [] => Ok results
  | (category, plist) :: rest =>
      inner <- count_phrases text plist [] ;;
      detect_items text rest (set results category inner)
  end.

Definition detect_cues_with (patterns : dict string (list (regex * string)))
           (text : option string) : result (dict string (dict string nat)) :=
  detect_items text patterns [].

Definition detect_cues (text : option string)
  : result (dict string (dict string nat)) :=
  detect_cues_with PATTERNS text.

(** [total += count] over the items of one category. *)
Definition sum_counts (phrase_counts : dict string nat) : nat :=
  fold_left (fun total pc => total + snd pc) phrase_counts 0.

Fixpoint summarize_items (items : list (string * dict string nat))
         (totals : dict string nat) : dict string nat :=
  match items with
  | [] => totals
  | (category, phrase_counts) :: rest =>
      summarize_items rest (set totals category (sum_counts phrase_counts))
  end.

Definition summarize_counts (matches : dict string (dict string nat))
  : dict string nat :=
  summarize_items matches [].

End Cues.

(** ** The regular expressions of the program

    [src/nazario.py], [src/images.py], [src/urlscan.py] and
    [src/nazario_census.py] spell the expressions they share identically;
    each is given once, by the match it finds at a position. *)

Module Patterns.
Import Chars PyStr PyRe.

(** [[^a-z0-9]] *)
Definition not_az09 (c : ascii) : bool := negb (is_az09 c).

(** [re.sub(r"[^a-z0-9]+", " ", s)] *)
Definition sub_non_alnum (s : string) : string := sub (m_plus not_az09) " " s.

(** [re.sub(r"\s+", " ", s)] *)
Definition sub_spaces (s : string) : string := sub (m_plus is_space) " " s.

(** [\b[A-Z]{2,}\b]: the whole run of capitals is taken or nothing, since
    no boundary lies inside the run. *)
Definition RE_ALL_CAPS : matcher :=
  fun prev s =>
    if word_boundary prev s then
      let n := run_len is_upper_az s in
      if (2 <=? n)%nat && word_boundary (last_or prev (take n s)) (drop n s)
      then Some n else None
    else None.

(** [!+] *)
Definition RE_EXCLAM : matcher := m_plus (fun c => Ascii.eqb c "!").

(** The class of the pound, dollar and euro signs; the euro sign lies
    outside the modelled code points. *)
Definition RE_MONEY : matcher :=
  m_class (fun c => (code c =? 163)%N || Ascii.eqb c "$").

(** [(https?://|www\.)] with [re.IGNORECASE]. *)
Definition RE_LINK : matcher :=
  fun _ s =>
    if ci_startswith "https://" s then Some 8
    else if ci_startswith "http://" s then Some 7
    else if ci_startswith "www." s then Some 4
    else None.

(** [\bhxxps?://] with [re.IGNORECASE]. *)
Definition DEOBF_HXXP : matcher :=
  fun prev s =>
    if word_boundary prev s then
      if ci_startswith "hxxps://" s then Some 8
      else if ci_startswith "hxxp://" s then Some 7
      else None
    else None.

(** [\[(\.)\]] *)
Definition DEOBF_DOT : matcher :=
  fun _ s => if startswith "[.]" s then Some 3 else None.

Definition not_gt (c : ascii) : bool := negb (Ascii.eqb c ">").

(** [<[^>]+>]: the greedy class runs to the first [>], which must exist and
    must not come at once. *)
Definition RE_TAGS : matcher :=
  fun _ s =>
    match s with
    | String "<" r =>
        let n := run_len not_gt r in
        match n, drop n r with
        | S _, String ">" _ => Some (n + 2)
        | _, _ => None
        end
    | _ => None
    end.

(** The closing tag [<\s*/\s*\1\s*>] at one position, for the tag name
    [tag] captured by group 1 (compared up to case). *)
Definition close_tag (tag : string) (s : string) : option nat :=
  match s with
  | String "<" r =>
      let n1 := run_len is_space r in
      match drop n1 r with
      | String "/" r2 =>
          let n2 := run_len is_space r2 in
          let r3 := drop n2 r2 in
          if ci_startswith tag r3 then
            let r4 := drop (length tag) r3 in
            let n3 := run_len is_space r4 in
            match drop n3 r4 with
            | String ">" _ => Some (1 + n1 + 1 + n2 + length tag + n3 + 1)
            | _ => None
            end
          else None
      | _ => None
      end
  | _ => None
  end.

(** The lazy [.*?] followed by the closing tag: the nearest position where
    the closing tag matches; the result counts the skipped characters and
    the closing tag. *)
Fixpoint lazy_close (tag : string) (s : string) : option nat :=
  match close_tag tag s with
  | Some n => Some n
  | None =>
      match s with
      | EmptyString => None
      | String _ r => option_map S (lazy_close tag r)
      end
  end.

(** The opening tag [<\s*(script|style)[^>]*>] for one alternative, then
    the rest of [RE_SCRIPTS]. *)
Definition script_block (tag : string) (s : string) : option nat :=
  match s with
  | String "<" r =>
      let n1 := run_len is_space r in
      let r1 := drop n1 r in
      if ci_startswith tag r1 then
        let r2 := drop (length tag) r1 in
        let n2 := run_len not_gt r2 in
        match drop n2 r2 with
        | String ">" r3 =>
            option_map (fun n => 1 + n1 + length tag + n2 + 1 + n)
                       (lazy_close tag r3)
        | _ => None
        end
      else None
  | _ => None
  end.

(** [<\s*(script|style)[^>]*>.*?<\s*/\s*\1\s*>] with [re.IGNORECASE] and
    [re.DOTALL]. *)
Definition RE_SCRIPTS : matcher :=
  fun _ s =>
    match script_block "script" s with
    | Some n => Some n
    | None => script_block "style" s
    end.

(** [\b(19|20)\d{2}\b] *)
Definition YEAR_RX : matcher :=
  fun prev s =>
    if word_boundary prev s then
      match s with
      | String a (String b (String c (String d r))) =>
          if (startswith "19" s || startswith "20" s)
             && is_digit c && is_digit d && word_boundary (Some d) r
          then Some 4 else None
      | _ => None
      end
    else None.

(** One alternative of [^(re|fw|fwd)\s*:\s*], tried at the start of the
    string. *)
Definition marker_alt (word : string) (s : string) : option nat :=
  if startswith word s then
    let r := drop (length word) s in
    let n1 := run_len is_space r in
    match drop n1 r with
    | String ":" r2 => Some (length word + n1 + 1 + run_len is_space r2)
    | _ => None
    end
  else None.

(** [^(re|fw|fwd)\s*:\s*]: the alternatives in order, the next one tried
    when the colon does not follow. *)
Definition RE_MARKER : matcher :=
  fun prev s =>
    match prev with
    | Some _ => None
    | None =>
        match marker_alt "re" s with
        | Some n => Some n
        | None =>
            match marker_alt "fw" s with
            | Some n => Some n
            | None => marker_alt "fwd" s
            end
        end
    end.

End Patterns.

(** ** Surface heuristics of [detect_with_extras] *)

Module Extras.
Import Chars PyStr PyRe Py Patterns.

Record extras : Type := {
  all_caps_words : nat;
  exclamations : nat;
  money_symbols : nat;
  links : nat
}.

(** The four [len(RE_X.findall(text))] of [detect_with_extras]. *)
Definition count_extras (text : string) : extras :=
  {| all_caps_words := finditer_count RE_ALL_CAPS text;
     exclamations := finditer_count RE_EXCLAM text;
     money_symbols := finditer_count RE_MONEY text;
     links := finditer_count RE_LINK text |}.

End Extras.

(** ** [src/nazario.py] *)

Module Nazario.
Import Chars PyStr PyRe Py Cues Patterns Extras.

Definition normalize_text (s : option string) : string :=
  match s with
  | None => ""
  | Some EmptyString => ""
  | Some s =>
      let s := lower s in
      let s := sub_non_alnum s in
      strip (sub_spaces s)
  end.

Definition deobfuscate_iocs (s : option string) : string :=
  match s with
  | None => ""
  | Some EmptyString => ""
  | Some s =>
      let s := sub_fn DEOBF_HXXP
                 (fun m => if startswith "hxxps" (lower m)
                           then "https://" else "http://") s in
      sub DEOBF_DOT "." s
  end.

Definition detect_with_extras (text : option string)
  : result (dict string nat * extras) :=
  let text := match text with None => "" | Some t => t end in
  let text := deobfuscate_iocs (Some text) in
  matches <- detect_cues (Some text) ;;
  let totals := summarize_counts matches in
  Ok (totals, count_extras text).

End Nazario.

(** ** [src/images.py] *)

Module Images.
Import Chars PyStr PyRe Py Cues Patterns Extras.

Definition normalize_text (text : option string) : string :=
  match text with
  | None => ""
  | Some EmptyString => ""
  | Some text =>
      let text := lower text in
      let text := sub_non_alnum text in
      let text := sub_spaces text in
      strip text
  end.

(** [merged_phrase[category][phrase] = count] over one category. *)
Fixpoint copy_counts (phrase_counts : list (string * nat)) (inner : dict string nat)
  : dict string nat :=
  match phrase_counts with
  | [] => inner
  | (phrase, count) :: rest => copy_counts rest (set inner phrase count)
  end.

(** First loop: copy the raw counts. *)
Fixpoint copy_raw (items : list (string * dict string nat))
         (merged_phrase : dict string (dict string nat))
  : dict string (dict string nat) :=
  match items with
  | [] => merged_phrase
  | (category, phrase_counts) :: rest =>
      copy_raw rest (set merged_phrase category (copy_counts phrase_counts []))
  end.

(** [merged_phrase[category][phrase] = old_count + count] over one
    category. *)
Fixpoint add_counts (phrase_counts : list (string * nat)) (inner : dict string nat)
  : dict string nat :=
  match phrase_counts with
  | [] => inner
  | (phrase, count) :: rest =>
      let old_count := get_default inner phrase 0 in
      add_counts rest (set inner phrase (old_count + count))
  end.

(** Second loop: add the counts of the normalised pass. *)
Fixpoint add_norm (items : list (string * dict string nat))
         (merged_phrase : dict string (dict string nat))
  : dict string (dict string nat) :=
  match items with
  | [] => merged_phrase
  | (category, phrase_counts) :: rest =>
      let merged_phrase :=
        if mem merged_phrase category then merged_phrase
        else set merged_phrase category [] in
      add_norm rest
        (set merged_phrase category
             (add_counts phrase_counts (get_default merged_phrase category [])))
  end.

Definition detect_with_extras (text : option string)
  : result (dict string nat * extras) :=
  let text := match text with None => "" | Some t => t end in
  matches_raw <- detect_cues (Some text) ;;
  let norm := normalize_text (Some text) in
  matches_norm <- detect_cues (Some norm) ;;
  let merged_phrase := copy_raw matches_raw [] in
  let merged_phrase := add_norm matches_norm merged_phrase in
  let totals := summarize_counts merged_phrase in
  Ok (totals, count_extras text).

End Images.

(** ** [hashlib.sha1] (FIPS 180-4), on bytes given as numbers below 256 *)

Module Sha1.

Local Open Scope N_scope.

Definition mask32 (x : N) : N := N.land x 4294967295.

Definition rotl (n : N) (x : N) : N :=
  mask32 (N.lor (N.shiftl x n) (N.shiftr x (32 - n))).

Definition add32 (x y : N) : N := mask32 (x + y).

(** Bitwise complement on 32 bits. *)
Definition not32 (x : N) : N := N.lxor x 4294967295.

(** The message followed by the bit 1, zeros up to 56 modulo 64 bytes, and
    its length in bits on 8 bytes, big-endian. *)
Definition be_bytes (count : nat) (x : N) : list N :=
  map (fun i => N.land (N.shiftr x (8 * N.of_nat i)) 255) (rev (seq 0 count)).

Definition pad (msg : list N) : list N :=
  let len := N.of_nat (List.length msg) in
  let zeros := N.to_nat ((119 - (len mod 64)) mod 64) in
  msg ++ [128] ++ repeat 0 zeros ++ be_bytes 8 (8 * len).

Fixpoint words_of_bytes (n : nat) (bytes : list N) : list N :=
  match n with
  | O => []
  | S k =>
      match bytes with
      | b0 :: b1 :: b2 :: b3 :: rest =>
          (N.shiftl b0 24 + N.shiftl b1 16 + N.shiftl b2 8 + b3)
            :: words_of_bytes k rest
      | _ => []
      end
  end.

(** The message schedule, most recent word first:
    [w[i] = (w[i-3] xor w[i-8] xor w[i-14] xor w[i-16]) rotl 1]. *)
Fixpoint extend (n : nat) (w : list N) : list N :=
  match n with
  | O => w
  | S k =>
      let x := N.lxor (N.lxor (nth 2 w 0) (nth 7 w 0))
                      (N.lxor (nth 13 w 0) (nth 15 w 0)) in
      extend k (rotl 1 x :: w)
  end.

Definition schedule (block : list N) : list N :=
  rev (extend 64 (rev (words_of_bytes 16 block))).

Definition state : Type := N * N * N * N * N.

Definition round (st : state) (iw : nat * N) : state :=
  let '(a, b, c, d, e) := st in
  let '(i, w) := iw in
  let '(f, k) :=
    if (i <? 20)%nat then (N.lor (N.land b c) (N.land (not32 b) d), 1518500249)
    else if (i <? 40)%nat then (N.lxor (N.lxor b c) d, 1859775393)
    else if (i <? 60)%nat then
      (N.lor (N.lor (N.land b c) (N.land b d)) (N.land c d), 2400959708)
    else (N.lxor (N.lxor b c) d, 3395469782) in
  let temp := add32 (add32 (add32 (add32 (rotl 5 a) f) e) k) w in
  (temp, a, rotl 30 b, c, d).

Definition compress (h : state) (block : list N) : state :=
  let '(h0, h1, h2, h3, h4) := h in
  let '(a, b, c, d, e) :=
    fold_left round (combine (seq 0 80) (schedule block)) h in
  (add32 h0 a, add32 h1 b, add32 h2 c, add32 h3 d, add32 h4 e).

Fixpoint blocks (n : nat) (bytes : list N) (h : state) : state :=
  match n with
  | O => h
  | S k => blocks k (skipn 64 bytes) (compress h (firstn 64 bytes))
  end.

Definition digest (msg : list N) : state :=
  let padded := pad msg in
  blocks (List.length padded / 64) padded
         (1732584193, 4023233417, 2562383102, 271733878, 3285377520).

Definition hex_digit (x : N) : ascii :=
  if x <? 10 then ascii_of_N (48 + x) else ascii_of_N (87 + x).

(** Eight lower-case hexadecimal digits of a 32-bit word. *)
Definition hex32 (x : N) : string :=
  string_of_list_ascii
    (map (fun i => hex_digit (N.land (N.shiftr x (4 * N.of_nat i)) 15))
         (rev (seq 0 8))).

(** [hashlib.sha1(data).hexdigest()] *)
Definition hexdigest (msg : list N) : string :=
  let '(h0, h1, h2, h3, h4) := digest msg in
  (hex32 h0 ++ hex32 h1 ++ hex32 h2 ++ hex32 h3 ++ hex32 h4)%string.

(** [s.encode("utf-8")] on the modelled code points: one byte below 128,
    two bytes from 128 to 255. *)
Fixpoint utf8 (s : string) : list N :=
  match s with
  | EmptyString => []
  | String c r =>
      let n := N_of_ascii c in
      if n <? 128 then n :: utf8 r
      else (192 + N.shiftr n 6) :: (128 + N.land n 63) :: utf8 r
  end.

End Sha1.

(** ** [src/nazario_census.py] *)

Module Census.
Import Chars PyStr PyRe Py Patterns.

Definition YEAR_MIN : Z := 2005.
Definition YEAR_MAX : Z := 2024.
Definition MIN_CONTENT_CHARS : nat := 5.
Definition MAX_EXAMPLES_PER_SIG : nat := 3.
Definition TOP_DUP_CLUSTERS : nat := 50.

Definition html_to_text (html : option string) : string :=
  match html with
  | None => ""
  | Some EmptyString => ""
  | Some html =>
      let html := sub RE_SCRIPTS " " html in
      let html := sub RE_TAGS " " html in
      strip (sub_spaces html)
  end.

Definition normalize_text (s : option string) : string :=
  let s := lower (or_empty s) in
  let s := sub_non_alnum s in
  strip (sub_spaces s).

Definition normalize_subject (subj : option string) : string :=
  let s := lower (strip (or_empty subj)) in
  let s := sub RE_MARKER "" s in
  sub_spaces s.

Definition LIKELY_SUBJECT_KEYS : list string :=
  ["subject"; "subj"; "title"; "headline"].
Definition LIKELY_HTML_KEYS : list string :=
  ["sanitized_body"; "body_html"; "message_html"; "content_html"].
Definition LIKELY_BODY_KEYS : list string :=
  ["body_snippet"; "body"; "text"; "message"; "content"; "payload";
   "description"; "body_text"; "email"; "data"].

(** A row of [csv.DictReader]: a field is a string, or [None] when the line
    is shorter than the header. *)
Definition row : Type := dict string (option string).

Definition safe_get (r : row) (key : string) : string :=
  match get_default r key (Some "") with
  | None => ""
  | Some v => v
  end.

Fixpoint first_present (r : row) (keys : list string) : string :=
  match keys with
  | [] => ""
  | k :: rest =>
      let v := safe_get r k in
      if truthy (strip v) then v else first_present r rest
  end.

(** [y.isdigit()] *)
Definition isdigit (y : string) : bool := truthy y && forallb py_isdigit y.

Fixpoint decimal (acc : Z) (y : string) : Z :=
  match y with
  | EmptyString => acc
  | String c r => decimal (10 * acc + Z.of_N (code c - 48)) r
  end.

(** [int(y)] for a string that passed [isdigit]: the superscript digits
    make it raise. *)
Definition py_int (y : string) : result Z :=
  if truthy y && forallb is_digit y then Ok (decimal 0 y) else Raise ValueError.

Definition _valid_year (y : string) : result bool :=
  if negb (truthy y) || negb (isdigit y) || negb (length y =? 4)%nat then Ok false
  else
    yi <- py_int y ;;
    Ok ((YEAR_MIN <=? yi)%Z && (yi <=? YEAR_MAX)%Z).

Definition extract_year_from_text (s : string) : result string :=
  if negb (truthy s) then Ok ""
  else
    match search YEAR_RX s with
    | None => Ok ""
    | Some y =>
        ok <- _valid_year y ;;
        Ok (if ok then y else "")
    end.

(** The dict [year_audit]. *)
Record audit : Type := {
  date_valid : nat;
  fallback_file : nat;
  unknown : nat;
  date_out_of_range : nat
}.

(** The condition
    [raw_date and YEAR_RX.search(raw_date) and not _valid_year(...group(0))]. *)
Definition out_of_range_date (raw_date : string) : result bool :=
  if truthy raw_date then
    match search YEAR_RX raw_date with
    | None => Ok false
    | Some y => ok <- _valid_year y ;; Ok (negb ok)
    end
  else Ok false.

Definition guess_year_with_audit (r : row) (filename : string) (a : audit)
  : result (string * audit) :=
  let raw_date := safe_get r "date" in
  y_date <- extract_year_from_text raw_date ;;
  ok_date <- _valid_year y_date ;;
  if ok_date then
    Ok (y_date,
        {| date_valid := date_valid a + 1; fallback_file := fallback_file a;
           unknown := unknown a; date_out_of_range := date_out_of_range a |})
  else
    oor <- out_of_range_date raw_date ;;
    let a := if oor then
               {| date_valid := date_valid a; fallback_file := fallback_file a;
                  unknown := unknown a;
                  date_out_of_range := date_out_of_range a + 1 |}
             else a in
    y_file <- extract_year_from_text filename ;;
    ok_file <- _valid_year y_file ;;
    if ok_file then
      Ok (y_file,
          {| date_valid := date_valid a; fallback_file := fallback_file a + 1;
             unknown := unknown a; date_out_of_range := date_out_of_range a |})
    else
      Ok ("",
          {| date_valid := date_valid a; fallback_file := fallback_file a;
             unknown := unknown a + 1; date_out_of_range := date_out_of_range a |}).

Definition is_email_like (r : row) : bool :=
  let subj := first_present r LIKELY_SUBJECT_KEYS in
  let body_any := first_present r (LIKELY_HTML_KEYS ++ LIKELY_BODY_KEYS) in
  (truthy subj && truthy (strip subj))
  || (truthy body_any && truthy (strip body_any)).

Definition signature : Type := string * string * string.

(** Content chosen for hashing: the HTML field stripped of its tags when
    one is present, else the plain-text field. *)
Definition body_content (r : row) : string :=
  let body_html := first_present r LIKELY_HTML_KEYS in
  let body_text := first_present r LIKELY_BODY_KEYS in
  if truthy (strip body_html) then html_to_text (Some body_html) else body_text.

Definition content_signature (cont_norm : string) : string :=
  if (length cont_norm <? MIN_CONTENT_CHARS)%nat then ""
  else Sha1.hexdigest (Sha1.utf8 cont_norm).

Definition build_signature (r : row) : signature :=
  let subj := first_present r LIKELY_SUBJECT_KEYS in
  let subj_norm := normalize_subject (Some subj) in
  let from_domain := strip (lower (safe_get r "from_domain")) in
  let content := body_content r in
  let cont_norm := normalize_text (Some content) in
  let content_sig := content_signature cont_norm in
  (from_domain, subj_norm, content_sig).

(** A CSV file as [main] sees it: its path, [path.name], and the rows
    [csv.DictReader] yields. *)
Record csv_file : Type := {
  path : string;
  name : string;
  rows : list row
}.

(** An entry of [file_counts]. *)
Record file_summary : Type := {
  file : string;
  rows_total : nat;
  email_like_rows : nat;
  unique_signatures_in_file : nat
}.

(** The variables [main] updates while it reads the corpus. *)
Record census : Type := {
  total_rows_all : nat;
  email_like_all : nat;
  file_counts : list file_summary;
  sig_counter : dict signature nat;
  sig_examples : dict signature (list (string * string));
  sig_first_year : dict signature string;
  per_year_raw : dict string nat;
  year_audit : audit
}.

Definition census_start : census :=
  {| total_rows_all := 0; email_like_all := 0; file_counts := [];
     sig_counter := []; sig_examples := []; sig_first_year := [];
     per_year_raw := [];
     year_audit := {| date_valid := 0; fallback_file := 0; unknown := 0;
                      date_out_of_range := 0 |} |}.

(** The variables of the loop over one file. *)
Record in_file : Type := {
  rows_in_file : nat;
  email_like_in_file : nat;
  seen_sigs_this_file : list signature
}.

(** [seen.add(sig)] on a set kept as a list without repetition. *)
Definition set_add (seen : list signature) (sig : signature) : list signature :=
  if existsb (keqb sig) seen then seen else (seen ++ [sig])%list.

(** The body of [for row in rdr], after the two row counters. *)
Definition email_row (filename : string) (r : row) (c : census) (f : in_file)
  : result (census * in_file) :=
  let sig := build_signature r in
  let counter := set (sig_counter c) sig (get_default (sig_counter c) sig 0 + 1) in
  let stored := get_default (sig_examples c) sig [] in
  let examples :=
    set (sig_examples c) sig
        (if (List.length stored <? MAX_EXAMPLES_PER_SIG)%nat
         then (stored ++ [(filename, take 200 (first_present r LIKELY_SUBJECT_KEYS))])%list
         else stored) in
  ya <- guess_year_with_audit r filename (year_audit c) ;;
  let '(yr, a) := ya in
  let raw :=
    if truthy yr then set (per_year_raw c) yr (get_default (per_year_raw c) yr 0 + 1)
    else per_year_raw c in
  let first_year :=
    if truthy yr then
      match get (sig_first_year c) sig with
      | None => set (sig_first_year c) sig yr
      | Some y0 => if String.ltb yr y0 then set (sig_first_year c) sig yr
                   else sig_first_year c
      end
    else sig_first_year c in
  Ok ({| total_rows_all := total_rows_all c;
         email_like_all := email_like_all c + 1;
         file_counts := file_counts c;
         sig_counter := counter;
         sig_examples := examples;
         sig_first_year := first_year;
         per_year_raw := raw;
         year_audit := a |},
      {| rows_in_file := rows_in_file f;
         email_like_in_file := email_like_in_file f + 1;
         seen_sigs_this_file := set_add (seen_sigs_this_file f) sig |}).

Definition count_row (c : census) (f : in_file) : census * in_file :=
  ({| total_rows_all := total_rows_all c + 1;
      email_like_all := email_like_all c;
      file_counts := file_counts c;
      sig_counter := sig_counter c;
      sig_examples := sig_examples c;
      sig_first_year := sig_first_year c;
      per_year_raw := per_year_raw c;
      year_audit := year_audit c |},
   {| rows_in_file := rows_in_file f + 1;
      email_like_in_file := email_like_in_file f;
      seen_sigs_this_file := seen_sigs_this_file f |}).

Fixpoint read_rows (filename : string) (rs : list row) (c : census) (f : in_file)
  : result (census * in_file) :=
  match rs with
  | [] => Ok (c, f)
  | r :: rest =>
      let '(c, f) := count_row c f in
      if negb (is_email_like r) then read_rows filename rest c f
      else
        cf <- email_row filename r c f ;;
        read_rows filename rest (fst cf) (snd cf)
  end.

Fixpoint read_files (files : list csv_file) (c : census) : result census :=
  match files with
  | [] => Ok c
  | p :: rest =>
      cf <- read_rows (name p) (rows p) c
              {| rows_in_file := 0; email_like_in_file := 0;
                 seen_sigs_this_file := [] |} ;;
      let '(c, f) := cf in
      read_files rest
        {| total_rows_all := total_rows_all c;
           email_like_all := email_like_all c;
           file_counts :=
             (file_counts c ++
               [{| file := path p; rows_total := rows_in_file f;
                   email_like_rows := email_like_in_file f;
                   unique_signatures_in_file :=
                     List.length (seen_sigs_this_file f) |}])%list;
           sig_counter := sig_counter c;
           sig_examples := sig_examples c;
           sig_first_year := sig_first_year c;
           per_year_raw := per_year_raw c;
           year_audit := year_audit c |}
  end.

(** Python's [float(n)] for an integer: the nearest binary64 number. *)
Definition float_of_Z (n : Z) : float :=
  SF2Prim (binary_normalize prec emax n 0 false).

(** [per_year_unique[yr] += 1] over the items of [sig_first_year]. *)
Fixpoint count_unique (items : list (signature * string))
         (per_year_unique : dict string nat) : dict string nat :=
  match items with
  | [] => per_year_unique
  | (_, yr) :: rest =>
      count_unique rest
        (if truthy yr
         then set per_year_unique yr (get_default per_year_unique yr 0 + 1)
         else per_year_unique)
  end.

(** The figures [main] derives once the corpus is read. *)
Record snapshot : Type := {
  rows_total_all : nat;
  email_like : nat;
  unique_emails : nat;
  duplicates : Z;
  dup_rate : float;
  per_year_unique : dict string nat;
  final : census
}.

(** [duplicates / email_like_all * 100.0]: for operands below [2^53], as
    row counts are, Python's [int / int] is the binary64 quotient of the two
    converted operands. *)
Definition rate (duplicates : Z) (email_like_all : nat) : float :=
  match email_like_all with
  | O => 0%float
  | _ => (float_of_Z duplicates / float_of_Z (Z.of_nat email_like_all) * 100)%float
  end.

Definition finalize (c : census) : snapshot :=
  let unique_emails := List.length (sig_counter c) in
  let duplicates :=
    Z.max 0 (Z.of_nat (email_like_all c) - Z.of_nat unique_emails) in
  {| rows_total_all := total_rows_all c;
     email_like := email_like_all c;
     unique_emails := unique_emails;
     duplicates := duplicates;
     dup_rate := rate duplicates (email_like_all c);
     per_year_unique := count_unique (sig_first_year c) [];
     final := c |}.

(** [main] on the CSV files found under the input directory; it prints a
    message and returns when there is none. *)
Definition main (csv_files : list csv_file) : result (option snapshot) :=
  match csv_files with
  | [] => Ok None
  | _ =>
      c <- read_files csv_files census_start ;;
      Ok (Some (finalize c))
  end.

End Census.

(** ** Definitions the properties are stated with

    What the pattern compiler, the normaliser, the subject cleaner and the
    year resolver are specified to compute, in the words of the
    specification, and what the loops of the program leave behind; the
    theorems below compare the program with them. *)

Module Spec.
Import Chars PyStr PyRe Py Patterns.

(** The pattern that matches [phrase] as literal text between two word
    boundaries. *)
Definition literal_atoms (phrase : string) : list atom :=
  (Boundary :: map Lit (list_ascii_of_string phrase) ++ [Boundary])%list.

Definition literal_regex (phrase : string) : regex :=
  {| atoms := literal_atoms phrase; ignorecase := true |}.

(** The phrase occurs at a position, up to case, with a word boundary on
    each side. *)
Definition occurs_at (phrase : string) (prev : option ascii) (s : string) : bool :=
  word_boundary prev s
  && ci_startswith phrase s
  && word_boundary (last_or prev (take (length phrase) s))
                   (drop (length phrase) s).

(** Replace every maximal run of characters of the class [p] by a single
    space; [in_run] tells that the previous character was in the class. *)
Fixpoint squeeze (p : ascii -> bool) (in_run : bool) (s : string) : string :=
  match s with
  | EmptyString => EmptyString
  | String c r =>
      if p c then
        if in_run then squeeze p true r else String " " (squeeze p true r)
      else String c (squeeze p false r)
  end.

Definition starts_word (s : string) : bool :=
  match s with
  | EmptyString => false
  | String c _ => is_az09 c
  end.

Definition cons_head (c : ascii) (ws : list string) : list string :=
  match ws with
  | [] => [String c EmptyString]
  | w :: rest => String c w :: rest
  end.

(** The alphanumeric tokens of a text: its maximal runs of [[a-z0-9]]. *)
Fixpoint tokens (s : string) : list string :=
  match s with
  | EmptyString => []
  | String c r =>
      if is_az09 c then
        if starts_word r then cons_head c (tokens r)
        else String c EmptyString :: tokens r
      else tokens r
  end.

(** Tokens separated by single spaces. *)
Definition unwords (ws : list string) : string := String.concat " " ws.

(** The normaliser of the specification: lower-case, then the alphanumeric
    tokens separated by single spaces. *)
Definition normalize (text : string) : string := unwords (tokens (lower text)).



(** Removal of one leading reply or forward marker: the word, optional
    blanks, a colon, optional blanks. *)
Definition after_colon (s : string) : option string :=
  match lstrip s with
  | String ":" r => Some (lstrip r)
  | _ => None
  end.

Definition try_marker (word : string) (s : string) : option string :=
  if startswith word s then after_colon (drop (length word) s) else None.

Definition strip_marker (s : string) : string :=
  match try_marker "re" s with
  | Some v => v
  | None =>
      match try_marker "fw" s with
      | Some v => v
      | None =>
          match try_marker "fwd" s with
          | Some v => v
          | None => s
          end
      end
  end.

(** A matcher that does not see the case of the subject. *)
Definition case_blind (m : matcher) : Prop :=
  forall prev s, m (option_map Chars.lower prev) (lower s) = m prev s.

(** Texts made of [[a-z0-9]] and single spaces: no two spaces in a row, and
    none at the start when [after_space] is set. *)
Fixpoint tidy (after_space : bool) (s : string) : bool :=
  match s with
  | EmptyString => true
  | String c r =>
      if is_az09 c then tidy false r
      else Ascii.eqb c " " && negb after_space && tidy true r
  end.

(** Number of non-overlapping occurrences of a phrase in a text. *)
Definition phrase_count (phrase text : string) : nat :=
  finditer_count (regex_matcher (literal_regex phrase)) text.

(** The count a detection result reports for a phrase of a category; a
    phrase that is absent counts for zero. *)
Definition reported (results : dict string (dict string nat))
           (category phrase : string) : nat :=
  get_default (get_default results category []) phrase 0.

(** Sum of [f] over the phrases of a category. *)
Definition sum_over (phrases : list string) (f : string -> nat) : nat :=
  list_sum (map f phrases).

(** No phrase is listed twice. *)
Fixpoint distinct (l : list string) : bool :=
  match l with
  | [] => true
  | x :: r => negb (existsb (String.eqb x) r) && distinct r
  end.

(** The compiled phrases of a category, each one a literal pattern. *)
Definition compiled (phrases : list string) : list (regex * string) :=
  map (fun p => (literal_regex p, p)) phrases.

(** What the loop over the phrases of a category leaves in
    [results[category]] for a text. *)
Fixpoint counted (text : string) (phrases : list string) (inner : dict string nat)
  : dict string nat :=
  match phrases with
  | [] => inner
  | p :: rest =>
      counted text rest
        (if (0 <? phrase_count p text)%nat then set inner p (phrase_count p text)
         else inner)
  end.

(** The compiled patterns of a lexicon. *)
Definition compile_lexicon (lexicon : dict string (list string))
  : dict string (list (regex * string)) :=
  map (fun cp => (fst cp, compiled (snd cp))) lexicon.

(** The year resolver, case by case. *)

(** A year-shaped token denotes a year of the window [[2005, 2024]]. *)
Definition in_range (y : string) : bool :=
  (Census.YEAR_MIN <=? Census.decimal 0 y)%Z
  && (Census.decimal 0 y <=? Census.YEAR_MAX)%Z.

(** The first year-shaped token of a text, when it lies in the window. *)
Definition first_year (s : string) : option string :=
  match search YEAR_RX s with
  | Some y => if in_range y then Some y else None
  | None => None
  end.

(** The text has a year-shaped token. *)
Definition has_token (s : string) : bool :=
  match search YEAR_RX s with Some _ => true | None => false end.

Definition bump_date_valid (a : Census.audit) : Census.audit :=
  {| Census.date_valid := Census.date_valid a + 1;
     Census.fallback_file := Census.fallback_file a;
     Census.unknown := Census.unknown a;
     Census.date_out_of_range := Census.date_out_of_range a |}.

Definition bump_fallback_file (a : Census.audit) : Census.audit :=
  {| Census.date_valid := Census.date_valid a;
     Census.fallback_file := Census.fallback_file a + 1;
     Census.unknown := Census.unknown a;
     Census.date_out_of_range := Census.date_out_of_range a |}.

Definition bump_unknown (a : Census.audit) : Census.audit :=
  {| Census.date_valid := Census.date_valid a;
     Census.fallback_file := Census.fallback_file a;
     Census.unknown := Census.unknown a + 1;
     Census.date_out_of_range := Census.date_out_of_range a |}.

Definition bump_out_of_range (a : Census.audit) : Census.audit :=
  {| Census.date_valid := Census.date_valid a;
     Census.fallback_file := Census.fallback_file a;
     Census.unknown := Census.unknown a;
     Census.date_out_of_range := Census.date_out_of_range a + 1 |}.

(** What the resolver returns and the audit it leaves. *)
Definition resolved (date filename : string) (a : Census.audit)
  : string * Census.audit :=
  match first_year date with
  | Some y => (y, bump_date_valid a)
  | None =>
      let a := if has_token date then bump_out_of_range a else a in
      match first_year filename with
      | Some y => (y, bump_fallback_file a)
      | None => (EmptyString, bump_unknown a)
      end
  end.

(** The census, against the rows it has read. *)

(** All rows of a corpus, in reading order, and those that look like
    emails. *)
Definition all_rows (files : list Census.csv_file) : list Census.row :=
  List.concat (map Census.rows files).

Definition email_rows (files : list Census.csv_file) : list Census.row :=
  filter Census.is_email_like (all_rows files).

(** The counters of a census agree with the email-like rows read so far. *)
Record census_ok (emails : list Census.row) (c : Census.census) : Prop := {
  ok_count : Census.email_like_all c = List.length emails;
  ok_nodup : NoDup (keys (Census.sig_counter c));
  ok_sigs : forall sig,
      In sig (keys (Census.sig_counter c))
      <-> In sig (map Census.build_signature emails);
  ok_audit :
    Census.date_valid (Census.year_audit c)
    + Census.fallback_file (Census.year_audit c)
    + Census.unknown (Census.year_audit c) = List.length emails;
  ok_out_of_range :
    Census.date_out_of_range (Census.year_audit c)
    <= Census.fallback_file (Census.year_audit c)
       + Census.unknown (Census.year_audit c)
}.

(** The text starts with a blank. *)
Definition starts_space (s : string) : bool :=
  match s with
  | EmptyString => false
  | String c _ => is_space c
  end.

(** The totals and the heuristics of a text without any cue. *)
Definition zero_totals : dict string nat :=
  map (fun cp => (fst cp, 0)) Cues.CUE_LEXICON.

Definition zero_extras : Extras.extras :=
  {| Extras.all_caps_words := 0; Extras.exclamations := 0;
     Extras.money_symbols := 0; Extras.links := 0 |}.

End Spec.

(** ** More Python primitives: splitting, replacing, slices, [str] of a number *)

Module PyText.
Import Chars PyStr.

(** [c in s] for a one-character string [c]. *)
Fixpoint contains (c : ascii) (s : string) : bool :=
  match s with
  | EmptyString => false
  | String a r => Ascii.eqb a c || contains c r
  end.

(** [x in l] for a list (or a set) of strings. *)
Definition elem (x : string) (l : list string) : bool := existsb (String.eqb x) l.

(** [s.split(sep)] for a one-character separator: one part more than there
    are separators. *)
Fixpoint split (sep : ascii) (s : string) : list string :=
  match s with
  | EmptyString => [EmptyString]
  | String c r =>
      if Ascii.eqb c sep then EmptyString :: split sep r
      else match split sep r with
           | w :: ws => String c w :: ws
           | [] => [String c EmptyString]
           end
  end.

(** [s.replace(old, new)] for a non-empty [old]: the occurrences are taken
    from the left and do not overlap. *)
Fixpoint replace_from (old new s : string) (skip : nat) : string :=
  match s with
  | EmptyString => EmptyString
  | String c r =>
      match skip with
      | S k => replace_from old new r k
      | O =>
          if startswith old s then new ++ replace_from old new r (length old - 1)
          else String c (replace_from old new r 0)
      end
  end.

(** With an empty [old], [new] is put before every character and at the
    end. *)
Fixpoint intersperse (new s : string) : string :=
  match s with
  | EmptyString => new
  | String c r => new ++ String c (intersperse new r)
  end.

Definition replace (old new s : string) : string :=
  match old with
  | EmptyString => intersperse new s
  | _ => replace_from old new s 0
  end.

(** [str(n)] for a non-negative integer. *)
Definition str_of_nat (n : nat) : string := NilZero.string_of_uint (Nat.to_uint n).

(** [l[-n:]] for a positive [n]. *)
Definition last_n {A : Type} (n : nat) (l : list A) : list A :=
  skipn (List.length l - n) l.

(** [l[:k]]; a negative [k] counts from the end. *)
Definition slice_to {A : Type} (k : Z) (l : list A) : list A :=
  if (0 <=? k)%Z then firstn (Z.to_nat k) l
  else firstn (List.length l - Z.to_nat (- k)) l.

(** [sorted(set(l))] for strings: the elements of [l], each once, in
    increasing order of their code points. *)
Fixpoint insert_sorted (x : string) (l : list string) : list string :=
  match l with
  | [] => [x]
  | y :: r =>
      if String.eqb x y then l
      else if String.ltb x y then x :: l
      else y :: insert_sorted x r
  end.

Definition sorted_set (l : list string) : list string :=
  fold_right insert_sorted [] l.

End PyText.

(** ** [save_csv], shared by [src/nazario.py] and [src/images.py] *)

Module Csv.
Import Chars PyStr Py PyText.

(** A value of a summary row: a string or a count. *)
Inductive cell : Type :=
| Str (s : string)
| Int (n : nat).

(** [str(value)] *)
Definition str (v : cell) : string :=
  match v with
  | Str s => s
  | Int n => str_of_nat n
  end.

(** What [save_csv] hands over to the file: the empty text, or a header and
    the lines given to [csv.DictWriter], each with its fields in the order
    of the header. *)
Inductive written : Type :=
| EmptyFile
| Table (headers : list string) (lines : list (list string)).

(** [str(row.get(h, "")).replace("\n", " ").replace("\r", " ")] *)
Definition clean (row : dict string cell) (h : string) : string :=
  replace (String "013" "") " "
    (replace (String "010" "") " " (str (get_default row h (Str "")))).

Definition save_csv (rows : list (dict string cell)) : written :=
  match rows with
  | [] => EmptyFile
  | first :: _ =>
      let headers := keys first in
      Table headers (map (fun row => map (clean row) headers) rows)
  end.

End Csv.

(** ** [src/nazario.py]: redaction, columns, rows and the summary *)

Module NazarioScan.
Import Chars PyStr PyRe Py Patterns Extras PyText Csv.

(** [[A-Za-z]] *)
Definition is_letter (c : ascii) : bool := is_upper_az c || is_lower_az c.

(** [[A-Za-z0-9._%+-]] *)
Definition is_local (c : ascii) : bool :=
  is_ascii_alnum c || Ascii.eqb c "." || Ascii.eqb c "_" || Ascii.eqb c "%"
  || Ascii.eqb c "+" || Ascii.eqb c "-".

(** [[A-Za-z0-9.-]] *)
Definition is_domain (c : ascii) : bool :=
  is_ascii_alnum c || Ascii.eqb c "." || Ascii.eqb c "-".

(** [\.[A-Za-z]{2,}] at a position, the end of the pattern: the dot and the
    whole run of letters. *)
Definition tld (s : string) : option nat :=
  match s with
  | String "." r =>
      let n := run_len is_letter r in
      if (2 <=? n)%nat then Some (1 + n) else None
  | _ => None
  end.

(** [[A-Za-z0-9.-]+] followed by the end of the pattern: the class has taken
    [k] characters and gives them back one by one until the rest matches. *)
Fixpoint domain_back (k : nat) (s : string) : option nat :=
  match k with
  | O => None
  | S k' =>
      match tld (drop k s) with
      | Some t => Some (k + t)
      | None => domain_back k' s
      end
  end.

(** [[A-Za-z0-9._%+-]+@[A-Za-z0-9.-]+\.[A-Za-z]{2,}]: the first class runs up
    to the [@], which is not in it. *)
Definition EMAIL_RX : matcher :=
  fun _ s =>
    let n := run_len is_local s in
    match n, drop n s with
    | S _, String "@" r =>
        option_map (fun d => n + 1 + d) (domain_back (run_len is_domain r) r)
    | _, _ => None
    end.

Definition redact_email_addresses (s : option string) : string :=
  match s with
  | None => ""
  | Some EmptyString => ""
  | Some s => sub EMAIL_RX "[redacted-email]" s
  end.

Definition redact_contacts (value : option string) : string :=
  redact_email_addresses (Some (or_empty value)).

(** [CATEGORY_COLUMNS]; [src/images.py] and [src/urlscan.py] build the same
    list. *)
Definition CATEGORY_COLUMNS : list string :=
  map (fun cat => "sum_" ++ cat) (keys Cues.CUE_LEXICON).

Definition LIKELY_SUBJECT_KEYS : list string :=
  ["subject"; "subj"; "title"; "headline"].
Definition LIKELY_BODY_KEYS : list string :=
  ["body"; "text"; "message"; "content"; "payload"; "snippet";
   "description"; "body_text"; "email"; "data"; "body_snippet"].
Definition LIKELY_HTML_KEYS : list string :=
  ["html"; "body_html"; "message_html"; "content_html"; "sanitized_body"].

(** The columns the fallback of [pick_columns] leaves out. *)
Definition METADATA_KEYS : list string :=
  ["id"; "date"; "from"; "from_domain"; "to"; "timestamp"].

(** The first loop of [pick_columns], over [enumerate(lower)]: [cols] pairs
    each lower-cased name with [header[i]]. *)
Fixpoint classify (cols : list (string * string))
         (subj_cols text_cols html_cols : list string)
  : list string * list string * list string :=
  match cols with
  | [] => (subj_cols, text_cols, html_cols)
  | (h, original) :: rest =>
      let subj_cols :=
        if elem h LIKELY_SUBJECT_KEYS then (subj_cols ++ [original])%list
        else subj_cols in
      let text_cols :=
        if elem h LIKELY_BODY_KEYS then (text_cols ++ [original])%list
        else text_cols in
      let html_cols :=
        if elem h LIKELY_HTML_KEYS then (html_cols ++ [original])%list
        else html_cols in
      classify rest subj_cols text_cols html_cols
  end.

(** The second loop: every column that is not metadata. *)
Fixpoint take_all (cols : list (string * string)) (text_cols : list string)
  : list string :=
  match cols with
  | [] => text_cols
  | (h, original) :: rest =>
      take_all rest
        (if negb (elem h METADATA_KEYS) then (text_cols ++ [original])%list
         else text_cols)
  end.

Definition pick_columns (header : option (list string))
  : list string * list string * list string :=
  let header := match header with Some h => h | None => [] end in
  let lower := map (fun h => PyStr.lower (strip h)) header in
  let '(subj_cols, text_cols, html_cols) :=
    classify (combine lower header) [] [] [] in
  let text_cols :=
    match text_cols, html_cols with
    | [], [] => take_all (combine lower header) text_cols
    | _, _ => text_cols
    end in
  (subj_cols, text_cols, html_cols).

(** [safe_get] and [html_to_text] are spelled as in
    [src/nazario_census.py]. *)
Definition safe_get := Census.safe_get.
Definition html_to_text := Census.html_to_text.

Section Rows.

(** [decode_mime_words] decodes a header with the [email.header] library
    and returns its argument when the library raises: some function from
    strings to strings. *)
Variable decode_mime_words : string -> string.

(** [for k in subj_cols: ... break] *)
Fixpoint first_subject (row : Census.row) (subj_cols : list string)
         (meta : dict string string) : dict string string :=
  match subj_cols with
  | [] => meta
  | k :: rest =>
      let val := safe_get row k in
      if truthy val then set meta "subject" (decode_mime_words val)
      else first_subject row rest meta
  end.

(** [for k in ("from", "to", "date"): if k in row: meta[k] = safe_get(row, k)] *)
Fixpoint contact_fields (row : Census.row) (ks : list string)
         (meta : dict string string) : dict string string :=
  match ks with
  | [] => meta
  | k :: rest =>
      contact_fields row rest
        (if mem row k then set meta k (safe_get row k) else meta)
  end.

Fixpoint text_parts (row : Census.row) (text_cols : list string)
         (parts : list string) : list string :=
  match text_cols with
  | [] => parts
  | k :: rest =>
      let v := safe_get row k in
      text_parts row rest (if truthy v then (parts ++ [v])%list else parts)
  end.

Fixpoint html_parts (row : Census.row) (html_cols : list string)
         (parts : list string) : list string :=
  match html_cols with
  | [] => parts
  | k :: rest =>
      let v := safe_get row k in
      html_parts row rest
        (if truthy v then (parts ++ [html_to_text (Some v)])%list else parts)
  end.

Definition build_text_from_csv_row (row : Census.row)
           (subj_cols text_cols html_cols : list string)
  : dict string string * string :=
  let meta := first_subject row subj_cols [] in
  let meta := contact_fields row ["from"; "to"; "date"] meta in
  let parts := text_parts row text_cols [] in
  let parts := html_parts row html_cols parts in
  (meta, String.concat (String "010" "") parts).

(** The dict [meta_pub]. *)
Record meta_pub : Type := {
  subject : string;
  from : string;
  to : string;
  date : string
}.

(** An entry of the result list: a scanned row ([status] "ok", with
    [bytes] 0) or an error entry. *)
Inductive entry : Type :=
| Scanned (path : string) (meta : meta_pub) (text_len : nat)
          (cues_total : dict string nat) (extras : Extras.extras)
| Failed (path : string) (error : string).

(** What one [with path.open(...)] block reads before it ends or raises:
    the field names, the rows [csv.DictReader] yields, and whether the file
    was read to its end. *)
Record reading : Type := {
  fieldnames : option (list string);
  rows : list Census.row;
  completed : bool
}.

(** The body of [for idx, row in enumerate(reader, start=1)]. *)
Definition scan_row (path : string) (cols : list string * list string * list string)
           (idx : nat) (row : Census.row) : result entry :=
  let '(subj_cols, text_cols, html_cols) := cols in
  let '(meta, raw_text) :=
    build_text_from_csv_row row subj_cols text_cols html_cols in
  te <- Nazario.detect_with_extras (Some raw_text) ;;
  let '(totals, extras) := te in
  let meta_pub :=
    {| subject := redact_email_addresses (Some (get_default meta "subject" ""));
       from := redact_contacts (Some (get_default meta "from" ""));
       to := redact_contacts (Some (get_default meta "to" ""));
       date := get_default meta "date" "" |} in
  Ok (Scanned (path ++ "#row=" ++ str_of_nat idx) meta_pub
              (length raw_text) totals extras).

(** The rows of one attempt, appended to [results]; the boolean tells that
    no row raised. *)
Fixpoint scan_rows (path : string) (cols : list string * list string * list string)
         (idx : nat) (rs : list Census.row) (results : list entry)
  : list entry * bool :=
  match rs with
  | [] => (results, true)
  | row :: rest =>
      match scan_row path cols idx row with
      | Ok e => scan_rows path cols (S idx) rest (results ++ [e])%list
      | Raise _ => (results, false)
      end
  end.

(** [for enc in ("utf-8", "latin-1")]: [results] is created once, before the
    loop, and an attempt that raises goes on to the next encoding. *)
Fixpoint scan_attempts (path : string) (attempts : list reading)
         (results : list entry) : list entry :=
  match attempts with
  | [] =>
      (results ++ [Failed path "Failed to read CSV with utf-8 or latin-1"])%list
  | a :: rest =>
      let cols := pick_columns (Some match fieldnames a with
                                     | Some h => h
                                     | None => []
                                     end) in
      let '(results, no_raise) := scan_rows path cols 1 (rows a) results in
      if no_raise && completed a then results
      else scan_attempts path rest results
  end.

Definition scan_csv (path : string) (utf8 latin1 : reading) : list entry :=
  scan_attempts path [utf8; latin1] [].

End Rows.

(** [for col in CATEGORY_COLUMNS: row[col] = totals.get(cat, 0)] *)
Fixpoint add_totals (cols : list string) (totals : dict string nat)
         (row : dict string cell) : dict string cell :=
  match cols with
  | [] => row
  | col :: rest =>
      let cat := replace "sum_" "" col in
      add_totals rest totals (set row col (Int (get_default totals cat 0)))
  end.

(** [**{col: 0 for col in CATEGORY_COLUMNS}] *)
Fixpoint zero_columns (cols : list string) (row : dict string cell)
  : dict string cell :=
  match cols with
  | [] => row
  | col :: rest => zero_columns rest (set row col (Int 0))
  end.

Definition set_extras (e : Extras.extras) (row : dict string cell)
  : dict string cell :=
  let row := set row "all_caps_words" (Int (all_caps_words e)) in
  let row := set row "exclamations" (Int (exclamations e)) in
  let row := set row "money_symbols" (Int (money_symbols e)) in
  set row "links" (Int (links e)).

(** One row of the flat summary built by [main]. *)
Definition flat_row (r : entry) : dict string cell :=
  match r with
  | Failed path error =>
      let row := [("path", Str path); ("bytes", Int 0); ("text_len", Int 0);
                  ("subject", Str ""); ("from", Str ""); ("date", Str "")] in
      let row := zero_columns CATEGORY_COLUMNS row in
      let row := set_extras {| all_caps_words := 0; exclamations := 0;
                               money_symbols := 0; links := 0 |} row in
      set row "error" (Str error)
  | Scanned path meta text_len totals extras =>
      let row := [("path", Str path); ("bytes", Int 0); ("text_len", Int text_len);
                  ("subject", Str (subject meta)); ("from", Str (from meta));
                  ("date", Str (date meta))] in
      let row := add_totals CATEGORY_COLUMNS totals row in
      set_extras extras row
  end.

(** [save_csv(run_dir / "nazario_scan_summary.csv", flat)] *)
Definition summary (rows : list entry) : written :=
  save_csv (map flat_row rows).

End NazarioScan.

(** ** [src/images.py]: upscaling, scan results and the summary *)

Module ImagesScan.
Import Chars PyStr PyRe Py Patterns Extras PyText Csv.

(** [int(x)] for a float: the integer part, towards zero; [None] for an
    infinity or a NaN, on which [int] raises. *)
Definition int_of_float (x : float) : option Z :=
  match Prim2SF x with
  | S754_zero _ => Some 0%Z
  | S754_finite s m e =>
      let a := match e with
               | Z0 => Zpos m
               | Zpos p => (Zpos m * 2 ^ Zpos p)%Z
               | Zneg p => (Zpos m / 2 ^ Zpos p)%Z
               end in
      Some (if s then (- a)%Z else a)
  | _ => None
  end.

(** The scale factor of [ocr_image], for an image that is upscaled. *)
Definition scale_factor (w h : Z) : option Z :=
  let smallest_side := Z.min w h in
  let smallest_side := if (smallest_side <? 1)%Z then 1%Z else smallest_side in
  match int_of_float (Census.float_of_Z 800 / Census.float_of_Z smallest_side) with
  | Some scale => Some (if (scale <? 2)%Z then 2%Z else scale)
  | None => None
  end.

(** The size [ocr_image] gives to [img.resize], or the size of the image
    when it is left as it is. *)
Definition ocr_size (w h : Z) : option (Z * Z) :=
  if (Z.min w h <? 800)%Z then
    option_map (fun scale => (w * scale, h * scale)%Z) (scale_factor w h)
  else Some (w, h).

(** What [ocr_image] does on one file: it returns a text or raises. *)
Inductive ocr : Type :=
| Text (text : string)
| OcrError (e : string).

Inductive entry : Type :=
| Scanned (path : string) (text_len : nat)
          (cues_total : dict string nat) (extras : Extras.extras)
| Failed (path : string) (error : string).

Section Scan.

(** [repr(e)] for the exceptions of the detector. *)
Variable repr : exn -> string.

(** The body of the loop of [scan_image_dir] for an image file; [OcrError]
    carries [repr] of the exception [ocr_image] raised. *)
Definition scan_image (path : string) (o : ocr) : entry :=
  match o with
  | OcrError e => Failed path e
  | Text text =>
      match Images.detect_with_extras (Some text) with
      | Ok (totals, extras) =>
          Scanned path (if truthy text then length text else 0) totals extras
      | Raise e => Failed path (repr e)
      end
  end.

End Scan.

Definition CATEGORY_COLUMNS : list string := NazarioScan.CATEGORY_COLUMNS.

Definition flat_row (r : entry) : dict string cell :=
  match r with
  | Scanned path text_len totals extras =>
      let row := [("path", Str path); ("text_len", Int text_len)] in
      let row := NazarioScan.add_totals CATEGORY_COLUMNS totals row in
      NazarioScan.set_extras extras row
  | Failed path error =>
      [("path", Str path); ("text_len", Int 0); ("error", Str error)]
  end.

(** [save_csv(run_dir / "images_ocr_summary.csv", flat_rows)] *)
Definition summary (rows : list entry) : written :=
  save_csv (map flat_row rows).

End ImagesScan.

(** ** [src/urlscan.py] *)

Module Urlscan.
Import Chars PyStr PyRe Py Patterns PyText.

Definition apex_from_host (host : option string) : string :=
  let parts := split "." (lower (or_empty host)) in
  if (2 <=? List.length parts)%nat then String.concat "." (last_n 2 parts)
  else lower (or_empty host).

(** [\d{1,3}] followed by a character that is no digit: up to three digits,
    all those there are. *)
Definition octet (s : string) : option nat :=
  let n := run_len is_digit s in
  if (1 <=? n)%nat && (n <=? 3)%nat then Some n else None.

(** [(\.\d{1,3}){n}$]: [$] is the end of the string, or the place before a
    final newline. *)
Fixpoint dotted (n : nat) (s : string) : bool :=
  match n with
  | O =>
      match s with
      | EmptyString => true
      | String c EmptyString => Ascii.eqb c "010"
      | _ => false
      end
  | S k =>
      match s with
      | String "." r =>
          match octet r with
          | Some d => dotted k (drop d r)
          | None => false
          end
      | _ => false
      end
  end.

(** [re.match(r"^\d{1,3}(\.\d{1,3}){3}$", host)] *)
Definition ipv4_like (host : string) : bool :=
  match octet host with
  | Some d => dotted 3 (drop d host)
  | None => false
  end.

Definition is_ip_host (host : option string) : bool :=
  match host with
  | None => false
  | Some EmptyString => false
  | Some host => if contains ":" host then true else ipv4_like host
  end.

Definition normalize_text := Census.normalize_text.

Section SetOrder.

(** The order in which [for cat in cats] goes through the set [cats] built
    from a list: some enumeration of its elements. *)
Variable set_iter : list string -> list string.

(** [for d in (raw.get(cat, {}), norm.get(cat, {}))], each with the loop
    [merged[cat][phrase] = merged[cat].get(phrase, 0) + cnt], which is the
    one [Images.add_counts] follows. *)
Fixpoint merge_cats (cats : list string) (raw norm : dict string (dict string nat))
         (merged : dict string (dict string nat)) : dict string (dict string nat) :=
  match cats with
  | [] => merged
  | cat :: rest =>
      let inner := Images.add_counts (get_default raw cat []) [] in
      let inner := Images.add_counts (get_default norm cat []) inner in
      merge_cats rest raw norm (set merged cat inner)
  end.

Definition cue_totals (text : option string) : result (dict string nat) :=
  raw <- Cues.detect_cues (Some (or_empty text)) ;;
  norm <- Cues.detect_cues (Some (normalize_text (Some (or_empty text)))) ;;
  let cats := set_iter (keys raw ++ keys norm) in
  Ok (Cues.summarize_counts (merge_cats cats raw norm [])).

End SetOrder.

Definition normalise_url (u : option string) : string :=
  let u := strip (or_empty u) in
  if negb (truthy u) then ""
  else if negb (startswith "http://" (lower u) || startswith "https://" (lower u)
                || startswith "www." (lower u))
       then "http://" ++ u
       else u.

(** The search for the column named [url] in [read_urls_from_phishtank]. *)
Fixpoint find_url_field (fieldnames : list string) : option string :=
  match fieldnames with
  | [] => None
  | fn :: rest =>
      if String.eqb (lower (strip fn)) "url" then Some fn
      else find_url_field rest
  end.

Fixpoint read_rows (url_field : string) (rows : list Census.row) (out : list string)
  : list string :=
  match rows with
  | [] => out
  | row :: rest =>
      let u := normalise_url (get_default row url_field (Some "")) in
      read_rows url_field rest (if truthy u then (out ++ [u])%list else out)
  end.

(** [read_urls_from_phishtank] on a file that exists, given its field names
    and its rows. *)
Definition read_urls_from_phishtank (fieldnames : option (list string))
           (rows : list Census.row) : list string :=
  match find_url_field (match fieldnames with Some f => f | None => [] end) with
  | None => []
  | Some url_field =>
      if truthy url_field then read_rows url_field rows [] else []
  end.

(** The parts of [urlparse(u)] the program reads. *)
Record parsed : Type := {
  scheme : string;
  hostname : option string;
  path : string;
  query : string
}.

Section Urls.

(** [urllib.parse.urlparse], which raises [ValueError] on some inputs. *)
Variable urlparse : string -> result parsed.

(** [random.seed(seed); random.shuffle(urls)] *)
Variable shuffle : Z -> list string -> list string.

Fixpoint dedupe_loop (urls : list string) (seen out : list string)
  : result (list string) :=
  match urls with
  | [] => Ok out
  | u :: rest =>
      p <- urlparse u ;;
      let ap := apex_from_host (Some (or_empty (hostname p))) in
      if elem ap seen then dedupe_loop rest seen out
      else dedupe_loop rest (seen ++ [ap])%list (out ++ [u])%list
  end.

Definition dedupe_urls (urls : list string) (mode : string)
  : result (list string) :=
  if negb (String.eqb (lower mode) "apex") then Ok urls
  else dedupe_loop urls [] [].

Definition sample_urls (urls : list string) (limit : Z) (random_pick : bool)
           (seed : Z) : list string :=
  if negb (limit =? 0)%Z && (limit <? Z.of_nat (List.length urls))%Z then
    let urls := if random_pick then shuffle seed urls else urls in
    slice_to limit urls
  else urls.

(** The hint [mask_url_for_output] keeps of a path: its first segment. *)
Definition first_segment (p_path : string) : string :=
  let path := strip p_path in
  if truthy path && negb (String.eqb path "/") then
    match split "/" path with
    | _ :: seg1 :: _ => if truthy seg1 then "/" ++ seg1 else "/"
    | _ => "/"
    end
  else "/".

Definition mask_url_for_output (u : string) : string :=
  match urlparse u with
  | Ok p => apex_from_host (Some (or_empty (hostname p))) ++ ":" ++ first_segment (path p)
  | Raise _ =>
      match urlparse u with
      | Ok p => apex_from_host (Some (or_empty (hostname p)))
      | Raise _ => "[redacted]"
      end
  end.

End Urls.

End Urlscan.

(** ** [src/nazario_census.py]: the tables [main] writes *)

Module CensusReport.
Import Chars PyStr Py Census PyText.

(** [sorted(set(list(per_year_raw.keys()) + list(per_year_unique.keys())))] *)
Definition years_sorted (s : snapshot) : list string :=
  sorted_set (keys (per_year_raw (final s)) ++ keys (per_year_unique s)).

(** A line of [per_year_counts.csv]. *)
Record year_line : Type := {
  year : string;
  raw_y : nat;
  uniq_y : nat;
  dup_y : Z
}.

Definition per_year_counts (s : snapshot) : list year_line :=
  map (fun y =>
         let raw_y := get_default (per_year_raw (final s)) y 0 in
         let uniq_y := get_default (per_year_unique s) y 0 in
         {| year := y; raw_y := raw_y; uniq_y := uniq_y;
            dup_y := Z.max 0 (Z.of_nat raw_y - Z.of_nat uniq_y) |})
      (years_sorted s).

(** [Counter.most_common(n)]: the [n] largest counts first, equal counts in
    the order of insertion. *)
Fixpoint insert_by_count (x : signature * nat) (l : list (signature * nat))
  : list (signature * nat) :=
  match l with
  | [] => [x]
  | y :: r => if (snd y <=? snd x)%nat then x :: l else y :: insert_by_count x r
  end.

Definition most_common (n : nat) (counter : dict signature nat)
  : list (signature * nat) :=
  firstn n (fold_right insert_by_count [] counter).

(** [top_dups] *)
Definition top_dups (c : census) : list (signature * nat) :=
  filter (fun item => (2 <=? snd item)%nat)
         (most_common TOP_DUP_CLUSTERS (sig_counter c)).

End CensusReport.

(** ** Definitions the further properties are stated with *)

Module Props.
Import Chars PyStr PyRe Py Patterns PyText.

(** The labels kept by [Urlscan.apex_from_host], for a host already
    lower-cased. *)
Definition apex_of (t : string) : string :=
  if (2 <=? List.length (split "." t))%nat
  then String.concat "." (last_n 2 (split "." t)) else t.

(** One to three decimal digits. *)
Definition is_octet (a : string) : bool :=
  (1 <=? length a)%nat && (length a <=? 3)%nat && forallb is_digit a.

(** Four parts separated by dots. *)
Definition dotted_quad (a b c d : string) : string :=
  a ++ "." ++ b ++ "." ++ c ++ "." ++ d.

(** The text does not start with a character of the class [p]. *)
Definition not_at_head (p : ascii -> bool) (s : string) : bool :=
  match s with
  | EmptyString => true
  | String c _ => negb (p c)
  end.

(** The URL starts with [http://], [https://] or [www.], up to case. *)
Definition has_scheme_or_www (u : string) : bool :=
  startswith "http://" (lower u) || startswith "https://" (lower u)
  || startswith "www." (lower u).

(** The key [Urlscan.dedupe_urls] compares URLs by: the apex domain of the
    host name [urlparse] finds. *)
Definition apex_key (urlparse : string -> result Urlscan.parsed) (u : string)
  : string :=
  match urlparse u with
  | Ok p => Urlscan.apex_from_host (Some (or_empty (Urlscan.hostname p)))
  | Raise _ => EmptyString
  end.

(** [l1] is [l2] with some elements left out. *)
Inductive subseq {A : Type} : list A -> list A -> Prop :=
| subseq_nil : subseq [] []
| subseq_keep (x : A) (l1 l2 : list A) : subseq l1 l2 -> subseq (x :: l1) (x :: l2)
| subseq_drop (x : A) (l1 l2 : list A) : subseq l1 l2 -> subseq l1 (x :: l2).

(** The placeholder [NazarioScan.redact_email_addresses] writes. *)
Definition REDACTED : string := "[redacted-email]".

(** The redaction from a position of the text, [skip] characters of a match
    still to pass. *)
Definition redact_from (s : string) (skip : nat) : string :=
  sub_from NazarioScan.EMAIL_RX (fun _ => REDACTED) None s skip.

(** The text has no opening bracket. *)
Definition bracket_free (s : string) : bool :=
  forallb (fun c => negb (Ascii.eqb c "[")) s.

(** The name a column of a CSV file is recognised by. *)
Definition column_key (h : string) : string := lower (strip h).

Definition is_subject_col (h : string) : bool :=
  elem (column_key h) NazarioScan.LIKELY_SUBJECT_KEYS.
Definition is_body_col (h : string) : bool :=
  elem (column_key h) NazarioScan.LIKELY_BODY_KEYS.
Definition is_html_col (h : string) : bool :=
  elem (column_key h) NazarioScan.LIKELY_HTML_KEYS.
Definition is_metadata_col (h : string) : bool :=
  elem (column_key h) NazarioScan.METADATA_KEYS.

(** The entries [NazarioScan.scan_csv] makes of the rows of one attempt. *)
Definition row_entries (decode_mime_words : string -> string) (path : string)
           (a : NazarioScan.reading) : list NazarioScan.entry :=
  fst (NazarioScan.scan_rows decode_mime_words path
         (NazarioScan.pick_columns
            (Some match NazarioScan.fieldnames a with Some h => h | None => [] end))
         1 (NazarioScan.rows a) []).

Definition is_scanned (e : NazarioScan.entry) : bool :=
  match e with NazarioScan.Scanned _ _ _ _ _ => true | _ => false end.

(** The field of a written line under a column of the header. *)
Definition field (headers line : list string) (col : string) : option string :=
  get (combine headers line) col.

(** The text has neither a line feed nor a carriage return. *)
Definition one_line (s : string) : bool :=
  negb (contains "010" s) && negb (contains "013" s).

(** The columns of the summary of [src/nazario.py], without [error]. *)
Definition NAZARIO_COLUMNS : list string :=
  (["path"; "bytes"; "text_len"; "subject"; "from"; "date"]
   ++ NazarioScan.CATEGORY_COLUMNS
   ++ ["all_caps_words"; "exclamations"; "money_symbols"; "links"])%list.

(** The columns of the summary of [src/images.py] when its first row is a
    scanned image. *)
Definition IMAGES_COLUMNS : list string :=
  (["path"; "text_len"] ++ ImagesScan.CATEGORY_COLUMNS
   ++ ["all_caps_words"; "exclamations"; "money_symbols"; "links"])%list.

(** The text starts with [>]. *)
Definition starts_gt (s : string) : bool :=
  match s with
  | String c _ => Ascii.eqb c ">"
  | EmptyString => false
  end.

(** Every [<] of the text is followed at once by [>] or by no [>] at all,
    so that the pattern of a tag matches nowhere. *)
Fixpoint tagless (s : string) : bool :=
  match s with
  | EmptyString => true
  | String c r =>
      (negb (Ascii.eqb c "<") || starts_gt r || negb (contains ">" r))
      && tagless r
  end.

(** The blanks of the text are single spaces, none of them at the start
    when [after_space] is set. *)
Fixpoint spaced (after_space : bool) (s : string) : bool :=
  match s with
  | EmptyString => true
  | String c r =>
      if is_space c then Ascii.eqb c " " && negb after_space && spaced true r
      else spaced false r
  end.

(** The field of a row under a key is not blank. *)
Definition filled (r : Census.row) (k : string) : bool :=
  truthy (strip (Census.safe_get r k)).

(** *** The census, row by row *)

(** The email-like rows of a corpus in reading order, each with the name
    of its file. *)
Definition entries (files : list Census.csv_file) : list (string * Census.row) :=
  flat_map (fun p => map (pair (Census.name p))
                         (filter Census.is_email_like (Census.rows p)))
           files.

Definition sig_of (e : string * Census.row) : Census.signature :=
  Census.build_signature (snd e).

(** The year the resolver gives to a row of a file, empty when it finds
    none. *)
Definition year_of (e : string * Census.row) : string :=
  match Spec.first_year (Census.safe_get (snd e) "date") with
  | Some y => y
  | None => or_empty (Spec.first_year (fst e))
  end.

(** The year as a number. *)
Definition year_number (y : string) : Z := Census.decimal 0 y.

Definition with_sig (sig : Census.signature) (es : list (string * Census.row))
  : list (string * Census.row) :=
  filter (fun e => keqb (sig_of e) sig) es.

Definition with_year (y : string) (es : list (string * Census.row))
  : list (string * Census.row) :=
  filter (fun e => String.eqb (year_of e) y) es.

(** The example kept of a row: the name of its file and its subject, cut
    to 200 characters. *)
Definition example_of (e : string * Census.row) : string * string :=
  (fst e, take 200 (Census.first_present (snd e) Census.LIKELY_SUBJECT_KEYS)).

(** Two states of the census with the same tallies of email-like rows. *)
Definition same_tallies (c c' : Census.census) : Prop :=
  Census.sig_counter c' = Census.sig_counter c
  /\ Census.sig_examples c' = Census.sig_examples c
  /\ Census.sig_first_year c' = Census.sig_first_year c
  /\ Census.per_year_raw c' = Census.per_year_raw c
  /\ Census.email_like_all c' = Census.email_like_all c.

(** [sig_counter] counts the email-like rows of each signature. *)
Definition counts_ok (es : list (string * Census.row)) (c : Census.census) : Prop :=
  forall sig,
    get_default (Census.sig_counter c) sig 0 = List.length (with_sig sig es).

(** [sig_examples] keeps the first three rows of each signature. *)
Definition examples_ok (es : list (string * Census.row)) (c : Census.census) : Prop :=
  forall sig,
    get_default (Census.sig_examples c) sig []
    = firstn Census.MAX_EXAMPLES_PER_SIG (map example_of (with_sig sig es)).

(** [per_year_raw] counts the rows of each year, and has no entry for a
    year without row. *)
Definition raw_ok (es : list (string * Census.row)) (c : Census.census) : Prop :=
  forall y,
    get (Census.per_year_raw c) y
    = if truthy y && (0 <? List.length (with_year y es))%nat
      then Some (List.length (with_year y es)) else None.

(** The counts of [sig_counter] are positive and add up to the number of
    email-like rows. *)
Definition sizes_ok (es : list (string * Census.row)) (c : Census.census) : Prop :=
  list_sum (map snd (Census.sig_counter c)) = List.length es
  /\ forall sig n, In (sig, n) (Census.sig_counter c) -> 1 <= n.

(** Number of signatures whose earliest year is [y]. *)
Definition first_seen_in (y : string) (first_year : dict Census.signature string)
  : nat :=
  List.length (filter (fun kv => String.eqb (snd kv) y) first_year).

(** No year has more signatures first seen in it than rows. *)
Definition unique_ok (es : list (string * Census.row)) (c : Census.census) : Prop :=
  forall y,
    first_seen_in y (Census.sig_first_year c)
    <= get_default (Census.per_year_raw c) y 0.

(** The signatures of a list, each once, in the order [seen.add] meets
    them. *)
Definition distinct_sigs (l : list Census.signature) : list Census.signature :=
  fold_left Census.set_add l [].

(** The summary [main] keeps of a file. *)
Definition summary_of (p : Census.csv_file) : Census.file_summary :=
  {| Census.file := Census.path p;
     Census.rows_total := List.length (Census.rows p);
     Census.email_like_rows :=
       List.length (filter Census.is_email_like (Census.rows p));
     Census.unique_signatures_in_file :=
       List.length
         (distinct_sigs
            (map Census.build_signature
                 (filter Census.is_email_like (Census.rows p)))) |}.

(** Four decimal digits. *)
Definition year_shaped (y : string) : Prop :=
  length y = 4 /\ forallb is_digit y = true.

(** The strings of a list increase strictly for [<] on [str], which
    compares code point by code point. *)
Definition years_ascend (l : list string) : Prop :=
  Sorted.StronglySorted (fun a b => String.ltb a b = true) l.

(** [sig_first_year] holds, for each signature with a dated row, a year of
    its rows than which no year of its rows is smaller for [<] on [str]. *)
Definition first_least (es : list (string * Census.row)) (c : Census.census) : Prop :=
  forall sig,
    match get (Census.sig_first_year c) sig with
    | None => forall e, In e es -> sig_of e = sig -> year_of e = EmptyString
    | Some y0 =>
        (exists e, In e es /\ sig_of e = sig /\ year_of e = y0 /\ truthy y0 = true)
        /\ forall e, In e es -> sig_of e = sig -> truthy (year_of e) = true ->
                     String.ltb (year_of e) y0 = false
    end.

(** The counts of a list of clusters do not increase. *)
Definition by_count_desc (l : list (Census.signature * nat)) : Prop :=
  Sorted.StronglySorted (fun a b => snd b <= snd a) l.

End Props.

(** * Properties *)

(** ** Characters and strings *)

Module CharFacts.
Import Chars.

Ltac by_cases c := destruct c as [[] [] [] [] [] [] [] []]; vm_compute; auto.

Lemma lower_idem c : lower (lower c) = lower c.
Proof. by_cases c. Qed.

Lemma is_word_lower c : is_word (lower c) = is_word c.
Proof. by_cases c. Qed.

Lemma is_space_lower c : is_space (lower c) = is_space c.
Proof. by_cases c. Qed.

Lemma az09_lower c : is_az09 c = true -> lower c = c.
Proof. by_cases c; discriminate. Qed.

Lemma az09_not_space c : is_az09 c = true -> is_space c = false.
Proof. by_cases c. Qed.

Lemma special_not_alnum c : PyRe.is_special c = true -> is_ascii_alnum c = false.
Proof. by_cases c. Qed.

Lemma meta_special c : PyRe.is_special c = false -> PyRe.is_meta c = false.
Proof. by_cases c. Qed.

Lemma special_backslash c : PyRe.is_special c = false -> Ascii.eqb c "\" = false.
Proof. by_cases c. Qed.

Lemma special_not_b c : PyRe.is_special c = true -> Ascii.eqb c "b" = false.
Proof. by_cases c. Qed.

Lemma digit_isdigit c : is_digit c = true -> py_isdigit c = true.
Proof. by_cases c. Qed.

Lemma digit_word c : is_digit c = true -> is_word c = true.
Proof. by_cases c. Qed.

Lemma ci_eqb_lower a c : ci_eqb a (lower c) = ci_eqb a c.
Proof. unfold ci_eqb. now rewrite lower_idem. Qed.

End CharFacts.

(** ** The pattern compiler and the scanning functions *)

Module ReFacts.
Import Chars PyStr PyRe Py Patterns Spec CharFacts.

Lemma take_cons n c r : take (S n) (String c r) = String c (take n r).
Proof. reflexivity. Qed.

Lemma take_zero s : take 0 s = EmptyString.
Proof. destruct s; reflexivity. Qed.

(** Escaping then parsing gives back the characters as literals. *)
Lemma parse_escape (p tail : string) (atoms_tail : list atom) :
  parse tail = Some atoms_tail ->
  parse (escape p ++ tail) =
    Some (map Lit (list_ascii_of_string p) ++ atoms_tail)%list.
Proof.
  intros Htail. induction p as [|c r IH]; simpl; [exact Htail|].
  destruct (is_special c) eqn:Hs; simpl.
  - rewrite (special_not_b c Hs), (special_not_alnum c Hs), IH. reflexivity.
  - rewrite (special_backslash c Hs), (meta_special c Hs), IH. reflexivity.
Qed.

Lemma compile_phrase_literal (phrase : string) :
  Cues.compile_phrase phrase = Ok (literal_regex phrase).
Proof.
  unfold Cues.compile_phrase, compile, Cues.pattern_text.
  change ("\b" ++ escape phrase ++ "\b")
    with (String "\" (String "b" (escape phrase ++ "\b"))).
  cbn [parse Ascii.eqb Bool.eqb].
  rewrite (parse_escape phrase "\b" [Boundary]) by reflexivity.
  reflexivity.
Qed.

(** The literals of a phrase followed by the closing boundary. *)
Lemma match_literals (p : string) :
  forall prev s,
    match_atoms true (map Lit (list_ascii_of_string p) ++ [Boundary])%list prev s =
    if ci_startswith p s
       && word_boundary (last_or prev (take (length p) s)) (drop (length p) s)
    then Some (length p) else None.
Proof.
  induction p as [|a p IH]; intros prev s.
  - cbn [list_ascii_of_string map app match_atoms ci_startswith length drop].
    rewrite take_zero. cbn [last_or andb].
    destruct s; simpl; destruct (word_boundary _ _); reflexivity.
  - destruct s as [|c r]; [reflexivity|].
    cbn [list_ascii_of_string map app match_atoms ci_startswith length drop].
    rewrite take_cons. cbn [last_or].
    destruct (ci_eqb a c); [|reflexivity].
    rewrite IH. cbn [andb].
    destruct (ci_startswith p r && _); reflexivity.
Qed.

Lemma match_literal (phrase : string) (prev : option ascii) (s : string) :
  regex_matcher (literal_regex phrase) prev s =
  if occurs_at phrase prev s then Some (length phrase) else None.
Proof.
  unfold regex_matcher, literal_regex, literal_atoms, occurs_at; simpl.
  destruct (word_boundary prev s); [|reflexivity].
  rewrite match_literals. reflexivity.
Qed.

Lemma count_from_lower (m : matcher) :
  case_blind m ->
  forall s prev skip,
    count_from m (option_map Chars.lower prev) (lower s) skip
    = count_from m prev s skip.
Proof.
  intros Hm. induction s as [|c r IH]; intros prev skip.
  - destruct skip; simpl; [|reflexivity].
    change EmptyString with (lower EmptyString) at 1. now rewrite Hm.
  - destruct skip as [|k].
    + cbn [lower count_from].
      change (String (Chars.lower c) (lower r)) with (lower (String c r)).
      rewrite Hm.
      change (Some (Chars.lower c)) with (option_map Chars.lower (Some c)).
      destruct (m prev (String c r)) as [[|k]|]; now rewrite IH.
    + cbn [lower count_from].
      change (Some (Chars.lower c)) with (option_map Chars.lower (Some c)).
      apply IH.
Qed.

Lemma word_boundary_lower prev s :
  word_boundary (option_map Chars.lower prev) (lower s) = word_boundary prev s.
Proof.
  unfold word_boundary. f_equal.
  - destruct prev; simpl; [apply is_word_lower|reflexivity].
  - destruct s; simpl; [reflexivity|apply is_word_lower].
Qed.

Lemma match_atoms_case_blind (p : list atom) : case_blind (match_atoms true p).
Proof.
  unfold case_blind. induction p as [|a p IH]; intros prev s; [reflexivity|].
  destruct a as [|a]; cbn [match_atoms].
  - rewrite word_boundary_lower, IH. reflexivity.
  - destruct s as [|c r]; [reflexivity|]. cbn [lower].
    rewrite ci_eqb_lower.
    change (Some (Chars.lower c)) with (option_map Chars.lower (Some c)).
    now rewrite IH.
Qed.

Lemma finditer_count_lower (phrase text : string) :
  finditer_count (regex_matcher (literal_regex phrase)) (lower text)
  = finditer_count (regex_matcher (literal_regex phrase)) text.
Proof.
  unfold finditer_count.
  change (@None ascii) with (option_map Chars.lower None) at 1.
  apply count_from_lower. apply match_atoms_case_blind.
Qed.

End ReFacts.

(** ** The text normaliser *)

Module NormFacts.
Import Chars PyStr PyRe Py Patterns Spec CharFacts.

(** [re.sub] of a one-or-more class pattern by a space squeezes the runs
    of the class. *)
Lemma sub_from_plus (p : ascii -> bool) (s : string) :
  forall prev,
    sub_from (m_plus p) (fun _ => " ") prev s (run_len p s) = squeeze p true s
    /\ sub_from (m_plus p) (fun _ => " ") prev s 0 = squeeze p false s.
Proof.
  induction s as [|c r IH]; intros prev; [split; reflexivity|].
  destruct (IH (Some c)) as [IHrun IH0].
  assert (H0 : sub_from (m_plus p) (fun _ => " ") prev (String c r) 0
               = squeeze p false (String c r)).
  { cbn [sub_from squeeze]. unfold m_plus at 1. cbn [run_len].
    destruct (p c).
    - rewrite IHrun. reflexivity.
    - rewrite IH0. reflexivity. }
  split; [|exact H0].
  cbn [run_len]. destruct (p c) eqn:Hc.
  - cbn [sub_from squeeze]. rewrite Hc. exact IHrun.
  - rewrite H0. cbn [squeeze]. rewrite Hc. reflexivity.
Qed.

Lemma sub_plus_squeeze (p : ascii -> bool) (s : string) :
  sub (m_plus p) " " s = squeeze p false s.
Proof. apply (sub_from_plus p s None). Qed.

Lemma squeeze_tidy (s : string) :
  forall b, tidy b (squeeze not_az09 b s) = true.
Proof.
  induction s as [|c r IH]; intros b; [reflexivity|].
  cbn [squeeze]. unfold not_az09 at 1.
  destruct (is_az09 c) eqn:Hc; cbn [negb].
  - cbn [tidy]. rewrite Hc. apply IH.
  - destruct b; [apply IH|]. cbn [tidy]. rewrite IH. reflexivity.
Qed.

Lemma tidy_weaken (s : string) : tidy true s = true -> tidy false s = true.
Proof.
  destruct s as [|c r]; [reflexivity|]. cbn [tidy].
  destruct (is_az09 c); [auto|]. rewrite andb_false_r. discriminate.
Qed.

(** On a tidy text the three passes of the normaliser change nothing. *)
Lemma tidy_squeeze_alnum (s : string) :
  forall b, tidy b s = true -> squeeze not_az09 b s = s.
Proof.
  induction s as [|c r IH]; intros b H; [reflexivity|].
  cbn [tidy] in H. cbn [squeeze]. unfold not_az09 at 1.
  destruct (is_az09 c) eqn:Hc; cbn [negb].
  - now rewrite IH.
  - apply andb_prop in H. destruct H as [H Hr].
    apply andb_prop in H. destruct H as [Hsp Hb].
    apply Ascii.eqb_eq in Hsp. subst c.
    destruct b; [discriminate|]. now rewrite IH.
Qed.

Lemma tidy_squeeze_space (s : string) :
  forall b, tidy b s = true -> squeeze is_space b s = s.
Proof.
  induction s as [|c r IH]; intros b H; [reflexivity|].
  cbn [tidy] in H. cbn [squeeze].
  destruct (is_az09 c) eqn:Hc.
  - rewrite (az09_not_space c Hc). now rewrite IH.
  - apply andb_prop in H. destruct H as [H Hr].
    apply andb_prop in H. destruct H as [Hsp Hb].
    apply Ascii.eqb_eq in Hsp. subst c.
    destruct b; [discriminate|].
    change (is_space " ") with true. cbn iota. now rewrite IH.
Qed.

Lemma tidy_lower (s : string) : forall b, tidy b s = true -> lower s = s.
Proof.
  induction s as [|c r IH]; intros b H; [reflexivity|].
  cbn [tidy] in H. cbn [lower].
  destruct (is_az09 c) eqn:Hc.
  - rewrite (az09_lower c Hc). f_equal. now apply (IH false).
  - apply andb_prop in H. destruct H as [H Hr].
    apply andb_prop in H. destruct H as [Hsp Hb].
    apply Ascii.eqb_eq in Hsp. subst c.
    change (Chars.lower " ") with " "%char. f_equal. now apply (IH true).
Qed.

(** *** [strip] *)

Lemma rstrip_cons_nonspace c r :
  is_space c = false -> rstrip (String c r) = String c (rstrip r).
Proof. intros H. cbn [rstrip]. rewrite H. destruct (rstrip r); reflexivity. Qed.

Lemma rstrip_idem (s : string) : rstrip (rstrip s) = rstrip s.
Proof.
  induction s as [|c r IH]; [reflexivity|]. cbn [rstrip].
  destruct (rstrip r) as [|d r'] eqn:Hr.
  - destruct (is_space c) eqn:Hc; [reflexivity|].
    cbn [rstrip]. now rewrite Hc.
  - cbn [rstrip]. cbn [rstrip] in IH.
    destruct (rstrip r') as [|e r'']; destruct (is_space d);
      try discriminate; now rewrite IH.
Qed.

Lemma rstrip_lstrip_fixed (s : string) :
  rstrip s = s -> rstrip (lstrip s) = lstrip s.
Proof.
  induction s as [|c r IH]; intros H; [reflexivity|].
  cbn [lstrip]. destruct (is_space c) eqn:Hc; [|exact H].
  apply IH. cbn [rstrip] in H. rewrite Hc in H.
  destruct (rstrip r); [discriminate|]. now injection H.
Qed.

Lemma lstrip_rstrip_comm (s : string) : lstrip (rstrip s) = rstrip (lstrip s).
Proof.
  induction s as [|c r IH]; [reflexivity|].
  cbn [lstrip]. destruct (is_space c) eqn:Hc.
  - rewrite <- IH. cbn [rstrip]. rewrite Hc.
    destruct (rstrip r) as [|d r']; [reflexivity|].
    cbn [lstrip]. now rewrite Hc.
  - rewrite (rstrip_cons_nonspace c r Hc). cbn [lstrip]. now rewrite Hc.
Qed.

Lemma strip_idem (s : string) : strip (strip s) = strip s.
Proof.
  unfold strip.
  rewrite (rstrip_lstrip_fixed (rstrip s) (rstrip_idem s)).
  generalize (rstrip s). intros u.
  induction u as [|c r IH]; [reflexivity|]. cbn [lstrip].
  destruct (is_space c) eqn:Hc; [exact IH|]. cbn [lstrip]. now rewrite Hc.
Qed.

Lemma tidy_rstrip (s : string) : forall b, tidy b s = true -> tidy b (rstrip s) = true.
Proof.
  induction s as [|c r IH]; intros b H; [reflexivity|].
  cbn [tidy] in H. cbn [rstrip].
  destruct (is_az09 c) eqn:Hc.
  - specialize (IH false H). rewrite (az09_not_space c Hc).
    destruct (rstrip r); cbn [tidy]; rewrite Hc; [reflexivity|exact IH].
  - apply andb_prop in H. destruct H as [H Hr].
    apply andb_prop in H. destruct H as [Hsp Hb].
    specialize (IH true Hr).
    destruct (rstrip r).
    + destruct (is_space c); [reflexivity|]. cbn [tidy]. rewrite Hc, Hsp, Hb.
      reflexivity.
    + cbn [tidy]. rewrite Hc, Hsp, Hb. exact IH.
Qed.

Lemma tidy_lstrip (s : string) : forall b, tidy b s = true -> tidy true (lstrip s) = true.
Proof.
  induction s as [|c r IH]; intros b H; [reflexivity|].
  cbn [tidy] in H. cbn [lstrip].
  destruct (is_az09 c) eqn:Hc.
  - rewrite (az09_not_space c Hc). cbn [tidy]. now rewrite Hc.
  - apply andb_prop in H. destruct H as [H Hr].
    apply andb_prop in H. destruct H as [Hsp Hb].
    apply Ascii.eqb_eq in Hsp. subst c.
    change (is_space " ") with true. cbn iota. now apply (IH true).
Qed.

Lemma tidy_strip (s : string) : forall b, tidy b s = true -> tidy true (strip s) = true.
Proof. intros b H. unfold strip. apply (tidy_lstrip _ b). now apply tidy_rstrip. Qed.

(** The normaliser is: lower-case, squeeze the runs outside [[a-z0-9]],
    trim. *)
Lemma normalize_text_squeeze (x : string) :
  Census.normalize_text (Some x) = strip (squeeze not_az09 false (lower x)).
Proof.
  unfold Census.normalize_text, sub_spaces, sub_non_alnum; cbn [or_empty].
  rewrite !sub_plus_squeeze.
  now rewrite (tidy_squeeze_space _ false (squeeze_tidy (lower x) false)).
Qed.

Lemma normalize_text_tidy (x : string) :
  tidy true (Census.normalize_text (Some x)) = true.
Proof.
  rewrite normalize_text_squeeze. apply (tidy_strip _ false), squeeze_tidy.
Qed.

Lemma normalize_text_fixed (y : string) :
  tidy true y = true -> strip y = y -> Census.normalize_text (Some y) = y.
Proof.
  intros Ht Hs. rewrite normalize_text_squeeze.
  rewrite (tidy_lower y true Ht).
  now rewrite (tidy_squeeze_alnum y false (tidy_weaken y Ht)).
Qed.

Lemma normalize_text_idem (x : string) :
  Census.normalize_text (Some (Census.normalize_text (Some x)))
  = Census.normalize_text (Some x).
Proof.
  apply normalize_text_fixed; [apply normalize_text_tidy|].
  rewrite normalize_text_squeeze. apply strip_idem.
Qed.

(** The three copies of the normaliser agree. *)
Lemma normalize_text_nazario (x : option string) :
  Nazario.normalize_text x = Census.normalize_text x.
Proof. destruct x as [[|c r]|]; reflexivity. Qed.

Lemma normalize_text_images (x : option string) :
  Images.normalize_text x = Census.normalize_text x.
Proof. destruct x as [[|c r]|]; reflexivity. Qed.

(** *** The normaliser computes the tokens separated by single spaces *)

Lemma not_az09_of c b : is_az09 c = b -> not_az09 c = negb b.
Proof. unfold not_az09. now intros ->. Qed.

Lemma lstrip_squeeze (t : string) :
  forall b, lstrip (squeeze not_az09 b t) = squeeze not_az09 true t.
Proof.
  induction t as [|c r IH]; intros b; [reflexivity|].
  cbn [squeeze].
  destruct (is_az09 c) eqn:Hc; rewrite (not_az09_of c _ Hc); cbn [negb]; cbv iota.
  - cbn [lstrip]. now rewrite (az09_not_space c Hc).
  - destruct b; [apply IH|]. cbn [lstrip].
    change (is_space " ") with true. cbv iota. apply IH.
Qed.

Lemma strip_squeeze (t : string) :
  strip (squeeze not_az09 false t) = rstrip (squeeze not_az09 true t).
Proof. unfold strip. now rewrite lstrip_rstrip_comm, lstrip_squeeze. Qed.

Lemma tokens_nonempty (t : string) : Forall (fun w => w <> EmptyString) (tokens t).
Proof.
  induction t as [|c r IH]; [constructor|]. cbn [tokens].
  destruct (is_az09 c); [|exact IH].
  destruct (starts_word r).
  - destruct (tokens r); cbn [cons_head]; constructor; try discriminate.
    + constructor.
    + now inversion IH.
  - constructor; [discriminate|exact IH].
Qed.

Lemma starts_word_tokens (r : string) : starts_word r = true -> tokens r <> [].
Proof.
  destruct r as [|d r']; [discriminate|]. cbn [starts_word tokens].
  intros ->. destruct (starts_word r'); [|discriminate].
  destruct (tokens r'); discriminate.
Qed.

Lemma unwords_nonempty (w : string) (ws : list string) :
  w <> EmptyString -> unwords (w :: ws) <> EmptyString.
Proof.
  intros Hw. unfold unwords. cbn [concat].
  destruct w; [congruence|]. destruct ws; discriminate.
Qed.

Lemma rstrip_squeeze_tokens (t : string) :
  rstrip (squeeze not_az09 true t) = unwords (tokens t).
Proof.
  induction t as [|c r IH]; [reflexivity|].
  cbn [squeeze tokens].
  destruct (is_az09 c) eqn:Hc; rewrite (not_az09_of c _ Hc); cbn [negb];
    cbv iota; [|exact IH].
  rewrite (rstrip_cons_nonspace _ _ (az09_not_space c Hc)).
  destruct (starts_word r) eqn:Hr.
  - pose proof (starts_word_tokens r Hr) as Hne.
    destruct r as [|d r']; [discriminate|]. cbn [starts_word] in Hr.
    assert (Hsq : squeeze not_az09 false (String d r')
                  = squeeze not_az09 true (String d r')).
    { cbn [squeeze]. now rewrite (not_az09_of d _ Hr). }
    rewrite Hsq, IH.
    destruct (tokens (String d r')) as [|w ws]; [congruence|].
    unfold unwords. cbn [cons_head concat]. destruct ws; reflexivity.
  - destruct r as [|d r']; [reflexivity|]. cbn [starts_word] in Hr.
    assert (Hsq : squeeze not_az09 false (String d r')
                  = String " " (squeeze not_az09 true (String d r'))).
    { cbn [squeeze]. now rewrite (not_az09_of d _ Hr). }
    rewrite Hsq. cbn [rstrip]. rewrite IH.
    change (is_space " ") with true. cbv iota.
    pose proof (tokens_nonempty (String d r')) as Hall.
    destruct (tokens (String d r')) as [|w ws]; [reflexivity|].
    inversion Hall as [|? ? Hw _]; subst.
    pose proof (unwords_nonempty w ws Hw) as Hu.
    destruct (unwords (w :: ws)) eqn:Eu; [congruence|].
    unfold unwords in *. cbn [concat]. cbn [concat] in Eu. rewrite Eu.
    reflexivity.
Qed.

(** The program's normaliser refines the normaliser of the
    specification. *)
Lemma normalize_text_spec (x : string) :
  Census.normalize_text (Some x) = Spec.normalize x.
Proof.
  rewrite normalize_text_squeeze, strip_squeeze. apply rstrip_squeeze_tokens.
Qed.

End NormFacts.

(** ** Dicts *)

Module DictFacts.
Import Py.

Section Dict.
Context {K V : Type} `{KeyEq K}.

Lemma keqb_refl (k : K) : keqb k k = true.
Proof. destruct (keqb_spec k k); congruence. Qed.

Lemma keqb_neq (k k' : K) : k <> k' -> keqb k k' = false.
Proof. intros Hn. destruct (keqb_spec k k'); congruence. Qed.

Lemma get_set_same (d : dict K V) k v : get (set d k v) k = Some v.
Proof.
  induction d as [|[k' v'] r IH]; cbn [set get].
  - now rewrite keqb_refl.
  - destruct (keqb_spec k k') as [->|Hn]; cbn [get].
    + now rewrite keqb_refl.
    + now rewrite (keqb_neq _ _ Hn).
Qed.

Lemma get_set_other (d : dict K V) k k0 v :
  k0 <> k -> get (set d k v) k0 = get d k0.
Proof.
  intros Hn. induction d as [|[k' v'] r IH]; cbn [set get].
  - now rewrite (keqb_neq _ _ Hn).
  - destruct (keqb_spec k k') as [->|Hk]; cbn [get].
    + now rewrite (keqb_neq _ _ Hn).
    + now rewrite IH.
Qed.

Lemma get_none (d : dict K V) k : get d k = None <-> ~ In k (keys d).
Proof.
  induction d as [|[k' v'] r IH]; cbn [get keys map fst In]; [tauto|].
  destruct (keqb_spec k k') as [->|Hn].
  - split; [discriminate|]. intros Hx. exfalso. apply Hx. now left.
  - unfold keys in IH. rewrite IH. split.
    + intros Hx [Heq|Hin]; [congruence|tauto].
    + intros Hx Hin. apply Hx. now right.
Qed.

Lemma get_some_in (d : dict K V) k v : get d k = Some v -> In (k, v) d.
Proof.
  induction d as [|[k' v'] r IH]; cbn [get]; [discriminate|].
  destruct (keqb_spec k k') as [->|Hn].
  - intros [= ->]. now left.
  - intros Hg. right. now apply IH.
Qed.

Lemma set_absent (d : dict K V) k v :
  get d k = None -> set d k v = (d ++ [(k, v)])%list.
Proof.
  induction d as [|[k' v'] r IH]; cbn [get set app]; [reflexivity|].
  destruct (keqb k k'); [discriminate|]. intros Hg. now rewrite IH.
Qed.

Lemma set_present (d : dict K V) k v :
  get d k <> None -> keys (set d k v) = keys d.
Proof.
  induction d as [|[k' v'] r IH]; cbn [get set]; [congruence|].
  destruct (keqb k k'); [reflexivity|]. intros Hg.
  cbn [keys map fst]. f_equal. now apply IH.
Qed.

Lemma keys_set (d : dict K V) k v :
  keys (set d k v) = if mem d k then keys d else (keys d ++ [k])%list.
Proof.
  unfold mem. destruct (get d k) eqn:Hg.
  - apply set_present. congruence.
  - rewrite (set_absent d k v Hg). unfold keys. now rewrite map_app.
Qed.

Lemma length_set (d : dict K V) k v :
  List.length (set d k v) = if mem d k then List.length d else S (List.length d).
Proof.
  pose proof (keys_set d k v) as Hk.
  apply (f_equal (@List.length K)) in Hk. unfold keys in Hk.
  rewrite length_map in Hk. rewrite Hk.
  destruct (mem d k); rewrite ?length_app, length_map; cbn; lia.
Qed.

Lemma nodup_set (d : dict K V) k v : NoDup (keys d) -> NoDup (keys (set d k v)).
Proof.
  intros Hd. rewrite keys_set. unfold mem.
  destruct (get d k) eqn:Hg; [exact Hd|].
  apply get_none in Hg.
  apply NoDup_app; [exact Hd|repeat constructor; intros []|].
  intros x Hx [<-|[]]. contradiction.
Qed.

Lemma in_keys_set (d : dict K V) k v x :
  In x (keys (set d k v)) -> x = k \/ In x (keys d).
Proof.
  rewrite keys_set. destruct (mem d k); [tauto|].
  rewrite in_app_iff. cbn [In]. intuition.
Qed.

Lemma mem_set (d : dict K V) k v : mem (set d k v) k = true.
Proof. unfold mem. now rewrite get_set_same. Qed.

End Dict.

End DictFacts.

(** ** The cue detector *)

Module CuesFacts.
Import Chars PyStr PyRe Py Patterns Spec Cues DictFacts.

Lemma distinct_NoDup (l : list string) : distinct l = true -> NoDup l.
Proof.
  induction l as [|x r IH]; cbn [distinct]; intros H; constructor.
  - apply andb_prop in H. destruct H as [H _].
    intros Hin. apply negb_true_iff in H.
    assert (existsb (String.eqb x) r = true); [|congruence].
    apply existsb_exists. exists x. split; [exact Hin|apply String.eqb_refl].
  - apply andb_prop in H. now apply IH.
Qed.

Lemma in_get {V : Type} (d : dict string V) k v :
  NoDup (keys d) -> In (k, v) d -> get d k = Some v.
Proof.
  induction d as [|[k' v'] r IH]; intros Hd Hin; [destruct Hin|].
  cbn [keys map fst] in Hd. inversion Hd as [|? ? Hk Hr]; subst.
  cbn [get]. destruct Hin as [[= -> ->]|Hin].
  - now rewrite keqb_refl.
  - destruct (keqb_spec k k') as [->|Hn]; [|now apply IH].
    exfalso. apply Hk. change (In k' (map fst r)).
    apply in_map_iff. now exists (k', v).
Qed.

(** *** The loop over the phrases of one category *)

Lemma compile_phrases_ok (phrases : list string) :
  forall acc, compile_phrases phrases acc = Ok (acc ++ compiled phrases)%list.
Proof.
  induction phrases as [|p r IH]; intros acc; cbn [compile_phrases compiled map].
  - now rewrite app_nil_r.
  - rewrite ReFacts.compile_phrase_literal. cbn [bind]. rewrite IH.
    now rewrite <- app_assoc.
Qed.

Lemma count_phrases_ok (text : string) (phrases : list string) :
  forall inner,
    count_phrases (Some text) (compiled phrases) inner
    = Ok (counted text phrases inner).
Proof.
  induction phrases as [|p r IH]; intros inner; [reflexivity|].
  cbn [compiled map count_phrases finditer_len bind counted].
  apply IH.
Qed.

Lemma counted_step (text : string) (inner : dict string nat) (q p : string) :
  get (if (0 <? phrase_count q text)%nat then set inner q (phrase_count q text)
       else inner) p
  = if String.eqb p q && (0 <? phrase_count p text)%nat
    then Some (phrase_count p text) else get inner p.
Proof.
  destruct (String.eqb_spec p q) as [->|Hn]; cbn [andb].
  - destruct (0 <? phrase_count q text)%nat; [apply get_set_same|reflexivity].
  - destruct (0 <? phrase_count q text)%nat; [|reflexivity].
    now apply get_set_other.
Qed.

Lemma counted_get (text : string) (phrases : list string) :
  forall inner p,
    get (counted text phrases inner) p
    = if existsb (String.eqb p) phrases && (0 <? phrase_count p text)%nat
      then Some (phrase_count p text) else get inner p.
Proof.
  induction phrases as [|q r IH]; intros inner p; [reflexivity|].
  cbn [counted existsb]. rewrite IH, counted_step.
  destruct (String.eqb p q), (existsb (String.eqb p) r),
    (0 <? phrase_count p text)%nat; reflexivity.
Qed.

Lemma counted_nodup (text : string) (phrases : list string) :
  forall inner, NoDup (keys inner) -> NoDup (keys (counted text phrases inner)).
Proof.
  induction phrases as [|q r IH]; intros inner Hd; [exact Hd|].
  cbn [counted]. apply IH.
  destruct (0 <? phrase_count q text)%nat; [now apply nodup_set|exact Hd].
Qed.

Lemma counted_keys (text : string) (phrases : list string) :
  forall inner x,
    In x (keys (counted text phrases inner)) -> In x phrases \/ In x (keys inner).
Proof.
  induction phrases as [|q r IH]; intros inner x Hx; [now right|].
  cbn [counted] in Hx. apply IH in Hx. destruct Hx as [Hx|Hx]; [left; now right|].
  destruct (0 <? phrase_count q text)%nat; [|now right].
  apply in_keys_set in Hx. destruct Hx as [->|Hx]; [left; now left|now right].
Qed.

(** The count reported for a phrase of the category is its number of
    occurrences. *)
Lemma counted_default (text : string) (phrases : list string) (p : string) :
  In p phrases -> get_default (counted text phrases []) p 0 = phrase_count p text.
Proof.
  intros Hin. unfold get_default. rewrite counted_get.
  assert (He : existsb (String.eqb p) phrases = true).
  { apply existsb_exists. exists p. split; [exact Hin|apply String.eqb_refl]. }
  rewrite He. cbn [andb get].
  destruct (phrase_count p text); reflexivity.
Qed.

(** *** The loops over the categories *)

Lemma get_compile_lexicon (lexicon : dict string (list string)) cat :
  get (compile_lexicon lexicon) cat = option_map compiled (get lexicon cat).
Proof.
  induction lexicon as [|[c ph] r IH]; [reflexivity|].
  cbn [compile_lexicon map fst snd get]. destruct (keqb cat c); [reflexivity|].
  exact IH.
Qed.

(** Closes the step of a loop that assigns [acc[c]] and goes on with an
    item list in which [c] does not occur again. *)
Ltac loop_step c cat IH Hc :=
  rewrite IH; cbn [get];
  destruct (keqb_spec cat c) as [->|Hn];
  [ rewrite (proj2 (get_none _ c) Hc); try apply get_set_same
  | destruct (get _ cat); [reflexivity|]; try (apply get_set_other; exact Hn) ].

Lemma detect_items_ok (text : string) (lexicon : dict string (list string)) :
  NoDup (keys lexicon) ->
  forall results,
  exists res,
    detect_items (Some text) (compile_lexicon lexicon) results = Ok res
    /\ (NoDup (keys results) -> NoDup (keys res))
    /\ forall cat,
         get res cat = match get lexicon cat with
                       | Some phrases => Some (counted text phrases [])
                       | None => get results cat
                       end.
Proof.
  induction lexicon as [|[c ph] r IH]; intros Hd results.
  - exists results. repeat split; auto.
  - cbn [keys map fst] in Hd. inversion Hd as [|? ? Hc Hr]; subst.
    cbn [compile_lexicon map fst snd detect_items].
    rewrite count_phrases_ok. cbn [bind].
    destruct (IH Hr (set results c (counted text ph []))) as (res & Hres & Hnd & Hget).
    exists res. split; [exact Hres|]. split.
    + intros Hk. apply Hnd. now apply nodup_set.
    + intros cat. loop_step c cat Hget Hc.
Qed.

Lemma summarize_items_get (items : dict string (dict string nat)) :
  NoDup (keys items) ->
  forall totals cat,
    get (summarize_items items totals) cat
    = match get items cat with
      | Some pc => Some (sum_counts pc)
      | None => get totals cat
      end.
Proof.
  induction items as [|[c pc] r IH]; intros Hd totals cat; [reflexivity|].
  cbn [keys map fst] in Hd. inversion Hd as [|? ? Hc Hr]; subst.
  cbn [summarize_items]. specialize (IH Hr).
  loop_step c cat IH Hc.
Qed.

Lemma copy_raw_get (items : dict string (dict string nat)) :
  NoDup (keys items) ->
  forall merged cat,
    get (Images.copy_raw items merged) cat
    = match get items cat with
      | Some pc => Some (Images.copy_counts pc [])
      | None => get merged cat
      end.
Proof.
  induction items as [|[c pc] r IH]; intros Hd merged cat; [reflexivity|].
  cbn [keys map fst] in Hd. inversion Hd as [|? ? Hc Hr]; subst.
  cbn [Images.copy_raw]. specialize (IH Hr).
  loop_step c cat IH Hc.
Qed.

Lemma copy_raw_nodup (items : dict string (dict string nat)) :
  forall merged, NoDup (keys merged) -> NoDup (keys (Images.copy_raw items merged)).
Proof.
  induction items as [|[c pc] r IH]; intros merged Hd; [exact Hd|].
  cbn [Images.copy_raw]. apply IH. now apply nodup_set.
Qed.

Lemma add_norm_get (items : dict string (dict string nat)) :
  NoDup (keys items) ->
  forall merged cat,
    get (Images.add_norm items merged) cat
    = match get items cat with
      | Some pc => Some (Images.add_counts pc (get_default merged cat []))
      | None => get merged cat
      end.
Proof.
  induction items as [|[c pc] r IH]; intros Hd merged cat; [reflexivity|].
  cbn [keys map fst] in Hd. inversion Hd as [|? ? Hc Hr]; subst.
  cbn [Images.add_norm]. specialize (IH Hr).
  assert (Hdef : get_default (if mem merged c then merged else set merged c []) c []
                 = get_default merged c []).
  { unfold mem, get_default. destruct (get merged c) eqn:Hg.
    - now rewrite Hg.
    - now rewrite get_set_same. }
  rewrite Hdef, IH. cbn [get].
  destruct (keqb_spec cat c) as [->|Hn].
  - rewrite (proj2 (get_none _ c) Hc). apply get_set_same.
  - assert (Hoth : get (set (if mem merged c then merged else set merged c []) c
                            (Images.add_counts pc (get_default merged c []))) cat
                   = get merged cat).
    { rewrite (get_set_other _ _ _ _ Hn).
      destruct (mem merged c); [reflexivity|]. now apply get_set_other. }
    unfold get_default at 1. rewrite Hoth. fold (get_default merged cat []).
    destruct (get r cat); reflexivity.
Qed.

Lemma add_norm_nodup (items : dict string (dict string nat)) :
  forall merged, NoDup (keys merged) -> NoDup (keys (Images.add_norm items merged)).
Proof.
  induction items as [|[c pc] r IH]; intros merged Hd; [exact Hd|].
  cbn [Images.add_norm]. apply IH. apply nodup_set.
  destruct (mem merged c); [exact Hd|now apply nodup_set].
Qed.

(** *** Merging and summing the counts of one category *)

Lemma copy_counts_get (pc : dict string nat) :
  NoDup (keys pc) ->
  forall inner p,
    get (Images.copy_counts pc inner) p
    = match get pc p with Some n => Some n | None => get inner p end.
Proof.
  induction pc as [|[q n] r IH]; intros Hd inner p; [reflexivity|].
  cbn [keys map fst] in Hd. inversion Hd as [|? ? Hq Hr]; subst.
  cbn [Images.copy_counts]. specialize (IH Hr).
  loop_step q p IH Hq.
Qed.

Lemma copy_counts_nodup (pc : dict string nat) :
  forall inner, NoDup (keys inner) -> NoDup (keys (Images.copy_counts pc inner)).
Proof.
  induction pc as [|[q n] r IH]; intros inner Hd; [exact Hd|].
  cbn [Images.copy_counts]. apply IH. now apply nodup_set.
Qed.

Lemma copy_counts_keys (pc : dict string nat) :
  forall inner x,
    In x (keys (Images.copy_counts pc inner)) -> In x (keys pc) \/ In x (keys inner).
Proof.
  induction pc as [|[q n] r IH]; intros inner x Hx; [now right|].
  cbn [Images.copy_counts] in Hx. apply IH in Hx.
  destruct Hx as [Hx|Hx]; [left; now right|].
  apply in_keys_set in Hx. destruct Hx as [->|Hx]; [left; now left|now right].
Qed.

Lemma add_counts_get (pc : dict string nat) :
  NoDup (keys pc) ->
  forall inner p,
    get (Images.add_counts pc inner) p
    = match get pc p with
      | Some n => Some (get_default inner p 0 + n)
      | None => get inner p
      end.
Proof.
  induction pc as [|[q n] r IH]; intros Hd inner p; [reflexivity|].
  cbn [keys map fst] in Hd. inversion Hd as [|? ? Hq Hr]; subst.
  cbn [Images.add_counts]. rewrite (IH Hr). cbn [get].
  destruct (keqb_spec p q) as [->|Hn].
  - rewrite (proj2 (get_none _ q) Hq). apply get_set_same.
  - unfold get_default at 1. rewrite (get_set_other _ _ _ _ Hn).
    fold (get_default inner p 0).
    destruct (get r p); [reflexivity|]. reflexivity.
Qed.

Lemma add_counts_nodup (pc : dict string nat) :
  forall inner, NoDup (keys inner) -> NoDup (keys (Images.add_counts pc inner)).
Proof.
  induction pc as [|[q n] r IH]; intros inner Hd; [exact Hd|].
  cbn [Images.add_counts]. apply IH. now apply nodup_set.
Qed.

Lemma add_counts_keys (pc : dict string nat) :
  forall inner x,
    In x (keys (Images.add_counts pc inner)) -> In x (keys pc) \/ In x (keys inner).
Proof.
  induction pc as [|[q n] r IH]; intros inner x Hx; [now right|].
  cbn [Images.add_counts] in Hx. apply IH in Hx.
  destruct Hx as [Hx|Hx]; [left; now right|].
  apply in_keys_set in Hx. destruct Hx as [->|Hx]; [left; now left|now right].
Qed.

Lemma list_sum_cons (x : nat) (l : list nat) : list_sum (x :: l) = x + list_sum l.
Proof. reflexivity. Qed.

Lemma sum_counts_list (d : dict string nat) :
  sum_counts d = list_sum (map snd d).
Proof.
  unfold sum_counts.
  assert (H : forall a, fold_left (fun total pc => total + snd pc) d a
                        = a + list_sum (map snd d)).
  { induction d as [|[k v] r IH]; intros a; cbn [fold_left map snd].
    - cbn. lia.
    - rewrite list_sum_cons, IH. lia. }
  apply H.
Qed.

Lemma sum_over_single (phrases : list string) (k : string) (v : nat)
      (h : string -> nat) :
  NoDup phrases -> In k phrases -> h k = 0 ->
  sum_over phrases (fun p => if String.eqb p k then v else h p)
  = v + sum_over phrases h.
Proof.
  unfold sum_over. induction phrases as [|x r IH]; intros Hd Hin Hk; [destruct Hin|].
  inversion Hd as [|? ? Hx Hr]; subst. cbn [map]. rewrite !(list_sum_cons).
  destruct (String.eqb_spec x k) as [->|Hn].
  - rewrite Hk.
    assert (He : map (fun p => if String.eqb p k then v else h p) r = map h r).
    { apply map_ext_in. intros p Hp.
      destruct (String.eqb_spec p k) as [->|]; [contradiction|reflexivity]. }
    rewrite He. lia.
  - destruct Hin as [->|Hin]; [congruence|].
    rewrite (IH Hr Hin Hk). lia.
Qed.

(** The total of a category is the sum, over the phrases of the lexicon, of
    the counts it reports. *)
Lemma sum_counts_over (d : dict string nat) (phrases : list string) :
  NoDup (keys d) -> NoDup phrases -> incl (keys d) phrases ->
  sum_counts d = sum_over phrases (fun p => get_default d p 0).
Proof.
  rewrite sum_counts_list.
  induction d as [|[k v] r IH]; intros Hd Hp Hincl.
  - unfold sum_over. clear Hincl Hd.
    induction phrases as [|x l IHl]; [reflexivity|].
    cbn [map]. rewrite list_sum_cons. inversion Hp; subst.
    rewrite <- IHl by assumption. reflexivity.
  - cbn [keys map fst] in Hd. inversion Hd as [|? ? Hk Hr]; subst.
    cbn [map snd]. rewrite list_sum_cons.
    rewrite IH; [|exact Hr|exact Hp|intros x Hx; apply Hincl; now right].
    rewrite <- (sum_over_single phrases k v (fun p => get_default r p 0) Hp).
    + unfold sum_over. f_equal. apply map_ext. intros p.
      unfold get_default. cbn [get].
      change (keqb p k) with (String.eqb p k).
      destruct (String.eqb p k); reflexivity.
    + apply Hincl. now left.
    + unfold get_default. now rewrite (proj2 (get_none r k) Hk).
Qed.

(** *** The lexicon of the program *)

Lemma lexicon_keys_nodup : NoDup (keys CUE_LEXICON).
Proof. apply distinct_NoDup. vm_compute. reflexivity. Qed.

Lemma lexicon_phrases_nodup (cat : string) (phrases : list string) :
  In (cat, phrases) CUE_LEXICON -> NoDup phrases.
Proof.
  intros Hin. apply distinct_NoDup.
  assert (H : List.forallb (fun cp => distinct (snd cp)) CUE_LEXICON = true)
    by (vm_compute; reflexivity).
  rewrite forallb_forall in H. exact (H _ Hin).
Qed.

Lemma patterns_compiled : PATTERNS = compile_lexicon CUE_LEXICON.
Proof. vm_compute. reflexivity. Qed.

Lemma compile_patterns_ok : compile_patterns CUE_LEXICON = Ok PATTERNS.
Proof. vm_compute. reflexivity. Qed.

Lemma detect_cues_ok (text : string) :
  exists res,
    detect_cues (Some text) = Ok res
    /\ NoDup (keys res)
    /\ forall cat,
         get res cat
         = option_map (fun phrases => counted text phrases []) (get CUE_LEXICON cat).
Proof.
  unfold detect_cues, detect_cues_with. rewrite patterns_compiled.
  destruct (detect_items_ok text CUE_LEXICON lexicon_keys_nodup [])
    as (res & Hres & Hnd & Hget).
  exists res. split; [exact Hres|]. split; [apply Hnd; constructor|].
  intros cat. rewrite Hget. destruct (get CUE_LEXICON cat); reflexivity.
Qed.

(** One pass: the count reported for a phrase is its number of
    occurrences in the text given. *)
Lemma detect_cues_reported (text cat : string) (phrases : list string) (p : string)
      (res : dict string (dict string nat)) :
  In (cat, phrases) CUE_LEXICON -> In p phrases ->
  detect_cues (Some text) = Ok res ->
  reported res cat p = phrase_count p text.
Proof.
  intros Hc Hp Hres.
  destruct (detect_cues_ok text) as (res' & Hres' & _ & Hget).
  rewrite Hres in Hres'. injection Hres' as <-.
  unfold reported. unfold get_default at 2.
  rewrite Hget, (in_get _ _ _ lexicon_keys_nodup Hc). cbn [option_map].
  now apply counted_default.
Qed.

(** Two passes: the merged counts of a category, as [images.py] builds
    them from the raw and the normalised pass. *)
Lemma merged_counts (raw norm : string) (phrases : list string) :
  NoDup phrases ->
  let merged := Images.add_counts (counted norm phrases [])
                  (Images.copy_counts (counted raw phrases []) []) in
  (forall p, In p phrases ->
             get_default merged p 0 = phrase_count p raw + phrase_count p norm)
  /\ sum_counts merged
     = sum_over phrases (fun p => phrase_count p raw + phrase_count p norm).
Proof.
  intros Hp merged.
  assert (Hraw : NoDup (keys (counted raw phrases [])))
    by (apply counted_nodup; constructor).
  assert (Hnorm : NoDup (keys (counted norm phrases [])))
    by (apply counted_nodup; constructor).
  assert (Hget : forall p, In p phrases ->
             get_default merged p 0 = phrase_count p raw + phrase_count p norm).
  { intros p Hin. unfold merged, get_default at 1.
    rewrite (add_counts_get _ Hnorm).
    pose proof (counted_default norm phrases p Hin) as Hn.
    pose proof (counted_default raw phrases p Hin) as Hr.
    unfold get_default in Hn, Hr |- *.
    rewrite (copy_counts_get _ Hraw). cbn [get].
    destruct (get (counted norm phrases []) p);
      destruct (get (counted raw phrases []) p); lia. }
  split; [exact Hget|].
  rewrite (sum_counts_over merged phrases).
  - unfold sum_over. f_equal. apply map_ext_in. exact Hget.
  - apply add_counts_nodup, copy_counts_nodup. constructor.
  - exact Hp.
  - intros x Hx. apply add_counts_keys in Hx. destruct Hx as [Hx|Hx].
    + apply counted_keys in Hx. destruct Hx as [Hx|[]]. exact Hx.
    + apply copy_counts_keys in Hx. destruct Hx as [Hx|[]].
      apply counted_keys in Hx. destruct Hx as [Hx|[]]. exact Hx.
Qed.

Lemma images_totals (text : string) :
  exists totals extras,
    Images.detect_with_extras (Some text) = Ok (totals, extras)
    /\ forall cat phrases,
         In (cat, phrases) CUE_LEXICON ->
         get totals cat
         = Some (sum_over phrases
                   (fun p => phrase_count p text
                             + phrase_count p (Census.normalize_text (Some text)))).
Proof.
  unfold Images.detect_with_extras.
  rewrite NormFacts.normalize_text_images.
  destruct (detect_cues_ok text) as (raw & Hraw & Hnd_raw & Hget_raw).
  destruct (detect_cues_ok (Census.normalize_text (Some text)))
    as (norm & Hnorm & Hnd_norm & Hget_norm).
  rewrite Hraw. cbn [bind]. rewrite Hnorm. cbn [bind].
  eexists. eexists. split; [reflexivity|].
  intros cat phrases Hin.
  pose proof (in_get _ _ _ lexicon_keys_nodup Hin) as Hlex.
  unfold summarize_counts. rewrite summarize_items_get.
  - rewrite (add_norm_get _ Hnd_norm). rewrite Hget_norm, Hlex. cbn [option_map].
    unfold get_default. rewrite (copy_raw_get _ Hnd_raw).
    rewrite Hget_raw, Hlex. cbn [option_map].
    f_equal. apply merged_counts. exact (lexicon_phrases_nodup _ _ Hin).
  - apply add_norm_nodup, copy_raw_nodup. constructor.
Qed.

End CuesFacts.

(** ** The year resolver *)

Module YearFacts.
Import Chars PyStr PyRe Py Patterns Spec Census CharFacts.

(** A match of [YEAR_RX] is four decimal digits. *)
Lemma year_match (prev : option ascii) (s : string) (n : nat) :
  YEAR_RX prev s = Some n ->
  n = 4 /\ length (take n s) = 4 /\ forallb is_digit (take n s) = true.
Proof.
  unfold YEAR_RX. destruct (word_boundary prev s); [|discriminate].
  destruct s as [|a [|b [|c [|d r]]]]; try discriminate.
  destruct (_ && _) eqn:H; [|discriminate]. intros [= <-].
  repeat apply andb_prop in H as [H ?].
  rewrite !ReFacts.take_cons, ReFacts.take_zero.
  split; [reflexivity|]. split; [reflexivity|].
  cbn [forallb].
  assert (Hab : is_digit a = true /\ is_digit b = true).
  { cbn [startswith] in H. rewrite !andb_true_r in H. apply orb_prop in H.
    destruct H as [H|H]; apply andb_prop in H as [Ha Hb];
      apply Ascii.eqb_eq in Ha, Hb; subst; split; reflexivity. }
  destruct Hab as [-> ->].
  repeat match goal with E : is_digit _ = true |- _ => rewrite E; clear E end.
  reflexivity.
Qed.

Lemma search_from_year (s : string) :
  forall prev y,
    search_from YEAR_RX prev s = Some y ->
    length y = 4 /\ forallb is_digit y = true.
Proof.
  induction s as [|c r IH]; intros prev y; cbn [search_from].
  - destruct (YEAR_RX prev EmptyString) eqn:Hm; [|discriminate].
    apply year_match in Hm. intros [= <-]. tauto.
  - destruct (YEAR_RX prev (String c r)) eqn:Hm.
    + apply year_match in Hm. intros [= <-]. tauto.
    + apply IH.
Qed.

Lemma search_year (s y : string) :
  search YEAR_RX s = Some y -> length y = 4 /\ forallb is_digit y = true.
Proof. apply search_from_year. Qed.

Lemma valid_year_empty : _valid_year EmptyString = Ok false.
Proof. reflexivity. Qed.

(** On four decimal digits [_valid_year] does not raise and tests the
    window. *)
Lemma valid_year_digits (y : string) :
  length y = 4 -> forallb is_digit y = true -> _valid_year y = Ok (in_range y).
Proof.
  intros Hl Hd. unfold _valid_year, isdigit, py_int.
  assert (Ht : truthy y = true) by (destruct y; [discriminate|reflexivity]).
  assert (Hp : forallb py_isdigit y = true).
  { clear Hl Ht. induction y as [|c r IH]; [reflexivity|].
    cbn [forallb] in *. apply andb_prop in Hd as [Hc Hr].
    now rewrite (digit_isdigit c Hc), IH. }
  rewrite Ht, Hp, Hd, Hl. reflexivity.
Qed.

Lemma extract_year_ok (s : string) :
  extract_year_from_text s = Ok (or_empty (first_year s)).
Proof.
  unfold extract_year_from_text, first_year.
  destruct s as [|c r]; [reflexivity|]. cbn [truthy negb].
  destruct (search YEAR_RX (String c r)) as [y|] eqn:Hs; [|reflexivity].
  destruct (search_year _ _ Hs) as [Hl Hd].
  rewrite (valid_year_digits y Hl Hd). cbn [bind].
  destruct (in_range y); reflexivity.
Qed.

Lemma first_year_digits (s y : string) :
  first_year s = Some y -> length y = 4 /\ forallb is_digit y = true /\ in_range y = true.
Proof.
  unfold first_year. destruct (search YEAR_RX s) as [y'|] eqn:Hs; [|discriminate].
  destruct (in_range y') eqn:Hr; [|discriminate]. intros [= <-].
  destruct (search_year _ _ Hs). tauto.
Qed.

(** The year found in a text is valid exactly when there is one. *)
Lemma valid_first_year (s : string) :
  _valid_year (or_empty (first_year s))
  = Ok (match first_year s with Some _ => true | None => false end).
Proof.
  destruct (first_year s) as [y|] eqn:Hf; [|reflexivity].
  destruct (first_year_digits _ _ Hf) as (Hl & Hd & Hr).
  cbn [or_empty]. now rewrite (valid_year_digits y Hl Hd), Hr.
Qed.

Lemma out_of_range_date_ok (date : string) :
  first_year date = None -> out_of_range_date date = Ok (has_token date).
Proof.
  unfold out_of_range_date, first_year, has_token.
  destruct date as [|c r]; [reflexivity|]. cbn [truthy].
  destruct (search YEAR_RX (String c r)) as [y|] eqn:Hs; [|reflexivity].
  destruct (search_year _ _ Hs) as [Hl Hd].
  rewrite (valid_year_digits y Hl Hd). cbn [bind].
  destruct (in_range y); [discriminate|reflexivity].
Qed.

(** The resolver never raises, and returns what [resolved] describes. *)
Lemma guess_year_ok (r : row) (filename : string) (a : audit) :
  guess_year_with_audit r filename a
  = Ok (resolved (safe_get r "date") filename a).
Proof.
  unfold guess_year_with_audit, resolved.
  rewrite extract_year_ok. cbn [bind]. rewrite valid_first_year. cbn [bind].
  destruct (first_year (safe_get r "date")) as [y|] eqn:Hd; [reflexivity|].
  rewrite (out_of_range_date_ok _ Hd). cbn [bind].
  rewrite extract_year_ok. cbn [bind]. rewrite valid_first_year. cbn [bind].
  destruct (first_year filename) as [y|]; destruct (has_token _); reflexivity.
Qed.

End YearFacts.

(** ** The census loop *)

Module CensusFacts.
Import Chars PyStr PyRe Py Patterns Spec Census DictFacts YearFacts.

(** One call of the resolver adds one to exactly one of [date_valid],
    [fallback_file] and [unknown]; [date_out_of_range] moves only together
    with the last two. *)
Lemma resolved_audit (date filename : string) (a : audit) :
  let a' := snd (resolved date filename a) in
  (date_valid a' = date_valid a + 1 /\ fallback_file a' = fallback_file a
   /\ unknown a' = unknown a /\ date_out_of_range a' = date_out_of_range a)
  \/ (date_valid a' = date_valid a /\ fallback_file a' = fallback_file a + 1
      /\ unknown a' = unknown a
      /\ (date_out_of_range a' = date_out_of_range a
          \/ date_out_of_range a' = date_out_of_range a + 1))
  \/ (date_valid a' = date_valid a /\ fallback_file a' = fallback_file a
      /\ unknown a' = unknown a + 1
      /\ (date_out_of_range a' = date_out_of_range a
          \/ date_out_of_range a' = date_out_of_range a + 1)).
Proof.
  unfold resolved.
  destruct (first_year date); [left; cbn; tauto|].
  destruct (first_year filename); destruct (has_token date); cbn;
    [right; left|right; left|right; right|right; right]; tauto.
Qed.

Lemma in_keys_set_iff {V : Type} (d : dict signature V) k v x :
  In x (keys (set d k v)) <-> x = k \/ In x (keys d).
Proof.
  rewrite keys_set. unfold mem. destruct (get d k) eqn:Hg.
  - split; [tauto|]. intros [->|Hx]; [|exact Hx].
    destruct (in_dec (fun a b => reflect_dec _ _ (keqb_spec a b)) k (keys d))
      as [Hin|Hnin]; [exact Hin|].
    apply get_none in Hnin. congruence.
  - rewrite in_app_iff. cbn [In]. intuition.
Qed.

(** An email-like row keeps the census in step. *)
Lemma email_row_ok (filename : string) (r : row) (emails : list row)
      (c : census) (f : in_file) :
  census_ok emails c ->
  exists c' f',
    email_row filename r c f = Ok (c', f')
    /\ census_ok (emails ++ [r]) c'.
Proof.
  intros [Hcount Hnodup Hsigs Haudit Hoor].
  unfold email_row. rewrite guess_year_ok. cbn [bind].
  pose proof (resolved_audit (safe_get r "date") filename (year_audit c)) as Ha.
  destruct (resolved (safe_get r "date") filename (year_audit c)) as [yr a'].
  cbn [snd] in Ha.
  eexists. eexists. split; [reflexivity|].
  constructor; cbn [email_like_all sig_counter year_audit].
  - rewrite length_app. cbn [List.length]. lia.
  - now apply nodup_set.
  - intros sig. rewrite in_keys_set_iff, map_app, in_app_iff, Hsigs.
    cbn [map In]. intuition.
  - rewrite length_app. cbn [List.length]. lia.
  - lia.
Qed.

Lemma count_row_ok (emails : list row) (c : census) (f : in_file) :
  census_ok emails c -> census_ok emails (fst (count_row c f)).
Proof. intros [? ? ? ? ?]. constructor; assumption. Qed.

Lemma read_rows_ok (filename : string) (rs : list row) :
  forall emails c f,
    census_ok emails c ->
    exists c' f',
      read_rows filename rs c f = Ok (c', f')
      /\ census_ok (emails ++ filter is_email_like rs) c'.
Proof.
  induction rs as [|r rest IH]; intros emails c f Hok.
  - exists c, f. cbn [read_rows filter]. now rewrite app_nil_r.
  - cbn [read_rows filter].
    pose proof (count_row_ok emails c f Hok) as Hok1.
    destruct (count_row c f) as [c1 f1]. cbn [fst] in Hok1.
    destruct (is_email_like r); cbn [negb].
    + destruct (email_row_ok filename r emails c1 f1 Hok1) as (c2 & f2 & He & Hok2).
      rewrite He. cbn [bind fst snd].
      destruct (IH _ c2 f2 Hok2) as (c' & f' & Hr & Hok').
      exists c', f'. split; [exact Hr|].
      now rewrite <- app_assoc in Hok'.
    + apply IH. exact Hok1.
Qed.

Lemma read_files_ok (files : list csv_file) :
  forall emails c,
    census_ok emails c ->
    exists c',
      read_files files c = Ok c'
      /\ census_ok (emails ++ email_rows files) c'.
Proof.
  induction files as [|p rest IH]; intros emails c Hok.
  - exists c. cbn. now rewrite app_nil_r.
  - cbn [read_files].
    destruct (read_rows_ok (name p) (rows p) emails c
                {| rows_in_file := 0; email_like_in_file := 0;
                   seen_sigs_this_file := [] |} Hok)
      as (c1 & f1 & Hr & Hok1).
    rewrite Hr. cbn [bind].
    match goal with
    | |- exists c', read_files rest ?c2 = _ /\ _ =>
        assert (Hok2 : census_ok (emails ++ filter is_email_like (rows p)) c2)
    end.
    { destruct Hok1. constructor; assumption. }
    destruct (IH _ _ Hok2) as (c' & Hf & Hok').
    exists c'. split; [exact Hf|].
    unfold email_rows, all_rows in *. cbn [map List.concat].
    now rewrite filter_app, app_assoc.
Qed.

Lemma census_start_ok : census_ok [] census_start.
Proof.
  constructor; cbn; [reflexivity|constructor|tauto|reflexivity|lia].
Qed.

(** The whole corpus is read without an exception. *)
Lemma read_corpus_ok (files : list csv_file) :
  exists c,
    read_files files census_start = Ok c /\ census_ok (email_rows files) c.
Proof. exact (read_files_ok files [] census_start census_start_ok). Qed.

(** Two copies of one message in one file: a reply and the original, the
    same domain up to case, the same body up to case and punctuation, with a
    row that is not an email between them. *)
Example census_of_a_reply_and_its_original :
  exists c,
    read_files
      [{| path := "unzipped/phishing-2012.csv"; name := "phishing-2012.csv";
          rows :=
            [ [("subject", Some "Re: Account Verification");
               ("from_domain", Some "example.com");
               ("body", Some "Please verify your account now.");
               ("date", Some "Tue, 3 Jul 2012 10:00:00 +0000")];
              [("subject", Some ""); ("body", None)];
              [("subject", Some "Account verification");
               ("from_domain", Some "Example.com");
               ("body", Some "please verify your account now");
               ("date", Some "Mon, 1 Mar 2010 10:00:00 +0000")] ] |}]
      census_start = Ok c
    /\ total_rows_all c = 3
    /\ email_like_all c = 2
    /\ map snd (sig_counter c) = [2]
    /\ map snd (sig_first_year c) = ["2010"]
    /\ duplicates (finalize c) = 1%Z
    /\ dup_rate (finalize c) = 50%float.
Proof.
  eexists. split; [vm_compute; reflexivity|].
  repeat split.
Qed.

(** There are no more distinct signatures than email-like rows. *)
Lemma unique_le_rows (emails : list row) (c : census) :
  census_ok emails c -> List.length (sig_counter c) <= email_like_all c.
Proof.
  intros [Hcount Hnodup Hsigs _ _].
  rewrite Hcount, <- (length_map build_signature emails).
  replace (List.length (sig_counter c)) with (List.length (keys (sig_counter c)))
    by apply length_map.
  apply NoDup_incl_length; [exact Hnodup|].
  intros x Hx. now apply Hsigs.
Qed.

End CensusFacts.

(** ** Signatures *)

Module SigFacts.
Import Chars PyStr PyRe Py Patterns Spec Census CharFacts NormFacts.

(** *** The content hash *)

Lemma length_string_of_list (l : list ascii) :
  length (string_of_list_ascii l) = List.length l.
Proof. induction l as [|c r IH]; cbn; [reflexivity|now rewrite IH]. Qed.

Lemma length_append (a b : string) : length (a ++ b) = length a + length b.
Proof. induction a as [|c r IH]; cbn; [reflexivity|now rewrite IH]. Qed.

Lemma hex32_length (x : N) : length (Sha1.hex32 x) = 8.
Proof. unfold Sha1.hex32. rewrite length_string_of_list, length_map. reflexivity. Qed.

(** A SHA-1 digest prints as forty characters, whatever the message. *)
Lemma hexdigest_length (msg : list N) : length (Sha1.hexdigest msg) = 40.
Proof.
  unfold Sha1.hexdigest. destruct (Sha1.digest msg) as [[[[h0 h1] h2] h3] h4].
  rewrite !length_append, !hex32_length. reflexivity.
Qed.

Lemma content_signature_short (cont_norm : string) :
  length cont_norm < MIN_CONTENT_CHARS -> content_signature cont_norm = EmptyString.
Proof.
  intros H. unfold content_signature.
  now rewrite (proj2 (Nat.ltb_lt _ _) H).
Qed.

Lemma content_signature_long (cont_norm : string) :
  MIN_CONTENT_CHARS <= length cont_norm ->
  length (content_signature cont_norm) = 40.
Proof.
  intros H. unfold content_signature.
  rewrite (proj2 (Nat.ltb_ge _ _) H). apply hexdigest_length.
Qed.

(** *** Fields *)

Lemma first_present_ext (r1 r2 : row) (keys : list string) :
  (forall k, In k keys -> safe_get r1 k = safe_get r2 k) ->
  first_present r1 keys = first_present r2 keys.
Proof.
  induction keys as [|k rest IH]; intros H; [reflexivity|].
  cbn [first_present]. rewrite (H k (or_introl eq_refl)).
  destruct (truthy (strip (safe_get r2 k))); [reflexivity|].
  apply IH. intros k' Hk'. apply H. now right.
Qed.

(** *** The reply and forward marker *)

Lemma drop_nil (n : nat) : drop n EmptyString = EmptyString.
Proof. destruct n; reflexivity. Qed.

Lemma drop_add (a b : nat) : forall u, drop (a + b) u = drop b (drop a u).
Proof.
  induction a as [|a IH]; intros u; [reflexivity|].
  destruct u as [|c r]; cbn [Nat.add drop]; [now rewrite drop_nil|apply IH].
Qed.

Lemma drop_run_lstrip (s : string) : drop (run_len is_space s) s = lstrip s.
Proof.
  induction s as [|c r IH]; [reflexivity|]. cbn [run_len lstrip].
  destruct (is_space c); [exact IH|reflexivity].
Qed.

Lemma sub_from_marker_rest (s : string) :
  forall p k, sub_from RE_MARKER (fun _ => EmptyString) (Some p) s k = drop k s.
Proof.
  induction s as [|c r IH]; intros p k.
  - destruct k; reflexivity.
  - destruct k as [|k]; cbn [sub_from RE_MARKER drop]; [|apply IH].
    now rewrite IH.
Qed.

Lemma sub_marker_drop (u : string) :
  sub RE_MARKER "" u
  = match RE_MARKER None u with Some n => drop n u | None => u end.
Proof.
  unfold sub, sub_fn. destruct u as [|c r]; [reflexivity|].
  cbn [sub_from]. destruct (RE_MARKER None (String c r)) as [[|k]|].
  - cbn. now rewrite sub_from_marker_rest.
  - cbn [append drop]. apply sub_from_marker_rest.
  - now rewrite sub_from_marker_rest.
Qed.

Lemma marker_alt_try (word u : string) :
  option_map (fun n => drop n u) (marker_alt word u) = try_marker word u.
Proof.
  unfold marker_alt, try_marker, after_colon.
  destruct (startswith word u); [|reflexivity].
  rewrite drop_run_lstrip.
  pose proof (drop_run_lstrip (drop (length word) u)) as Hl.
  destruct (lstrip (drop (length word) u)) as [|c r2]; [reflexivity|].
  destruct (Ascii.eqb_spec c ":") as [->|Hn].
  - cbn [option_map]. f_equal.
    rewrite <- !Nat.add_assoc, drop_add, drop_add, Hl.
    cbn [Nat.add drop]. apply drop_run_lstrip.
  - destruct c as [[] [] [] [] [] [] [] []]; try reflexivity. congruence.
Qed.

(** The pattern of [normalize_subject] removes one leading marker. *)
Lemma sub_marker_spec (u : string) : sub RE_MARKER "" u = strip_marker u.
Proof.
  rewrite sub_marker_drop. unfold RE_MARKER, strip_marker.
  rewrite <- !marker_alt_try.
  destruct (marker_alt "re" u); [reflexivity|].
  destruct (marker_alt "fw" u); [reflexivity|].
  destruct (marker_alt "fwd" u); reflexivity.
Qed.

(** *** Trimming and the marker *)

Lemma lower_lstrip (s : string) : lower (lstrip s) = lstrip (lower s).
Proof.
  induction s as [|c r IH]; [reflexivity|]. cbn [lstrip lower].
  rewrite is_space_lower. destruct (is_space c); [exact IH|reflexivity].
Qed.

Lemma lower_rstrip (s : string) : lower (rstrip s) = rstrip (lower s).
Proof.
  induction s as [|c r IH]; [reflexivity|]. cbn [rstrip lower].
  rewrite <- IH, is_space_lower.
  destruct (rstrip r); cbn [lower]; [|reflexivity].
  destruct (is_space c); reflexivity.
Qed.

Lemma lower_strip (s : string) : lower (strip s) = strip (lower s).
Proof. unfold strip. now rewrite lower_lstrip, lower_rstrip. Qed.

(** A word without blanks is a prefix of a text exactly when it is one of
    the text trimmed on the right, and is dropped from both alike. *)
Lemma startswith_rstrip (word : string) :
  forallb (fun c => negb (is_space c)) word = true ->
  forall u,
    startswith word (rstrip u) = startswith word u
    /\ (startswith word u = true ->
        drop (length word) (rstrip u) = rstrip (drop (length word) u)).
Proof.
  induction word as [|a w IH]; intros Hw u.
  - split; [destruct (rstrip u); destruct u; reflexivity|reflexivity].
  - cbn [forallb] in Hw. apply andb_prop in Hw as [Ha Hw].
    apply negb_true_iff in Ha.
    destruct u as [|c r]; [split; [reflexivity|discriminate]|].
    destruct (is_space c) eqn:Hc.
    + assert (Hac : Ascii.eqb a c = false).
      { destruct (Ascii.eqb_spec a c) as [->|]; [congruence|reflexivity]. }
      cbn [startswith]. rewrite Hac. cbn [andb].
      split; [|discriminate].
      cbn [rstrip]. rewrite Hc. destruct (rstrip r); [reflexivity|].
      cbn [startswith]. now rewrite Hac.
    + rewrite (rstrip_cons_nonspace c r Hc). cbn [startswith length drop].
      destruct (IH Hw r) as [Hs Hd]. rewrite Hs.
      split; [reflexivity|].
      intros H. apply andb_prop in H as [_ H]. now apply Hd.
Qed.

Lemma lstrip_head (s : string) : starts_space (lstrip s) = false.
Proof.
  induction s as [|c r IH]; [reflexivity|]. cbn [lstrip].
  destruct (is_space c) eqn:Hc; [exact IH|]. cbn [starts_space]. exact Hc.
Qed.

Lemma after_colon_rstrip (r : string) :
  after_colon (rstrip r) = option_map rstrip (after_colon r).
Proof.
  unfold after_colon. rewrite lstrip_rstrip_comm.
  pose proof (lstrip_head r) as Hh.
  destruct (lstrip r) as [|c r2]; [reflexivity|]. cbn [starts_space] in Hh.
  rewrite (rstrip_cons_nonspace c r2 Hh).
  destruct (Ascii.eqb_spec c ":") as [->|Hn].
  - cbn [option_map]. now rewrite lstrip_rstrip_comm.
  - destruct c as [[] [] [] [] [] [] [] []]; try reflexivity. congruence.
Qed.

Lemma try_marker_rstrip (word u : string) :
  forallb (fun c => negb (is_space c)) word = true ->
  try_marker word (rstrip u) = option_map rstrip (try_marker word u).
Proof.
  intros Hw. unfold try_marker.
  destruct (startswith_rstrip word Hw u) as [Hs Hd]. rewrite Hs.
  destruct (startswith word u); [|reflexivity].
  rewrite (Hd eq_refl). apply after_colon_rstrip.
Qed.

(** Removing the marker and trimming on the right commute. *)
Lemma strip_marker_rstrip (u : string) :
  strip_marker (rstrip u) = rstrip (strip_marker u).
Proof.
  unfold strip_marker.
  rewrite !try_marker_rstrip by reflexivity.
  destruct (try_marker "re" u); [reflexivity|].
  destruct (try_marker "fw" u); [reflexivity|].
  destruct (try_marker "fwd" u); reflexivity.
Qed.

Lemma try_marker_space (word u : string) :
  starts_space word = false -> word <> EmptyString ->
  starts_space u = true -> try_marker word u = None.
Proof.
  intros Hw Hne Hu. unfold try_marker.
  destruct word as [|a w]; [congruence|]. destruct u as [|c r]; [discriminate|].
  cbn [starts_space] in *. cbn [startswith].
  destruct (Ascii.eqb_spec a c) as [->|]; [congruence|reflexivity].
Qed.

Lemma strip_marker_space (u : string) :
  starts_space u = true -> strip_marker u = u.
Proof.
  intros Hu. unfold strip_marker.
  now rewrite !try_marker_space by (reflexivity || discriminate || exact Hu).
Qed.

Lemma try_marker_head (word u v : string) :
  try_marker word u = Some v -> starts_space v = false.
Proof.
  unfold try_marker, after_colon. destruct (startswith word u); [|discriminate].
  destruct (lstrip (drop (length word) u)) as [|c r2]; [discriminate|].
  destruct c as [[] [] [] [] [] [] [] []]; try discriminate.
  intros [= <-]. apply lstrip_head.
Qed.

Lemma strip_marker_head (u : string) :
  starts_space u = false -> starts_space (strip_marker u) = false.
Proof.
  intros Hu. unfold strip_marker.
  destruct (try_marker "re" u) eqn:H1; [exact (try_marker_head _ _ _ H1)|].
  destruct (try_marker "fw" u) eqn:H2; [exact (try_marker_head _ _ _ H2)|].
  destruct (try_marker "fwd" u) eqn:H3; [exact (try_marker_head _ _ _ H3)|].
  exact Hu.
Qed.

Lemma lstrip_nospace (u : string) : starts_space u = false -> lstrip u = u.
Proof. destruct u as [|c r]; [reflexivity|]. cbn. now intros ->. Qed.

(** The normalised subject, through the marker of the specification. *)
Lemma normalize_subject_spec (subj : string) :
  normalize_subject (Some subj)
  = sub_spaces (rstrip (strip_marker (lstrip (lower subj)))).
Proof.
  unfold normalize_subject. cbn [or_empty].
  rewrite sub_marker_spec, lower_strip. unfold strip.
  now rewrite lstrip_rstrip_comm, strip_marker_rstrip.
Qed.

(** Subjects that agree once lower-cased and rid of one leading marker
    have the same normalised subject. *)
Lemma normalize_subject_same (s1 s2 : string) :
  strip_marker (lower s1) = strip_marker (lower s2) ->
  normalize_subject (Some s1) = normalize_subject (Some s2).
Proof.
  intros H. rewrite !normalize_subject_spec. f_equal. f_equal.
  destruct (starts_space (lower s1)) eqn:H1, (starts_space (lower s2)) eqn:H2.
  - rewrite (strip_marker_space _ H1), (strip_marker_space _ H2) in H.
    now rewrite H.
  - rewrite (strip_marker_space _ H1) in H.
    pose proof (strip_marker_head _ H2) as Hh. rewrite <- H in Hh. congruence.
  - rewrite (strip_marker_space _ H2) in H.
    pose proof (strip_marker_head _ H1) as Hh. rewrite H in Hh. congruence.
  - now rewrite (lstrip_nospace _ H1), (lstrip_nospace _ H2).
Qed.

End SigFacts.

(** ** Splitting and joining *)

Module TextFacts.
Import Chars PyStr Py PyText CharFacts.

Lemma split_nonempty (sep : ascii) (s : string) : split sep s <> [].
Proof.
  destruct s as [|c r]; cbn [split]; [discriminate|].
  destruct (Ascii.eqb c sep); [discriminate|].
  destruct (split sep r); discriminate.
Qed.

Lemma split_nosep (sep : ascii) (s : string) :
  Forall (fun w => contains sep w = false) (split sep s).
Proof.
  induction s as [|c r IH]; cbn [split].
  - repeat constructor.
  - destruct (Ascii.eqb c sep) eqn:Hc; [constructor; [reflexivity|exact IH]|].
    destruct (split sep r) as [|w ws]; [repeat constructor; cbn; now rewrite Hc|].
    inversion IH; subst. constructor; [|assumption].
    cbn [contains]. now rewrite Hc.
Qed.

Lemma concat_cons (sep x : string) (y : string) (ws : list string) :
  String.concat sep (x :: y :: ws) = x ++ sep ++ String.concat sep (y :: ws).
Proof. reflexivity. Qed.

(** Joining the parts of a split gives the string back. *)
Lemma join_split (sep : ascii) (s : string) :
  String.concat (String sep "") (split sep s) = s.
Proof.
  induction s as [|c r IH]; [reflexivity|]. cbn [split].
  destruct (Ascii.eqb_spec c sep) as [->|Hn].
  - pose proof (split_nonempty sep r) as Hne.
    destruct (split sep r) as [|w ws]; [contradiction|].
    rewrite concat_cons, IH. reflexivity.
  - pose proof (split_nonempty sep r) as Hne.
    destruct (split sep r) as [|w ws]; [contradiction|].
    rewrite <- IH. destruct ws; reflexivity.
Qed.

Lemma split_app_sep (sep : ascii) (w rest : string) :
  contains sep w = false ->
  split sep (w ++ String sep rest) = w :: split sep rest.
Proof.
  induction w as [|c r IH]; intros Hw.
  - cbn [append split]. now rewrite Ascii.eqb_refl.
  - cbn [contains] in Hw. apply orb_false_iff in Hw as [Hc Hr].
    cbn [append split]. rewrite Hc, (IH Hr). reflexivity.
Qed.

Lemma split_single (sep : ascii) (w : string) :
  contains sep w = false -> split sep w = [w].
Proof.
  induction w as [|c r IH]; intros Hw; [reflexivity|].
  cbn [contains] in Hw. apply orb_false_iff in Hw as [Hc Hr].
  cbn [split]. now rewrite Hc, (IH Hr).
Qed.

(** Splitting a join of parts without the separator gives the parts back. *)
Lemma split_join (sep : ascii) (ws : list string) :
  ws <> [] -> Forall (fun w => contains sep w = false) ws ->
  split sep (String.concat (String sep "") ws) = ws.
Proof.
  induction ws as [|w r IH]; intros Hne Hall; [contradiction|].
  inversion Hall as [|? ? Hw Hr]; subst.
  destruct r as [|w' r'].
  - cbn [String.concat]. now apply split_single.
  - rewrite concat_cons. cbn [append]. rewrite (split_app_sep _ _ _ Hw).
    f_equal. apply IH; [discriminate|exact Hr].
Qed.

Lemma append_assoc (a b c : string) : (a ++ b) ++ c = a ++ (b ++ c).
Proof. induction a as [|x r IH]; [reflexivity|]. cbn. now rewrite IH. Qed.

Lemma append_empty_r (a : string) : a ++ "" = a.
Proof. induction a as [|x r IH]; [reflexivity|]. cbn. now rewrite IH. Qed.

Lemma lower_app (a b : string) : lower (a ++ b) = lower a ++ lower b.
Proof. induction a as [|c r IH]; [reflexivity|]. cbn. now rewrite IH. Qed.

Lemma lower_lower (s : string) : lower (lower s) = lower s.
Proof. induction s as [|c r IH]; [reflexivity|]. cbn. now rewrite lower_idem, IH. Qed.

Lemma contains_app (c : ascii) (a b : string) :
  contains c (a ++ b) = contains c a || contains c b.
Proof.
  induction a as [|x r IH]; [reflexivity|]. cbn. rewrite IH. now rewrite orb_assoc.
Qed.

End TextFacts.

(** ** [src/urlscan.py] *)

Module UrlFacts.
Import Chars PyStr PyRe Py Patterns PyText Urlscan Props CharFacts TextFacts.

Lemma length_lower (s : string) : length (lower s) = length s.
Proof. induction s as [|c r IH]; [reflexivity|]. cbn. now rewrite IH. Qed.

Lemma append_inv_tail (a c b d : string) :
  length a = length c -> a ++ b = c ++ d -> b = d.
Proof.
  revert c. induction a as [|x a IH]; intros [|y c] Hl He; try discriminate.
  - exact He.
  - cbn in Hl, He. injection He as _ He. injection Hl as Hl. exact (IH c Hl He).
Qed.

Lemma last_two {A : Type} (ws : list A) :
  2 <= List.length ws ->
  exists pre p q, ws = (pre ++ [p; q])%list /\ last_n 2 ws = [p; q].
Proof.
  intros Hl. unfold last_n.
  pose proof (firstn_skipn (List.length ws - 2) ws) as Hsplit.
  pose proof (length_skipn (List.length ws - 2) ws) as Hlen.
  destruct (skipn (List.length ws - 2) ws) as [|p [|q [|x r]]] eqn:Hs;
    cbn [List.length] in Hlen; try lia.
  exists (firstn (List.length ws - 2) ws), p, q. split; [now symmetry|reflexivity].
Qed.

Lemma apex_from_host_of (host : option string) :
  apex_from_host host = apex_of (lower (or_empty host)).
Proof. reflexivity. Qed.

Lemma concat_app_last (pre : list string) (p q : string) :
  String.concat "." (pre ++ [p; q])
  = String.concat "." (pre ++ [""]) ++ p ++ "." ++ q.
Proof.
  induction pre as [|w r IH]; [reflexivity|].
  destruct r as [|w' r'].
  - cbn [app String.concat]. rewrite !append_assoc. reflexivity.
  - change ((w :: w' :: r') ++ [p; q])%list with (w :: ((w' :: r') ++ [p; q]))%list.
    change ((w :: w' :: r') ++ [""])%list with (w :: ((w' :: r') ++ [""]))%list.
    cbn [app] in IH |- *. rewrite !concat_cons. rewrite IH.
    rewrite !append_assoc. reflexivity.
Qed.

(** What [apex_of] returns is the end of its argument, with at most two
    labels, and is left as it is by [apex_of]. *)
Lemma apex_of_spec (t : string) :
  (exists pre, t = pre ++ apex_of t)
  /\ List.length (split "." (apex_of t)) <= 2
  /\ apex_of (apex_of t) = apex_of t.
Proof.
  unfold apex_of at 1 2 4 5.
  destruct (2 <=? List.length (split "." t))%nat eqn:Hl.
  - apply Nat.leb_le in Hl.
    destruct (last_two _ Hl) as (pre & p & q & Hws & Hlast).
    rewrite Hlast.
    pose proof (split_nosep "." t) as Hno. rewrite Hws in Hno.
    apply Forall_app in Hno as [_ Hpq].
    assert (Hsp : split "." (String.concat "." [p; q]) = [p; q]).
    { apply split_join; [discriminate|exact Hpq]. }
    split; [|split].
    + exists (String.concat "." (pre ++ [""])).
      rewrite <- (join_split "." t) at 1. rewrite Hws. apply concat_app_last.
    + rewrite Hsp. cbn. lia.
    + unfold apex_of. rewrite Hsp. reflexivity.
  - split; [exists ""; reflexivity|]. split.
    + apply Nat.leb_gt in Hl. lia.
    + unfold apex_of. now rewrite Hl.
Qed.

Lemma apex_of_lower (t : string) : lower t = t -> lower (apex_of t) = apex_of t.
Proof.
  intros Ht. destruct (apex_of_spec t) as ((pre & Hpre) & _ & _).
  remember (apex_of t) as r eqn:Hr. clear Hr. subst t.
  rewrite lower_app in Ht.
  apply (append_inv_tail (lower pre) pre); [apply length_lower|exact Ht].
Qed.

Lemma split_app (sep : ascii) (a b : string) :
  split sep (a ++ String sep b) = (split sep a ++ split sep b)%list.
Proof.
  induction a as [|c r IH].
  - cbn [append split app]. now rewrite Ascii.eqb_refl.
  - cbn [append split]. rewrite IH.
    destruct (Ascii.eqb c sep); [reflexivity|].
    pose proof (split_nonempty sep r) as Hne.
    destruct (split sep r) as [|w ws]; [contradiction|reflexivity].
Qed.

Lemma last_n_app {A : Type} (l : list A) (p q : A) :
  last_n 2 (l ++ [p; q]) = [p; q].
Proof.
  unfold last_n. rewrite length_app. cbn [List.length].
  replace (List.length l + 2 - 2) with (List.length l + 0) by lia.
  rewrite skipn_app, Nat.add_0_r, skipn_all.
  replace (List.length l - List.length l) with 0 by lia. reflexivity.
Qed.

(** The apex of a host that ends with two labels is these two labels. *)
Lemma apex_of_labels (pre : list string) (x y : string) :
  contains "." x = false -> contains "." y = false ->
  apex_of (String.concat "." (pre ++ [x; y])) = x ++ "." ++ y.
Proof.
  intros Hx Hy.
  assert (Hs : exists l, split "." (String.concat "." (pre ++ [x; y]))
                         = (l ++ [x; y])%list).
  { induction pre as [|w r IH].
    - exists []. cbn [app String.concat].
      change (x ++ "." ++ y) with (x ++ String "." y).
      now rewrite (split_app_sep _ _ _ Hx), (split_single _ _ Hy).
    - destruct IH as (l & Hl).
      assert (Hc : String.concat "." ((w :: r) ++ [x; y])
                   = w ++ String "." (String.concat "." (r ++ [x; y]))).
      { cbn [app]. destruct r as [|w' r']; reflexivity. }
      rewrite Hc, split_app, Hl. exists (split "." w ++ l)%list.
      now rewrite app_assoc. }
  destruct Hs as (l & Hl). unfold apex_of. rewrite Hl, last_n_app.
  rewrite length_app. cbn [List.length].
  destruct (Nat.leb_spec 2 (List.length l + 2)); [reflexivity|lia].
Qed.

Lemma apex_no_dot (t : string) : contains "." t = false -> apex_of t = t.
Proof.
  intros H. unfold apex_of. now rewrite (split_single _ _ H).
Qed.

End UrlFacts.

Module IpFacts.
Import Chars PyStr PyRe Py Patterns PyText Urlscan Props CharFacts TextFacts.

Lemma run_len_app (p : ascii -> bool) (a rest : string) :
  forallb p a = true -> not_at_head p rest = true ->
  run_len p (a ++ rest) = length a.
Proof.
  intros Ha Hr. induction a as [|c r IH].
  - destruct rest as [|x y]; [reflexivity|]. cbn in Hr |- *.
    apply negb_true_iff in Hr. now rewrite Hr.
  - cbn [forallb] in Ha. apply andb_prop in Ha as [Hc Ha].
    cbn [append run_len length]. now rewrite Hc, (IH Ha).
Qed.

Lemma drop_app (a rest : string) : drop (length a) (a ++ rest) = rest.
Proof. induction a as [|c r IH]; [now destruct rest|exact IH]. Qed.

Lemma run_len_split (p : ascii -> bool) (s : string) :
  s = take (run_len p s) s ++ drop (run_len p s) s
  /\ forallb p (take (run_len p s) s) = true
  /\ length (take (run_len p s) s) = run_len p s
  /\ not_at_head p (drop (run_len p s) s) = true.
Proof.
  induction s as [|c r IH]; [repeat split|].
  cbn [run_len]. destruct (p c) eqn:Hc.
  - destruct IH as (H1 & H2 & H3 & H4).
    rewrite ReFacts.take_cons. cbn [drop append forallb length].
    rewrite Hc, H2, H3, <- H1. repeat split. exact H4.
  - rewrite ReFacts.take_zero. cbn [drop append forallb length not_at_head].
    rewrite Hc. repeat split.
Qed.

(** [octet] on a group of digits followed by something else. *)
Lemma octet_app (a rest : string) :
  is_octet a = true -> not_at_head is_digit rest = true ->
  octet (a ++ rest) = Some (length a).
Proof.
  unfold is_octet, octet. intros Ha Hr.
  apply andb_prop in Ha as [Ha Hd]. rewrite (run_len_app _ _ _ Hd Hr).
  now rewrite Ha.
Qed.

Lemma octet_inv (s : string) (n : nat) :
  octet s = Some n ->
  exists a rest, s = a ++ rest /\ is_octet a = true /\ length a = n
                 /\ not_at_head is_digit rest = true.
Proof.
  unfold octet. destruct (_ && _) eqn:Hn; [|discriminate]. intros [= <-].
  destruct (run_len_split is_digit s) as (H1 & H2 & H3 & H4).
  exists (take (run_len is_digit s) s), (drop (run_len is_digit s) s).
  split; [exact H1|]. split; [|split; [exact H3|exact H4]].
  unfold is_octet. now rewrite H3, Hn, H2.
Qed.

Lemma dotted_app (a rest : string) (k : nat) :
  is_octet a = true -> not_at_head is_digit rest = true ->
  dotted (S k) (String "." (a ++ rest)) = dotted k rest.
Proof.
  intros Ha Hr. cbn [dotted]. rewrite (octet_app _ _ Ha Hr). now rewrite drop_app.
Qed.

Lemma dotted_inv (s : string) (k : nat) :
  dotted (S k) s = true ->
  exists a rest, s = String "." (a ++ rest) /\ is_octet a = true
                 /\ dotted k rest = true.
Proof.
  cbn [dotted]. destruct s as [|c r]; [discriminate|].
  destruct (Ascii.eqb_spec c ".") as [->|Hn].
  - destruct (octet r) as [d|] eqn:Ho; [|discriminate]. intros Hd.
    destruct (octet_inv _ _ Ho) as (a & rest & -> & Ha & Hl & _).
    exists a, rest. rewrite <- Hl, drop_app in Hd. auto.
  - destruct c as [[] [] [] [] [] [] [] []]; try discriminate. now elim Hn.
Qed.

Lemma dotted_end (s : string) :
  dotted 0 s = true -> s = "" \/ s = String "010" "".
Proof.
  cbn [dotted]. destruct s as [|c [|x y]]; [now left| |discriminate].
  intros H. apply Ascii.eqb_eq in H. subst. now right.
Qed.

Lemma append_cons_assoc (x : string) (c : ascii) (y z : string) :
  (x ++ String c y) ++ z = x ++ String c (y ++ z).
Proof. now rewrite append_assoc. Qed.

Lemma quad_tail (a b c d tail : string) :
  dotted_quad a b c d ++ tail
  = a ++ String "." (b ++ String "." (c ++ String "." (d ++ tail))).
Proof.
  unfold dotted_quad. cbn [append]. now rewrite !append_cons_assoc.
Qed.

(** The pattern of [is_ip_host] accepts exactly four groups of one to three
    digits separated by dots, with or without a final newline. *)
Lemma ipv4_like_spec (h : string) :
  ipv4_like h = true
  <-> exists a b c d,
        is_octet a = true /\ is_octet b = true /\ is_octet c = true
        /\ is_octet d = true
        /\ (h = dotted_quad a b c d \/ h = dotted_quad a b c d ++ String "010" "").
Proof.
  split.
  - unfold ipv4_like. destruct (octet h) as [n|] eqn:Ho; [|discriminate].
    destruct (octet_inv _ _ Ho) as (a & r1 & -> & Ha & Hl & _).
    rewrite <- Hl, drop_app. intros H.
    apply dotted_inv in H as (b & r2 & -> & Hb & H).
    apply dotted_inv in H as (c & r3 & -> & Hc & H).
    apply dotted_inv in H as (d & r4 & -> & Hd & H).
    exists a, b, c, d. repeat (split; [assumption|]).
    apply dotted_end in H as [-> | ->]; [left|right].
    + now rewrite <- quad_tail, append_empty_r.
    + now rewrite quad_tail.
  - intros (a & b & c & d & Ha & Hb & Hc & Hd & Hh).
    assert (H : forall tail, dotted 0 tail = true -> not_at_head is_digit tail = true ->
                ipv4_like (a ++ String "." (b ++ String "." (c ++ String "." (d ++ tail))))
                = true).
    { intros tail Ht Hnd. unfold ipv4_like.
      rewrite (octet_app a (String "." _) Ha eq_refl), drop_app.
      rewrite (dotted_app b (String "." _) _ Hb eq_refl).
      rewrite (dotted_app c (String "." _) _ Hc eq_refl).
      now rewrite (dotted_app _ _ _ Hd Hnd). }
    destruct Hh as [-> | ->].
    + rewrite <- (append_empty_r (dotted_quad a b c d)), quad_tail. now apply H.
    + rewrite quad_tail. now apply H.
Qed.

End IpFacts.

Module NormUrlFacts.
Import Chars PyStr PyRe Py Patterns PyText Urlscan Props CharFacts TextFacts.

Lemma rstrip_strip (w : string) : rstrip (strip w) = strip w.
Proof.
  unfold strip. apply NormFacts.rstrip_lstrip_fixed, NormFacts.rstrip_idem.
Qed.

Lemma strip_http (v : string) :
  strip v = v -> strip ("http://" ++ v) = "http://" ++ v.
Proof.
  intros Hv. assert (Hr : rstrip v = v) by (rewrite <- Hv; apply rstrip_strip).
  unfold strip. cbn [append].
  rewrite !NormFacts.rstrip_cons_nonspace by reflexivity. now rewrite Hr.
Qed.

Lemma normalise_url_cases (u : option string) :
  let v := strip (or_empty u) in
  normalise_url u
  = if negb (truthy v) then ""
    else if has_scheme_or_www v then v else "http://" ++ v.
Proof.
  cbn zeta. unfold normalise_url, has_scheme_or_www.
  destruct (truthy _); [|reflexivity]. cbn [negb].
  destruct (_ || _); reflexivity.
Qed.

Lemma normalise_url_fixed (v : string) :
  strip v = v -> truthy v = true -> has_scheme_or_www v = true ->
  normalise_url (Some v) = v.
Proof.
  intros Hs Ht Hp. rewrite normalise_url_cases. cbn [or_empty].
  now rewrite Hs, Ht, Hp.
Qed.

(** What [normalise_url] returns is empty, or a trimmed text that starts
    with a scheme or with [www.]; normalising it again changes nothing. *)
Lemma normalise_url_spec (u : option string) :
  let r := normalise_url u in
  (r = "" <-> strip (or_empty u) = "")
  /\ (r <> "" -> has_scheme_or_www r = true)
  /\ strip r = r
  /\ normalise_url (Some r) = r.
Proof.
  cbn zeta. rewrite normalise_url_cases.
  pose proof (NormFacts.strip_idem (or_empty u)) as Hv.
  destruct (strip (or_empty u)) as [|c v] eqn:Hs.
  - cbn. repeat split; auto.
  - cbn [truthy negb].
    destruct (has_scheme_or_www (String c v)) eqn:Hp.
    + split; [split; discriminate|]. split; [auto|]. split; [exact Hv|].
      now apply normalise_url_fixed.
    + assert (Hh : strip ("http://" ++ String c v) = "http://" ++ String c v)
        by now apply strip_http.
      split; [split; discriminate|]. split; [reflexivity|]. split; [exact Hh|].
      now apply normalise_url_fixed.
Qed.

Lemma read_rows_normal (url_field : string) (rows : list Census.row) :
  forall out,
    Forall (fun x => x <> "" /\ normalise_url (Some x) = x) out ->
    Forall (fun x => x <> "" /\ normalise_url (Some x) = x)
           (read_rows url_field rows out).
Proof.
  induction rows as [|row rest IH]; intros out Hout; [exact Hout|].
  cbn [read_rows]. apply IH.
  pose proof (normalise_url_spec (get_default row url_field (Some "")))
    as (_ & _ & _ & Hfix). cbn zeta in Hfix.
  remember (normalise_url (get_default row url_field (Some ""))) as r eqn:Hr.
  clear Hr. destruct r as [|c v]; [exact Hout|]. cbn [truthy].
  apply Forall_app. split; [exact Hout|]. constructor; [|constructor].
  split; [discriminate|exact Hfix].
Qed.

End NormUrlFacts.

Module DedupeFacts.
Import Chars PyStr PyRe Py Patterns PyText Urlscan Props CharFacts TextFacts.

Lemma subseq_refl {A : Type} (l : list A) : subseq l l.
Proof. induction l; constructor; assumption. Qed.

Lemma subseq_nil_l {A : Type} (l : list A) : subseq [] l.
Proof. induction l; constructor; assumption. Qed.

Lemma subseq_incl {A : Type} (l1 l2 : list A) : subseq l1 l2 -> incl l1 l2.
Proof.
  induction 1 as [|x l1 l2 _ IH|x l1 l2 _ IH]; intros y Hy.
  - exact Hy.
  - destruct Hy as [->|Hy]; [now left|right; now apply IH].
  - right. now apply IH.
Qed.

Lemma elem_In (x : string) (l : list string) : elem x l = true <-> In x l.
Proof.
  unfold elem. rewrite existsb_exists. split.
  - intros (y & Hy & He). apply String.eqb_eq in He. now subst.
  - intros H. exists x. split; [exact H|apply String.eqb_refl].
Qed.

Section Urls.
Variable urlparse : string -> result parsed.

(** The loop of [dedupe_urls] when every URL parses: it appends to [out] a
    subsequence of the URLs, one for each apex domain not seen before. *)
Lemma dedupe_loop_ok (urls : list string) :
  (forall u, In u urls -> exists p, urlparse u = Ok p) ->
  forall seen out,
    seen = map (apex_key urlparse) out -> NoDup seen ->
    exists kept,
      dedupe_loop urlparse urls seen out = Ok (out ++ kept)%list
      /\ subseq kept urls
      /\ NoDup (map (apex_key urlparse) (out ++ kept))
      /\ (forall u, In u urls ->
            In (apex_key urlparse u) (map (apex_key urlparse) (out ++ kept))).
Proof.
  induction urls as [|u rest IH]; intros Hp seen out Hseen Hnd.
  - exists []. rewrite app_nil_r. cbn [dedupe_loop]. subst seen.
    repeat split; [constructor|exact Hnd|intros u []].
  - destruct (Hp u (or_introl eq_refl)) as (p & Hu).
    assert (Hk : apex_key urlparse u
                 = apex_from_host (Some (or_empty (hostname p))))
      by (unfold apex_key; now rewrite Hu).
    cbn [dedupe_loop]. rewrite Hu. cbn [bind]. rewrite <- Hk.
    assert (Hrest : forall v, In v rest -> exists q, urlparse v = Ok q)
      by (intros v Hv; apply Hp; now right).
    destruct (elem (apex_key urlparse u) seen) eqn:He.
    + destruct (IH Hrest seen out Hseen Hnd) as (kept & Hr & Hs & Hn & Hc).
      exists kept. split; [exact Hr|]. split; [now constructor|].
      split; [exact Hn|]. intros v [<-|Hv]; [|now apply Hc].
      apply elem_In in He. rewrite Hseen in He.
      rewrite map_app, in_app_iff. now left.
    + assert (Hseen' : (seen ++ [apex_key urlparse u])%list
                       = map (apex_key urlparse) (out ++ [u])).
      { rewrite map_app, Hseen. reflexivity. }
      assert (Hnd' : NoDup (seen ++ [apex_key urlparse u])).
      { apply NoDup_app; [exact Hnd|repeat constructor; intros []|].
        intros x Hx [<-|[]]. apply elem_In in Hx. congruence. }
      destruct (IH Hrest _ _ Hseen' Hnd') as (kept & Hr & Hs & Hn & Hc).
      exists (u :: kept). rewrite <- app_assoc in Hr, Hn, Hc. cbn [app] in Hr, Hn, Hc.
      split; [exact Hr|]. split; [now constructor|]. split; [exact Hn|].
      intros v [<-|Hv]; [|now apply Hc].
      rewrite map_app, in_app_iff. right. now left.
Qed.

(** A URL that does not parse makes the loop raise. *)
Lemma dedupe_loop_raise (urls : list string) (u : string) (e : exn) :
  In u urls -> urlparse u = Raise e ->
  forall seen out, exists e', dedupe_loop urlparse urls seen out = Raise e'.
Proof.
  induction urls as [|v rest IH]; intros Hin Hu seen out; [destruct Hin|].
  cbn [dedupe_loop]. destruct (urlparse v) as [p|e'] eqn:Hv; cbn [bind].
  - assert (Hrest : In u rest).
    { destruct Hin as [->|Hin]; [congruence|exact Hin]. }
    destruct (elem _ seen); now apply IH.
  - now exists e'.
Qed.

Lemma first_segment_spec (p_path : string) :
  exists seg,
    first_segment p_path = "/" ++ seg
    /\ contains "/" seg = false
    /\ (seg = "" \/ exists a rest, split "/" (strip p_path) = a :: seg :: rest).
Proof.
  unfold first_segment.
  destruct (truthy (strip p_path) && negb (strip p_path =? "/"));
    [|exists ""; repeat split; now left].
  pose proof (split_nosep "/" (strip p_path)) as Hno.
  destruct (split "/" (strip p_path)) as [|a [|seg1 rest]];
    try (exists ""; repeat split; now left).
  destruct seg1 as [|c r]; [exists ""; repeat split; now left|].
  exists (String c r). cbn [truthy]. split; [reflexivity|].
  inversion Hno as [|? ? _ Hno']; subst. inversion Hno' as [|? ? Hseg _]; subst.
  split; [exact Hseg|]. right. now exists a, rest.
Qed.

End Urls.

Lemma in_firstn {A : Type} (n : nat) (l : list A) (x : A) :
  In x (firstn n l) -> In x l.
Proof.
  intros H. rewrite <- (firstn_skipn n l). apply in_or_app. now left.
Qed.

Section Sampling.
Variable shuffle : Z -> list string -> list string.
Hypothesis shuffle_permutes : forall seed l, Permutation (shuffle seed l) l.

Lemma sample_urls_ok (urls : list string) (limit : Z) (random_pick : bool) (seed : Z) :
  let out := sample_urls shuffle urls limit random_pick seed in
  let pool := if random_pick then shuffle seed urls else urls in
  ((limit = 0 \/ Z.of_nat (List.length urls) <= limit)%Z -> out = urls)
  /\ ((0 < limit < Z.of_nat (List.length urls))%Z ->
       out = firstn (Z.to_nat limit) pool
       /\ List.length out = Z.to_nat limit
       /\ (random_pick = false -> out = firstn (Z.to_nat limit) urls))
  /\ ((limit < 0)%Z ->
       out = firstn (List.length urls - Z.to_nat (- limit)) pool
       /\ (exists dropped,
             pool = (out ++ dropped)%list
             /\ List.length dropped = Nat.min (Z.to_nat (- limit)) (List.length urls))
       /\ List.length out = List.length urls - Z.to_nat (- limit)
       /\ (random_pick = false ->
           out = firstn (List.length urls - Z.to_nat (- limit)) urls))
  /\ incl out urls.
Proof.
  cbn zeta. unfold sample_urls.
  assert (Hperm : Permutation (if random_pick then shuffle seed urls else urls) urls).
  { destruct random_pick; [apply shuffle_permutes|apply Permutation_refl]. }
  pose proof (Permutation_length Hperm) as Hlen.
  assert (Hsame : random_pick = false ->
                  (if random_pick then shuffle seed urls else urls) = urls)
    by now intros ->.
  remember (if random_pick then shuffle seed urls else urls) as l eqn:Hl.
  assert (Hincl : forall k, incl (slice_to k l) urls).
  { intros k x Hx. apply (Permutation_in _ Hperm).
    unfold slice_to in Hx. destruct (0 <=? k)%Z; now apply in_firstn in Hx. }
  destruct (Z.eqb_spec limit 0) as [->|Hz]; cbn [negb andb].
  { repeat split; try lia; try reflexivity. apply incl_refl. }
  destruct (Z.ltb_spec limit (Z.of_nat (List.length urls))) as [Hlt|Hge].
  - split; [lia|]. split; [|split; [|apply Hincl]].
    + intros [Hpos _]. unfold slice_to.
      rewrite (proj2 (Z.leb_le 0 limit)) by lia.
      split; [reflexivity|]. split; [rewrite length_firstn; lia|].
      intros Hr. now rewrite (Hsame Hr).
    + intros Hneg. unfold slice_to.
      rewrite (proj2 (Z.leb_gt 0 limit)) by lia. rewrite Hlen.
      split; [reflexivity|]. split; [|split].
      * exists (skipn (List.length urls - Z.to_nat (- limit)) l).
        split; [symmetry; apply firstn_skipn|]. rewrite length_skipn. lia.
      * rewrite length_firstn. lia.
      * intros Hr. now rewrite (Hsame Hr).
  - split; [reflexivity|]. split; [lia|]. split; [lia|apply incl_refl].
Qed.
End Sampling.

End DedupeFacts.

Module CueTotalsFacts.
Import Chars PyStr PyRe Py Patterns PyText Urlscan Props Spec Cues.
Import DictFacts CuesFacts DedupeFacts.

(** The merged counts of a category, as [cue_totals] builds them: both
    passes are added to an empty dict. *)
Lemma merged_counts_added (raw norm : string) (phrases : list string) :
  NoDup phrases ->
  sum_counts (Images.add_counts (counted norm phrases [])
                (Images.add_counts (counted raw phrases []) []))
  = sum_over phrases (fun p => phrase_count p raw + phrase_count p norm).
Proof.
  intros Hp.
  assert (Hraw : NoDup (keys (counted raw phrases [])))
    by (apply counted_nodup; constructor).
  assert (Hnorm : NoDup (keys (counted norm phrases [])))
    by (apply counted_nodup; constructor).
  rewrite (sum_counts_over _ phrases).
  - unfold sum_over. f_equal. apply map_ext_in. intros p Hin.
    unfold get_default at 1. rewrite (add_counts_get _ Hnorm).
    pose proof (counted_default norm phrases p Hin) as Hn.
    pose proof (counted_default raw phrases p Hin) as Hr.
    unfold get_default in Hn, Hr |- *.
    rewrite (add_counts_get _ Hraw). unfold get_default. cbn [get].
    destruct (get (counted norm phrases []) p);
      destruct (get (counted raw phrases []) p); lia.
  - apply add_counts_nodup, add_counts_nodup. constructor.
  - exact Hp.
  - intros x Hx. apply add_counts_keys in Hx. destruct Hx as [Hx|Hx].
    + apply counted_keys in Hx. destruct Hx as [Hx|[]]. exact Hx.
    + apply add_counts_keys in Hx. destruct Hx as [Hx|[]].
      apply counted_keys in Hx. destruct Hx as [Hx|[]]. exact Hx.
Qed.

Lemma merge_cats_get (raw norm : dict string (dict string nat)) (cats : list string) :
  forall merged cat,
    get (merge_cats cats raw norm merged) cat
    = if elem cat cats
      then Some (Images.add_counts (get_default norm cat [])
                   (Images.add_counts (get_default raw cat []) []))
      else get merged cat.
Proof.
  induction cats as [|c rest IH]; intros merged cat; [reflexivity|].
  cbn [merge_cats]. rewrite IH. unfold elem. cbn [existsb].
  destruct (existsb (String.eqb cat) rest) eqn:He.
  - now rewrite orb_true_r.
  - rewrite orb_false_r. destruct (String.eqb_spec cat c) as [->|Hn].
    + apply get_set_same.
    + now apply get_set_other.
Qed.

Lemma merge_cats_nodup (raw norm : dict string (dict string nat)) (cats : list string) :
  forall merged,
    NoDup (keys merged) -> NoDup (keys (merge_cats cats raw norm merged)).
Proof.
  induction cats as [|c rest IH]; intros merged Hd; [exact Hd|].
  cbn [merge_cats]. apply IH. now apply nodup_set.
Qed.

Section SetOrder.
Variable set_iter : list string -> list string.
Hypothesis set_iter_elements : forall l x, In x (set_iter l) <-> In x l.

(** [cue_totals] makes two passes whatever the order of the set: the total
    of a category is the sum over its phrases of the raw count plus the
    count in the normalised text. *)
Lemma cue_totals_ok (text : option string) :
  exists totals,
    cue_totals set_iter text = Ok totals
    /\ forall cat phrases,
         In (cat, phrases) CUE_LEXICON ->
         get totals cat
         = Some (sum_over phrases
                   (fun p => phrase_count p (or_empty text)
                             + phrase_count p
                                 (Census.normalize_text (Some (or_empty text))))).
Proof.
  unfold cue_totals, normalize_text.
  destruct (detect_cues_ok (or_empty text)) as (raw & Hraw & Hnd_raw & Hget_raw).
  destruct (detect_cues_ok (Census.normalize_text (Some (or_empty text))))
    as (norm & Hnorm & Hnd_norm & Hget_norm).
  rewrite Hraw. cbn [bind]. rewrite Hnorm. cbn [bind].
  eexists. split; [reflexivity|].
  intros cat phrases Hin.
  pose proof (in_get _ _ _ lexicon_keys_nodup Hin) as Hlex.
  unfold summarize_counts. rewrite summarize_items_get.
  - rewrite merge_cats_get.
    assert (He : elem cat (set_iter (keys raw ++ keys norm)) = true).
    { apply elem_In, set_iter_elements, in_or_app. left.
      destruct (in_dec string_dec cat (keys raw)) as [Hk|Hk]; [exact Hk|].
      apply get_none in Hk. rewrite Hget_raw, Hlex in Hk. discriminate. }
    rewrite He. f_equal. unfold get_default.
    rewrite Hget_raw, Hget_norm, Hlex. cbn [option_map].
    now apply merged_counts_added, (lexicon_phrases_nodup cat).
  - apply merge_cats_nodup. constructor.
Qed.

End SetOrder.

End CueTotalsFacts.

(** ** Redaction of email addresses *)

Module RedactFacts.
Import Chars PyStr PyRe Py Patterns PyText NazarioScan Props CharFacts TextFacts IpFacts.

Lemma contains_drop (c : ascii) (n : nat) :
  forall s, contains c s = false -> contains c (drop n s) = false.
Proof.
  induction n as [|n IH]; intros [|a r] H; try exact H.
  cbn [drop]. apply IH. cbn [contains] in H. now apply orb_false_iff in H.
Qed.

Lemma email_no_at (prev : option ascii) (s : string) :
  contains "@" s = false -> EMAIL_RX prev s = None.
Proof.
  intros H. unfold EMAIL_RX.
  pose proof (contains_drop "@" (run_len is_local s) s H) as Hd.
  destruct (run_len is_local s); [reflexivity|].
  destruct (drop _ s) as [|c r]; [reflexivity|].
  cbn [contains] in Hd. apply orb_false_iff in Hd as [Hc _].
  destruct c as [[] [] [] [] [] [] [] []]; try reflexivity. discriminate.
Qed.

(** A text without [@] is left as it is. *)
Lemma sub_email_no_at (repl : string) (s : string) :
  forall prev, contains "@" s = false -> sub_from EMAIL_RX (fun _ => repl) prev s 0 = s.
Proof.
  induction s as [|c r IH]; intros prev H.
  - cbn [sub_from]. now rewrite email_no_at.
  - cbn [sub_from]. rewrite (email_no_at _ _ H).
    cbn [contains] in H. apply orb_false_iff in H as [_ H]. now rewrite IH.
Qed.

Lemma redact_no_at (s : string) :
  contains "@" s = false -> redact_email_addresses (Some s) = s.
Proof.
  intros H. destruct s as [|c r]; [reflexivity|].
  unfold redact_email_addresses, sub, sub_fn. now apply sub_email_no_at.
Qed.

(** *** No address is left *)

Lemma sub_email_prev (repl : string -> string) (s : string) :
  forall prev k, sub_from EMAIL_RX repl prev s k = sub_from EMAIL_RX repl None s k.
Proof.
  destruct s as [|c r]; intros prev k; [reflexivity|].
  cbn [sub_from]. destruct k as [|k]; reflexivity.
Qed.

Lemma email_positive (prev : option ascii) (s : string) : EMAIL_RX prev s <> Some 0.
Proof.
  unfold EMAIL_RX. destruct (run_len is_local s) as [|n]; [discriminate|].
  destruct (drop (S n) s) as [|c r]; [discriminate|].
  destruct c as [[] [] [] [] [] [] [] []]; try discriminate.
  destruct (domain_back _ _); cbn; discriminate.
Qed.

Lemma out_cons (c : ascii) (r : string) :
  redact_from (String c r) 0
  = match EMAIL_RX None (String c r) with
    | Some (S k) => REDACTED ++ redact_from r k
    | _ => String c (redact_from r 0)
    end.
Proof.
  unfold redact_from. cbn [sub_from].
  pose proof (email_positive None (String c r)) as Hp.
  destruct (EMAIL_RX None (String c r)) as [[|k]|]; [congruence| |];
    now rewrite sub_email_prev.
Qed.

Lemma out_nil (k : nat) : redact_from "" k = "".
Proof. destruct k; reflexivity. Qed.

(** Up to the first placeholder the output is the input, copied. *)
Lemma out_prefix (a : string) :
  bracket_free a = true ->
  forall r rest_o,
    redact_from r 0 = a ++ rest_o ->
    exists rest_r, r = a ++ rest_r /\ rest_o = redact_from rest_r 0.
Proof.
  induction a as [|x a IH]; intros Ha r rest_o Ho.
  - exists r. now split.
  - cbn [bracket_free forallb] in Ha. apply andb_prop in Ha as [Hx Ha].
    destruct r as [|c r]; [now rewrite out_nil in Ho|].
    rewrite out_cons in Ho. cbn [append] in Ho.
    destruct (EMAIL_RX None (String c r)) as [[|k]|].
    + injection Ho as -> Ho. destruct (IH Ha _ _ Ho) as (rr & -> & ->).
      now exists rr.
    + injection Ho as <- _. discriminate.
    + injection Ho as -> Ho. destruct (IH Ha _ _ Ho) as (rr & -> & ->).
      now exists rr.
Qed.

Lemma bracket_free_app (a b : string) :
  bracket_free (a ++ b) = bracket_free a && bracket_free b.
Proof.
  unfold bracket_free. induction a as [|c r IH]; [reflexivity|].
  cbn [append forallb]. now rewrite IH, andb_assoc.
Qed.

Lemma class_bracket_free (p : ascii -> bool) (a : string) :
  p "["%char = false -> forallb p a = true -> bracket_free a = true.
Proof.
  intros Hp. unfold bracket_free. induction a as [|c r IH]; [reflexivity|].
  cbn [forallb]. intros H. apply andb_prop in H as [Hc Hr]. rewrite (IH Hr).
  destruct (Ascii.eqb_spec c "[") as [->|_]; [congruence|reflexivity].
Qed.

Lemma run_len_ge (p : ascii -> bool) (a x : string) :
  forallb p a = true -> length a <= run_len p (a ++ x).
Proof.
  induction a as [|c r IH]; intros H; [cbn; lia|].
  cbn [forallb] in H. apply andb_prop in H as [Hc Hr].
  cbn [append run_len length]. rewrite Hc. specialize (IH Hr). lia.
Qed.

(** A prefix of a run. *)
Lemma run_len_take (p : ascii -> bool) (k : nat) :
  forall s,
    k <= run_len p s ->
    s = take k s ++ drop k s /\ forallb p (take k s) = true
    /\ length (take k s) = k.
Proof.
  induction k as [|k IH]; intros s Hk.
  - rewrite ReFacts.take_zero. destruct s; repeat split.
  - destruct s as [|c r]; [cbn in Hk; lia|].
    cbn [run_len] in Hk. destruct (p c) eqn:Hc; [|lia].
    destruct (IH r ltac:(lia)) as (H1 & H2 & H3).
    rewrite ReFacts.take_cons. cbn [drop append forallb length].
    rewrite Hc, H2, H3, <- H1. repeat split.
Qed.

Lemma domain_back_none (K : nat) (s : string) :
  domain_back K s = None <-> forall k, 1 <= k <= K -> tld (drop k s) = None.
Proof.
  induction K as [|K IH]; cbn [domain_back].
  - split; [intros _ k Hk; lia|reflexivity].
  - destruct (tld (drop (S K) s)) eqn:Ht.
    + split; [discriminate|]. intros H. specialize (H (S K) ltac:(lia)). congruence.
    + rewrite IH. split; intros H k Hk.
      * destruct (Nat.eq_dec k (S K)) as [->|Hn]; [exact Ht|apply H; lia].
      * apply H. lia.
Qed.

Lemma tld_inv (s : string) (t : nat) :
  tld s = Some t ->
  exists letters rest,
    s = String "." (letters ++ rest) /\ forallb is_letter letters = true
    /\ 2 <= length letters.
Proof.
  unfold tld. destruct s as [|c r]; [discriminate|].
  destruct (Ascii.eqb_spec c ".") as [->|Hn].
  - destruct (2 <=? run_len is_letter r)%nat eqn:Hl; [|discriminate]. intros _.
    destruct (run_len_split is_letter r) as (H1 & H2 & H3 & _).
    exists (take (run_len is_letter r) r), (drop (run_len is_letter r) r).
    split; [now rewrite <- H1|]. split; [exact H2|].
    rewrite H3. now apply Nat.leb_le.
  - destruct c as [[] [] [] [] [] [] [] []]; try discriminate. now elim Hn.
Qed.

Lemma tld_app (letters rest : string) :
  forallb is_letter letters = true -> 2 <= length letters ->
  tld (String "." (letters ++ rest)) <> None.
Proof.
  intros Hl Hn. unfold tld. pose proof (run_len_ge _ _ rest Hl) as Hr.
  rewrite (proj2 (Nat.leb_le 2 _)) by lia. discriminate.
Qed.

Lemma drop_length_app (a rest : string) (k : nat) :
  length a = k -> drop k (a ++ rest) = rest.
Proof. intros <-. apply drop_app. Qed.

(** A position where the input has no match has none in the output. *)
Lemma email_copied (c : ascii) (r : string) :
  EMAIL_RX None (String c r) = None -> EMAIL_RX None (String c (redact_from r 0)) = None.
Proof.
  intros Hr. unfold EMAIL_RX at 1.
  destruct (run_len is_local (String c (redact_from r 0))) as [|n] eqn:Hn; [reflexivity|].
  destruct (drop (S n) (String c (redact_from r 0))) as [|x o2] eqn:Hd; [reflexivity|].
  destruct (Ascii.eqb_spec x "@") as [->|Hx];
    [|destruct x as [[] [] [] [] [] [] [] []]; try reflexivity; now elim Hx].
  cbn [run_len] in Hn. destruct (is_local c) eqn:Hc; [|discriminate].
  injection Hn as Hn. cbn [drop] in Hd.
  destruct (run_len_split is_local (redact_from r 0)) as (H1 & H2 & H3 & _).
  rewrite Hn, Hd in H1. rewrite Hn in H2, H3.
  assert (Hfree : bracket_free (take n (redact_from r 0) ++ "@") = true).
  { rewrite bracket_free_app, (class_bracket_free is_local) by (reflexivity || exact H2).
    reflexivity. }
  assert (Ho : redact_from r 0 = (take n (redact_from r 0) ++ "@") ++ o2).
  { now rewrite append_assoc. }
  destruct (out_prefix _ Hfree _ _ Ho) as (r2 & Hr2 & Ho2).
  remember (take n (redact_from r 0)) as L eqn:HL. clear HL H1 Ho.
  rewrite append_assoc in Hr2. cbn [append] in Hr2. subst r o2.
  (* the input at this position *)
  unfold EMAIL_RX in Hr. cbn [run_len] in Hr. rewrite Hc in Hr.
  rewrite (run_len_app is_local L (String "@" r2) H2 eq_refl) in Hr.
  cbn [drop] in Hr. rewrite drop_app in Hr.
  destruct (domain_back (run_len is_domain r2) r2) eqn:Hback; [discriminate|].
  clear Hr. rewrite domain_back_none in Hback.
  assert (Hgoal : domain_back (run_len is_domain (redact_from r2 0)) (redact_from r2 0) = None);
    [|now rewrite Hgoal].
  apply domain_back_none. intros k Hk.
  destruct (tld (drop k (redact_from r2 0))) as [t|] eqn:Ht; [exfalso|reflexivity].
  destruct (run_len_take is_domain k (redact_from r2 0) ltac:(lia)) as (D1 & D2 & D3).
  destruct (tld_inv _ _ Ht) as (letters & rest & Hrest & Hletters & Hlen).
  rewrite Hrest in D1.
  remember (take k (redact_from r2 0)) as D eqn:HD. clear HD.
  assert (Hfree2 : bracket_free (D ++ String "." letters) = true).
  { rewrite bracket_free_app, (class_bracket_free is_domain D) by (reflexivity || exact D2).
    cbn [bracket_free forallb]. cbn [andb negb Ascii.eqb Bool.eqb].
    apply (class_bracket_free is_letter); [reflexivity|exact Hletters]. }
  assert (Ho3 : redact_from r2 0 = (D ++ String "." letters) ++ rest).
  { rewrite D1 at 1. now rewrite append_assoc. }
  destruct (out_prefix _ Hfree2 _ _ Ho3) as (r3 & Hr3 & _).
  rewrite append_assoc in Hr3. cbn [append] in Hr3.
  assert (Hk' : 1 <= k <= run_len is_domain r2).
  { split; [lia|]. rewrite Hr3, <- D3. now apply run_len_ge. }
  specialize (Hback k Hk'). rewrite Hr3, (drop_length_app _ _ _ D3) in Hback.
  now apply (tld_app letters r3 Hletters Hlen).
Qed.

Lemma count_email_cons (prev : option ascii) (c : ascii) (o : string) :
  EMAIL_RX None (String c o) = None ->
  count_from EMAIL_RX prev (String c o) 0 = count_from EMAIL_RX (Some c) o 0.
Proof.
  intros H. cbn [count_from].
  change (EMAIL_RX prev (String c o)) with (EMAIL_RX None (String c o)).
  now rewrite H.
Qed.

(** No match starts inside the placeholder. *)
Lemma count_placeholder (prev : option ascii) (o : string) :
  (forall p, count_from EMAIL_RX p o 0 = 0) ->
  count_from EMAIL_RX prev (REDACTED ++ o) 0 = 0.
Proof.
  intros Ho. unfold REDACTED. cbn [append].
  repeat (rewrite count_email_cons by reflexivity). apply Ho.
Qed.

Lemma out_no_match (s : string) :
  forall k prev, count_from EMAIL_RX prev (redact_from s k) 0 = 0.
Proof.
  induction s as [|c r IH]; intros k prev.
  - rewrite out_nil. reflexivity.
  - destruct k as [|k];
      [|unfold redact_from; cbn [sub_from]; rewrite sub_email_prev; apply IH].
    rewrite out_cons.
    destruct (EMAIL_RX None (String c r)) as [[|n]|] eqn:He.
    + now elim (email_positive None (String c r)).
    + apply count_placeholder. intros p. apply IH.
    + rewrite count_email_cons by now apply email_copied. apply IH.
Qed.

(** After redaction the pattern of an address matches nowhere. *)
Lemma redact_no_address (s : option string) :
  finditer_count EMAIL_RX (redact_email_addresses s) = 0.
Proof.
  destruct s as [[|c r]|]; try reflexivity.
  unfold redact_email_addresses, sub, sub_fn, finditer_count.
  apply (out_no_match (String c r) 0).
Qed.

End RedactFacts.

(** ** Columns, rows and the summary of [src/nazario.py] *)

Module ScanFacts.
Import Chars PyStr PyRe Py Patterns Extras PyText Csv NazarioScan Props.
Import CharFacts TextFacts DictFacts CuesFacts DedupeFacts.

Lemma classify_filter (header : list string) :
  forall subj text html,
    classify (combine (map column_key header) header) subj text html
    = ((subj ++ filter is_subject_col header)%list,
       (text ++ filter is_body_col header)%list,
       (html ++ filter is_html_col header)%list).
Proof.
  induction header as [|h rest IH]; intros subj text html.
  - cbn. now rewrite !app_nil_r.
  - cbn [map combine classify filter]. rewrite IH.
    unfold is_subject_col, is_body_col, is_html_col.
    destruct (elem (column_key h) LIKELY_SUBJECT_KEYS),
             (elem (column_key h) LIKELY_BODY_KEYS),
             (elem (column_key h) LIKELY_HTML_KEYS);
      rewrite <- ?app_assoc; reflexivity.
Qed.

Lemma take_all_filter (header : list string) :
  forall text,
    take_all (combine (map column_key header) header) text
    = (text ++ filter (fun h => negb (is_metadata_col h)) header)%list.
Proof.
  induction header as [|h rest IH]; intros text.
  - cbn. now rewrite app_nil_r.
  - cbn [map combine take_all filter]. rewrite IH. unfold is_metadata_col.
    destruct (elem (column_key h) METADATA_KEYS); cbn [negb];
      rewrite <- ?app_assoc; reflexivity.
Qed.

(** [pick_columns] by filters on the header. *)
Lemma pick_columns_filter (header : list string) :
  pick_columns (Some header)
  = (filter is_subject_col header,
     match filter is_body_col header, filter is_html_col header with
     | [], [] => filter (fun h => negb (is_metadata_col h)) header
     | text, _ => text
     end,
     filter is_html_col header).
Proof.
  unfold pick_columns. change (fun h => lower (strip h)) with column_key.
  rewrite classify_filter. cbn [app].
  destruct (filter is_body_col header); [|reflexivity].
  destruct (filter is_html_col header); [|reflexivity].
  now rewrite take_all_filter.
Qed.

Lemma subject_not_body (h : string) : is_subject_col h = true -> is_body_col h = false.
Proof.
  unfold is_subject_col, is_body_col. intros H. apply elem_In in H.
  assert (Hall : List.forallb (fun k => negb (elem k LIKELY_BODY_KEYS))
                              LIKELY_SUBJECT_KEYS = true) by reflexivity.
  rewrite forallb_forall in Hall. apply negb_true_iff. exact (Hall _ H).
Qed.

Lemma subject_not_metadata (h : string) :
  is_subject_col h = true -> is_metadata_col h = false.
Proof.
  unfold is_subject_col, is_metadata_col. intros H. apply elem_In in H.
  assert (Hall : List.forallb (fun k => negb (elem k METADATA_KEYS))
                              LIKELY_SUBJECT_KEYS = true) by reflexivity.
  rewrite forallb_forall in Hall. apply negb_true_iff. exact (Hall _ H).
Qed.

(** The totals of one pass of [detect_cues]. *)
Lemma summarize_detect (text : string) (res : dict string (dict string nat)) :
  Cues.detect_cues (Some text) = Ok res ->
  forall cat phrases,
    In (cat, phrases) Cues.CUE_LEXICON ->
    get (Cues.summarize_counts res) cat
    = Some (Spec.sum_over phrases (fun p => Spec.phrase_count p text)).
Proof.
  intros Hres cat phrases Hin.
  destruct (detect_cues_ok text) as (res' & Hres' & Hnd & Hget).
  rewrite Hres in Hres'. injection Hres' as <-.
  pose proof (in_get _ _ _ lexicon_keys_nodup Hin) as Hlex.
  unfold Cues.summarize_counts. rewrite (summarize_items_get _ Hnd).
  rewrite Hget, Hlex. cbn [option_map get]. f_equal.
  pose proof (lexicon_phrases_nodup _ _ Hin) as Hp.
  rewrite (sum_counts_over _ phrases).
  - unfold Spec.sum_over. f_equal. apply map_ext_in. intros p Hpin.
    now apply counted_default.
  - apply counted_nodup. constructor.
  - exact Hp.
  - intros x Hx. apply counted_keys in Hx. now destruct Hx as [Hx|[]].
Qed.

(** [detect_with_extras] of [src/nazario.py] makes one pass, over the
    deobfuscated text, and counts the heuristics there too. *)
Lemma nazario_detect_ok (text : string) :
  exists totals,
    Nazario.detect_with_extras (Some text)
    = Ok (totals, count_extras (Nazario.deobfuscate_iocs (Some text)))
    /\ forall cat phrases,
         In (cat, phrases) Cues.CUE_LEXICON ->
         get totals cat
         = Some (Spec.sum_over phrases
                   (fun p => Spec.phrase_count p (Nazario.deobfuscate_iocs (Some text)))).
Proof.
  unfold Nazario.detect_with_extras.
  destruct (detect_cues_ok (Nazario.deobfuscate_iocs (Some text)))
    as (res & Hres & _).
  rewrite Hres. cbn [bind]. eexists. split; [reflexivity|].
  now apply summarize_detect.
Qed.

Section Rows.
Variable decode_mime_words : string -> string.

Lemma scan_row_ok (path : string) (cols : list string * list string * list string)
      (idx : nat) (row : Census.row) :
  exists meta text_len totals extras,
    scan_row decode_mime_words path cols idx row
    = Ok (Scanned (path ++ "#row=" ++ str_of_nat idx) meta text_len totals extras).
Proof.
  unfold scan_row. destruct cols as [[subj_cols text_cols] html_cols].
  destruct (build_text_from_csv_row _ _ _ _ _) as [meta raw_text].
  destruct (nazario_detect_ok raw_text) as (totals & Hd & _).
  rewrite Hd. cbn [bind]. repeat eexists.
Qed.

Lemma scan_rows_ok (path : string) (cols : list string * list string * list string)
      (rs : list Census.row) :
  forall idx results,
  exists es,
    scan_rows decode_mime_words path cols idx rs results = ((results ++ es)%list, true)
    /\ List.length es = List.length rs
    /\ List.forallb is_scanned es = true.
Proof.
  induction rs as [|row rest IH]; intros idx results.
  - exists []. now rewrite app_nil_r.
  - cbn [scan_rows].
    destruct (scan_row_ok path cols idx row) as (m & l & t & e & Hrow).
    rewrite Hrow.
    destruct (IH (S idx) (results ++ [Scanned (path ++ "#row=" ++ str_of_nat idx) m l t e])%list)
      as (es & Hes & Hlen & Hall).
    exists (Scanned (path ++ "#row=" ++ str_of_nat idx) m l t e :: es).
    rewrite Hes, <- app_assoc. cbn [app List.length List.forallb is_scanned andb].
    repeat split; [now rewrite Hlen|exact Hall].
Qed.

Lemma scan_rows_from (path : string) (cols : list string * list string * list string)
      (rs : list Census.row) (idx : nat) (results : list entry) :
  scan_rows decode_mime_words path cols idx rs results
  = ((results ++ fst (scan_rows decode_mime_words path cols idx rs []))%list, true).
Proof.
  revert idx results. induction rs as [|row rest IH]; intros idx results.
  - cbn. now rewrite app_nil_r.
  - cbn [scan_rows].
    destruct (scan_row_ok path cols idx row) as (m & l & t & e & Hrow).
    rewrite Hrow. rewrite (IH (S idx) (results ++ _)%list), (IH (S idx) ([] ++ _)%list).
    cbn [fst app]. now rewrite <- app_assoc.
Qed.

(** [scan_csv]: a file read to its end under utf-8 gives one entry for each
    row; when the first attempt stops short its entries stay in the list and
    those of the second attempt come after them. *)
Lemma scan_csv_spec (path : string) (utf8 latin1 : reading) :
  scan_csv decode_mime_words path utf8 latin1
  = if completed utf8 then row_entries decode_mime_words path utf8
    else if completed latin1
         then (row_entries decode_mime_words path utf8
               ++ row_entries decode_mime_words path latin1)%list
         else (row_entries decode_mime_words path utf8
               ++ row_entries decode_mime_words path latin1
               ++ [Failed path "Failed to read CSV with utf-8 or latin-1"])%list.
Proof.
  unfold scan_csv, row_entries. cbn [scan_attempts].
  rewrite (scan_rows_from path _ (rows utf8) 1 []). cbn [app andb].
  destruct (completed utf8); [reflexivity|].
  rewrite (scan_rows_from path _ (rows latin1) 1 _). cbn [andb].
  destruct (completed latin1); [reflexivity|]. now rewrite <- app_assoc.
Qed.

Lemma scan_rows_nth (path : string) (cols : list string * list string * list string)
      (rs : list Census.row) :
  forall idx i e,
    nth_error (fst (scan_rows decode_mime_words path cols idx rs [])) i = Some e ->
    exists meta text_len totals extras,
      e = Scanned (path ++ "#row=" ++ str_of_nat (idx + i)) meta text_len totals extras.
Proof.
  induction rs as [|row rest IH]; intros idx i e Hi.
  - cbn in Hi. now destruct i.
  - cbn [scan_rows] in Hi.
    destruct (scan_row_ok path cols idx row) as (m & l & t & x & Hrow).
    rewrite Hrow in Hi. rewrite (scan_rows_from path cols rest (S idx) _) in Hi.
    cbn [fst app] in Hi. destruct i as [|i].
    + cbn in Hi. injection Hi as <-. rewrite Nat.add_0_r. now exists m, l, t, x.
    + cbn [nth_error] in Hi. destruct (IH _ _ _ Hi) as (m' & l' & t' & x' & ->).
      replace (S idx + i) with (idx + S i) by lia. now exists m', l', t', x'.
Qed.

(** The entry of a row is the one [scan_row] makes of it. *)
Lemma scan_rows_row (path : string) (cols : list string * list string * list string)
      (rs : list Census.row) :
  forall idx e,
    In e (fst (scan_rows decode_mime_words path cols idx rs [])) ->
    exists i row, scan_row decode_mime_words path cols i row = Ok e.
Proof.
  induction rs as [|row rest IH]; intros idx e Hin.
  - destruct Hin.
  - cbn [scan_rows] in Hin.
    destruct (scan_row_ok path cols idx row) as (m & l & t & x & Hrow).
    rewrite Hrow in Hin. rewrite (scan_rows_from path cols rest (S idx) _) in Hin.
    cbn [fst app] in Hin. destruct Hin as [<-|Hin].
    + now exists idx, row.
    + exact (IH _ _ Hin).
Qed.

(** The subject and the contacts of a scanned row hold no address. *)
Lemma scan_row_redacted (path : string) (cols : list string * list string * list string)
      (idx : nat) (row : Census.row) (e : entry) :
  scan_row decode_mime_words path cols idx row = Ok e ->
  exists p meta text_len totals extras,
    e = Scanned p meta text_len totals extras
    /\ finditer_count EMAIL_RX (subject meta) = 0
    /\ finditer_count EMAIL_RX (from meta) = 0
    /\ finditer_count EMAIL_RX (to meta) = 0.
Proof.
  unfold scan_row. destruct cols as [[subj_cols text_cols] html_cols].
  destruct (build_text_from_csv_row _ _ _ _ _) as [meta raw_text].
  destruct (nazario_detect_ok raw_text) as (totals & Hd & _).
  rewrite Hd. cbn [bind]. intros [= <-]. do 5 eexists.
  split; [reflexivity|]. cbn [subject from to].
  split; [exact (RedactFacts.redact_no_address (Some (get_default meta "subject" "")))|].
  split; [exact (RedactFacts.redact_no_address (Some (get_default meta "from" "")))|].
  exact (RedactFacts.redact_no_address (Some (get_default meta "to" ""))).
Qed.

Lemma row_entries_nth (path : string) (a : reading) (i : nat) (e : entry) :
  nth_error (row_entries decode_mime_words path a) i = Some e ->
  exists meta text_len totals extras,
    e = Scanned (path ++ "#row=" ++ str_of_nat (S i)) meta text_len totals extras.
Proof. unfold row_entries. apply (scan_rows_nth path _ (rows a) 1 i e). Qed.

Lemma row_entries_ok (path : string) (a : reading) :
  List.length (row_entries decode_mime_words path a) = List.length (rows a)
  /\ List.forallb is_scanned (row_entries decode_mime_words path a) = true.
Proof.
  unfold row_entries.
  destruct (scan_rows_ok path
              (pick_columns (Some match fieldnames a with Some h => h | None => [] end))
              (rows a) 1 []) as (es & Hes & Hlen & Hall).
  rewrite Hes. cbn [fst app]. now split.
Qed.

End Rows.

End ScanFacts.

(** ** [save_csv] and the summaries *)

Module CsvFacts.
Import Chars PyStr PyRe Py Patterns Extras PyText Csv Props.
Import CharFacts TextFacts DictFacts CuesFacts DedupeFacts.

Lemma replace_char_cons (c a : ascii) (new r : string) :
  replace_from (String c "") new (String a r) 0
  = if Ascii.eqb c a then new ++ replace_from (String c "") new r 0
    else String a (replace_from (String c "") new r 0).
Proof.
  cbn [replace_from startswith length Nat.sub]. now rewrite andb_true_r.
Qed.

(** Replacing a character by a space removes it and brings in no other
    character than the space. *)
Lemma replace_char_gone (c : ascii) (s : string) :
  Ascii.eqb c " " = false -> contains c (replace (String c "") " " s) = false.
Proof.
  intros Hc. unfold replace. induction s as [|a r IH]; [reflexivity|].
  rewrite replace_char_cons. destruct (Ascii.eqb_spec c a) as [->|Hca].
  - cbn [append contains]. rewrite IH. now rewrite Ascii.eqb_sym, Hc.
  - cbn [contains]. rewrite IH, orb_false_r. apply Ascii.eqb_neq. congruence.
Qed.

Lemma replace_char_keeps (c d : ascii) (s : string) :
  Ascii.eqb d " " = false -> contains d s = false ->
  contains d (replace (String c "") " " s) = false.
Proof.
  intros Hd. unfold replace. induction s as [|a r IH]; [reflexivity|].
  cbn [contains]. intros H. apply orb_false_iff in H as [Ha Hr].
  rewrite replace_char_cons. destruct (Ascii.eqb c a).
  - cbn [append contains]. rewrite (IH Hr). now rewrite Ascii.eqb_sym, Hd.
  - cbn [contains]. now rewrite Ha, (IH Hr).
Qed.

Lemma clean_one_line (row : dict string cell) (h : string) :
  one_line (clean row h) = true.
Proof.
  unfold one_line, clean.
  rewrite (replace_char_gone "013") by reflexivity.
  rewrite (replace_char_keeps "013" "010") by
    (reflexivity || apply replace_char_gone; reflexivity).
  reflexivity.
Qed.

Lemma replace_char_absent (c : ascii) (new s : string) :
  contains c s = false -> replace (String c "") new s = s.
Proof.
  unfold replace. induction s as [|a r IH]; [reflexivity|].
  cbn [contains]. intros H. apply orb_false_iff in H as [Ha Hr].
  rewrite replace_char_cons, (Ascii.eqb_sym c a), Ha. now rewrite (IH Hr).
Qed.

Lemma digits_no_char (c : ascii) (s : string) :
  is_digit c = false -> forallb is_digit s = true -> contains c s = false.
Proof.
  intros Hc. induction s as [|a r IH]; [reflexivity|].
  cbn [forallb contains]. intros H. apply andb_prop in H as [Ha Hr].
  rewrite (IH Hr). destruct (Ascii.eqb_spec a c) as [->|_]; [congruence|reflexivity].
Qed.

Lemma uint_digits (d : Decimal.uint) :
  forallb is_digit (NilEmpty.string_of_uint d) = true.
Proof. induction d; cbn [NilEmpty.string_of_uint forallb]; try exact IHd; reflexivity. Qed.

(** [str] of a count is made of decimal digits. *)
Lemma str_of_nat_digits (n : nat) : forallb is_digit (str_of_nat n) = true.
Proof.
  unfold str_of_nat, NilZero.string_of_uint.
  destruct (Nat.to_uint n); try reflexivity; apply uint_digits.
Qed.

Lemma clean_int (row : dict string cell) (h : string) (n : nat) :
  get row h = Some (Int n) -> clean row h = str_of_nat n.
Proof.
  intros H. unfold clean, get_default. rewrite H. cbn [str].
  pose proof (str_of_nat_digits n) as Hd.
  rewrite (replace_char_absent "010") by (apply digits_no_char; [reflexivity|exact Hd]).
  apply replace_char_absent, digits_no_char; [reflexivity|exact Hd].
Qed.

Lemma field_map (f : string -> string) (headers : list string) (col : string) :
  field headers (map f headers) col
  = if elem col headers then Some (f col) else None.
Proof.
  unfold field, elem. induction headers as [|h r IH]; [reflexivity|].
  cbn [map combine get existsb]. change (keqb col h) with (String.eqb col h).
  destruct (String.eqb_spec col h) as [->|_]; [reflexivity|exact IH].
Qed.

(** The table [save_csv] writes: the columns of the first row, and for each
    row its values under these columns, on one line each. *)
Lemma save_csv_spec (first : dict string cell) (rest : list (dict string cell)) :
  exists lines,
    save_csv (first :: rest) = Table (keys first) lines
    /\ List.length lines = S (List.length rest)
    /\ (forall line, In line lines ->
          List.length line = List.length (keys first)
          /\ List.forallb one_line line = true)
    /\ (forall i row, nth_error (first :: rest) i = Some row ->
          nth_error lines i = Some (map (clean row) (keys first))).
Proof.
  eexists. split; [reflexivity|]. split; [now rewrite length_map|]. split.
  - intros line Hin. apply in_map_iff in Hin as (row & <- & _).
    rewrite length_map. split; [reflexivity|].
    apply forallb_forall. intros x Hx. apply in_map_iff in Hx as (h & <- & _).
    apply clean_one_line.
  - intros i row Hi. now rewrite nth_error_map, Hi.
Qed.

Lemma nth_error_map_some {A B : Type} (f : A -> B) (l : list A) (i : nat) (x : A) :
  nth_error l i = Some x -> nth_error (map f l) i = Some (f x).
Proof. intros H. now rewrite nth_error_map, H. Qed.

(** *** The summary of [src/nazario.py] *)

Lemma nazario_keys (e : NazarioScan.entry) :
  keys (NazarioScan.flat_row e)
  = (NAZARIO_COLUMNS ++ if is_scanned e then [] else ["error"])%list.
Proof. destruct e; reflexivity. Qed.

Lemma category_of_column :
  map (replace "sum_" "") NazarioScan.CATEGORY_COLUMNS = keys Cues.CUE_LEXICON.
Proof. reflexivity. Qed.

Lemma nazario_sum (path : string) (meta : NazarioScan.meta_pub) (text_len : nat)
      (totals : dict string nat) (extras : Extras.extras) (cat : string) :
  In cat (keys Cues.CUE_LEXICON) ->
  get (NazarioScan.flat_row (NazarioScan.Scanned path meta text_len totals extras))
      ("sum_" ++ cat)
  = Some (Int (get_default totals cat 0)).
Proof.
  intros Hin. cbn in Hin.
  repeat (destruct Hin as [<-|Hin]; [reflexivity|]). destruct Hin.
Qed.

Lemma nazario_error_free (e : NazarioScan.entry) (rows : list NazarioScan.entry) :
  is_scanned e = true ->
  forall line,
    In line (map (fun row => map (clean row) (keys (NazarioScan.flat_row e)))
                 (map NazarioScan.flat_row rows)) ->
    field (keys (NazarioScan.flat_row e)) line "error" = None.
Proof.
  intros He line Hin. apply in_map_iff in Hin as (row & <- & _).
  rewrite field_map, nazario_keys, He. reflexivity.
Qed.

(** *** The summary of [src/images.py] *)

Lemma images_keys (e : ImagesScan.entry) :
  keys (ImagesScan.flat_row e)
  = match e with
    | ImagesScan.Scanned _ _ _ _ => IMAGES_COLUMNS
    | ImagesScan.Failed _ _ => ["path"; "text_len"; "error"]
    end.
Proof. destruct e; reflexivity. Qed.

Lemma images_sum (path : string) (text_len : nat)
      (totals : dict string nat) (extras : Extras.extras) (cat : string) :
  In cat (keys Cues.CUE_LEXICON) ->
  get (ImagesScan.flat_row (ImagesScan.Scanned path text_len totals extras))
      ("sum_" ++ cat)
  = Some (Int (get_default totals cat 0)).
Proof.
  intros Hin. cbn in Hin.
  repeat (destruct Hin as [<-|Hin]; [reflexivity|]). destruct Hin.
Qed.

End CsvFacts.

(** ** The scale factor of [ocr_image] *)

Module OcrFacts.
Import ImagesScan.

Local Open Scope Z_scope.

(** The binary64 quotient of 800 by a side below 800 has the integer part of
    the exact quotient. *)
Lemma quotient_table :
  List.forallb
    (fun n => match int_of_float (Census.float_of_Z 800 / Census.float_of_Z (Z.of_nat n)) with
              | Some k => k =? 800 / Z.of_nat n
              | None => false
              end)
    (seq 1 799) = true.
Proof. vm_compute. reflexivity. Qed.

Lemma scaled_side_table :
  List.forallb
    (fun n => let s := Z.of_nat n in
              let k := Z.max 2 (800 / s) in
              (534 <=? k * s) && (k * s <=? 1598))
    (seq 1 799) = true.
Proof. vm_compute. reflexivity. Qed.

Lemma quotient_exact (s : Z) :
  1 <= s < 800 ->
  int_of_float (Census.float_of_Z 800 / Census.float_of_Z s) = Some (800 / s).
Proof.
  intros Hs. pose proof quotient_table as H. rewrite forallb_forall in H.
  specialize (H (Z.to_nat s)). rewrite Z2Nat.id in H by lia.
  assert (Hin : In (Z.to_nat s) (seq 1 799)) by (apply in_seq; lia).
  specialize (H Hin). destruct (int_of_float _) as [k|]; [|discriminate].
  apply Z.eqb_eq in H. now subst.
Qed.

Lemma scale_factor_spec (w h : Z) :
  Z.min w h < 800 ->
  scale_factor w h = Some (Z.max 2 (800 / Z.max 1 (Z.min w h))).
Proof.
  intros Hlt. unfold scale_factor. remember (Z.min w h) as s eqn:Hs. clear Hs.
  destruct (Z.ltb_spec s 1) as [Hs|Hs].
  - rewrite (Z.max_l 1 s) by lia. reflexivity.
  - rewrite (Z.max_r 1 s) by lia. rewrite quotient_exact by lia.
    f_equal. destruct (Z.ltb_spec (800 / s) 2); lia.
Qed.

Lemma scaled_side (s : Z) :
  1 <= s < 800 -> 534 <= Z.max 2 (800 / s) * s <= 1598.
Proof.
  intros Hs. pose proof scaled_side_table as H. rewrite forallb_forall in H.
  specialize (H (Z.to_nat s)). cbn zeta in H. rewrite Z2Nat.id in H by lia.
  assert (Hin : In (Z.to_nat s) (seq 1 799)) by (apply in_seq; lia).
  specialize (H Hin). apply andb_prop in H as [H1 H2]. lia.
Qed.

End OcrFacts.

(** ** The tallies of the census *)

Module TallyFacts.
Import Chars PyStr PyRe Py Patterns PyText Census Spec Props.
Import DictFacts YearFacts CensusFacts DedupeFacts.

Lemma year_of_resolved (filename : string) (r : row) (a : audit) :
  fst (resolved (safe_get r "date") filename a) = year_of (filename, r).
Proof.
  unfold resolved, year_of. cbn [fst snd].
  destruct (first_year (safe_get r "date")); [reflexivity|].
  destruct (first_year filename); reflexivity.
Qed.

(** What one email-like row changes. *)
Lemma email_row_step (filename : string) (r : row) (c : census) (f : in_file) :
  let sig := build_signature r in
  let yr := year_of (filename, r) in
  exists c' f',
    email_row filename r c f = Ok (c', f')
    /\ sig_counter c' = set (sig_counter c) sig (get_default (sig_counter c) sig 0 + 1)
    /\ sig_examples c'
       = set (sig_examples c) sig
             (if (List.length (get_default (sig_examples c) sig []) <? MAX_EXAMPLES_PER_SIG)%nat
              then (get_default (sig_examples c) sig [] ++ [example_of (filename, r)])%list
              else get_default (sig_examples c) sig [])
    /\ sig_first_year c'
       = (if truthy yr then
            match get (sig_first_year c) sig with
            | None => set (sig_first_year c) sig yr
            | Some y0 => if String.ltb yr y0 then set (sig_first_year c) sig yr
                         else sig_first_year c
            end
          else sig_first_year c)
    /\ per_year_raw c'
       = (if truthy yr
          then set (per_year_raw c) yr (get_default (per_year_raw c) yr 0 + 1)
          else per_year_raw c)
    /\ email_like_all c' = email_like_all c + 1
    /\ total_rows_all c' = total_rows_all c
    /\ file_counts c' = file_counts c
    /\ rows_in_file f' = rows_in_file f
    /\ email_like_in_file f' = email_like_in_file f + 1
    /\ seen_sigs_this_file f' = set_add (seen_sigs_this_file f) sig.
Proof.
  cbn zeta. unfold email_row. rewrite guess_year_ok. cbn [bind].
  rewrite <- (year_of_resolved filename r (year_audit c)).
  destruct (resolved (safe_get r "date") filename (year_audit c)) as [yr a'].
  cbn [fst]. eexists. eexists. split; [reflexivity|].
  cbn. repeat split; reflexivity.
Qed.

Section Lifting.

Variable I : list (string * row) -> census -> Prop.

Hypothesis I_step :
  forall filename r es c f c' f',
    I es c -> email_row filename r c f = Ok (c', f') ->
    I (es ++ [(filename, r)]) c'.

Hypothesis I_ext : forall es c c', I es c -> same_tallies c c' -> I es c'.

Lemma lift_rows (filename : string) (rs : list row) :
  forall es c f,
    I es c ->
    exists c' f',
      read_rows filename rs c f = Ok (c', f')
      /\ I (es ++ map (pair filename) (filter is_email_like rs)) c'.
Proof.
  induction rs as [|r rest IH]; intros es c f Hi.
  - exists c, f. cbn. now rewrite app_nil_r.
  - cbn [read_rows filter].
    assert (Hi1 : I es (fst (count_row c f))).
    { apply (I_ext es c); [exact Hi|]. unfold same_tallies. cbn. tauto. }
    destruct (count_row c f) as [c1 f1]. cbn [fst] in Hi1.
    destruct (is_email_like r); cbn [negb].
    + destruct (email_row_step filename r c1 f1) as (c2 & f2 & He & _).
      rewrite He. cbn [bind fst snd].
      destruct (IH _ c2 f2 (I_step _ _ _ _ _ _ _ Hi1 He)) as (c' & f' & Hr & Hi').
      exists c', f'. split; [exact Hr|].
      cbn [map]. now rewrite <- app_assoc in Hi'.
    + now apply IH.
Qed.

Lemma lift_files (files : list csv_file) :
  forall es c,
    I es c ->
    exists c', read_files files c = Ok c' /\ I (es ++ entries files) c'.
Proof.
  induction files as [|p rest IH]; intros es c Hi.
  - exists c. cbn. now rewrite app_nil_r.
  - cbn [read_files].
    destruct (lift_rows (name p) (rows p) es c
                {| rows_in_file := 0; email_like_in_file := 0;
                   seen_sigs_this_file := [] |} Hi)
      as (c1 & f1 & Hr & Hi1).
    rewrite Hr. cbn [bind].
    match goal with
    | |- exists c', read_files rest ?c2 = _ /\ _ =>
        assert (Hi2 : I (es ++ map (pair (name p)) (filter is_email_like (rows p))) c2)
    end.
    { apply (I_ext _ c1); [exact Hi1|]. unfold same_tallies. cbn. tauto. }
    destruct (IH _ _ Hi2) as (c' & Hf & Hi').
    exists c'. split; [exact Hf|].
    unfold entries in *. cbn [flat_map]. now rewrite app_assoc.
Qed.

Lemma lift_corpus (files : list csv_file) (c : census) :
  I [] census_start -> read_files files census_start = Ok c -> I (entries files) c.
Proof.
  intros H0 Hc. destruct (lift_files files [] census_start H0) as (c' & Hc' & Hi).
  rewrite Hc in Hc'. injection Hc' as <-. exact Hi.
Qed.

End Lifting.

(** *** Counting by signature and by year *)

Lemma sig_eqb_refl (sig : signature) : keqb sig sig = true.
Proof. apply keqb_refl. Qed.

Lemma with_sig_snoc (sig : signature) (es : list (string * row)) (e : string * row) :
  with_sig sig (es ++ [e])
  = (with_sig sig es ++ if keqb (sig_of e) sig then [e] else [])%list.
Proof. unfold with_sig. rewrite filter_app. reflexivity. Qed.

Lemma with_year_snoc (y : string) (es : list (string * row)) (e : string * row) :
  with_year y (es ++ [e])
  = (with_year y es ++ if String.eqb (year_of e) y then [e] else [])%list.
Proof. unfold with_year. rewrite filter_app. reflexivity. Qed.

Lemma get_default_set {K V : Type} `{KeyEq K} (d : dict K V) (k k0 : K) (v dflt : V) :
  get_default (set d k v) k0 dflt = if keqb k0 k then v else get_default d k0 dflt.
Proof.
  unfold get_default. destruct (keqb_spec k0 k) as [->|Hn].
  - now rewrite get_set_same.
  - now rewrite (get_set_other _ _ _ _ Hn).
Qed.

Lemma counts_step (filename : string) (r : row) (es : list (string * row))
      (c : census) (f : in_file) (c' : census) (f' : in_file) :
  counts_ok es c -> email_row filename r c f = Ok (c', f') ->
  counts_ok (es ++ [(filename, r)]) c'.
Proof.
  intros Hi He sig.
  destruct (email_row_step filename r c f) as (c2 & f2 & He2 & Hsc & _).
  rewrite He in He2. injection He2 as <- <-.
  rewrite Hsc, get_default_set, with_sig_snoc, length_app, !Hi.
  unfold sig_of. cbn [snd].
  destruct (keqb_spec sig (build_signature r)) as [->|Hn].
  - rewrite sig_eqb_refl. reflexivity.
  - rewrite (keqb_neq (build_signature r) sig) by congruence. cbn. lia.
Qed.

Lemma counts_corpus (files : list csv_file) (c : census) :
  read_files files census_start = Ok c -> counts_ok (entries files) c.
Proof.
  apply (lift_corpus counts_ok).
  - intros. eapply counts_step; eassumption.
  - intros es c0 c' Hi (H1 & _) sig. rewrite H1. apply Hi.
  - intros sig. reflexivity.
Qed.

Lemma sum_set_incr (d : dict signature nat) (k : signature) :
  list_sum (map snd (set d k (get_default d k 0 + 1)))
  = S (list_sum (map snd d)).
Proof.
  unfold get_default. induction d as [|[k' v'] r IH]; [reflexivity|].
  cbn [set get]. destruct (keqb k k').
  - cbn [map snd]. rewrite !CuesFacts.list_sum_cons. lia.
  - cbn [map snd]. rewrite !CuesFacts.list_sum_cons, IH. lia.
Qed.

Lemma in_set_inv {V : Type} (d : dict signature V) (k x : signature) (v n : V) :
  In (x, n) (set d k v) -> (x = k /\ n = v) \/ In (x, n) d.
Proof.
  induction d as [|[k' v'] r IH]; cbn [set].
  - intros [[= <- <-]|[]]. now left.
  - destruct (keqb_spec k k') as [<-|Hn].
    + intros [[= <- <-]|Hin]; [now left|right; now right].
    + intros [Heq|Hin]; [right; now left|].
      destruct (IH Hin) as [H|H]; [now left|right; now right].
Qed.

Lemma sizes_step (filename : string) (r : row) (es : list (string * row))
      (c : census) (f : in_file) (c' : census) (f' : in_file) :
  sizes_ok es c -> email_row filename r c f = Ok (c', f') ->
  sizes_ok (es ++ [(filename, r)]) c'.
Proof.
  intros [Hsum Hpos] He.
  destruct (email_row_step filename r c f) as (c2 & f2 & He2 & Hsc & _).
  rewrite He in He2. injection He2 as <- <-. unfold sizes_ok.
  rewrite Hsc. split.
  - rewrite sum_set_incr, Hsum, length_app. cbn. lia.
  - intros sig n Hin. apply in_set_inv in Hin as [[_ ->]|Hin]; [lia|].
    now apply (Hpos sig).
Qed.

Lemma sizes_corpus (files : list csv_file) (c : census) :
  read_files files census_start = Ok c -> sizes_ok (entries files) c.
Proof.
  apply (lift_corpus sizes_ok).
  - intros. eapply sizes_step; eassumption.
  - intros es c0 c' Hi (H1 & _). unfold sizes_ok. now rewrite H1.
  - split; [reflexivity|intros sig n []].
Qed.

Lemma firstn_snoc {A : Type} (n : nat) (l : list A) (x : A) :
  firstn n (l ++ [x])
  = if (List.length (firstn n l) <? n)%nat then (firstn n l ++ [x])%list
    else firstn n l.
Proof.
  rewrite firstn_app, length_firstn.
  destruct (Nat.ltb_spec (Nat.min n (List.length l)) n) as [Hlt|Hge].
  - rewrite (firstn_all2 (n := n) l) by lia.
    destruct (n - List.length l) as [|k] eqn:Hk; [lia|]. cbn [firstn].
    now destruct k.
  - replace (n - List.length l) with 0 by lia. now rewrite app_nil_r.
Qed.

Lemma examples_step (filename : string) (r : row) (es : list (string * row))
      (c : census) (f : in_file) (c' : census) (f' : in_file) :
  examples_ok es c -> email_row filename r c f = Ok (c', f') ->
  examples_ok (es ++ [(filename, r)]) c'.
Proof.
  intros Hi He sig.
  destruct (email_row_step filename r c f) as (c2 & f2 & He2 & _ & Hex & _).
  rewrite He in He2. injection He2 as <- <-.
  rewrite Hex, get_default_set, with_sig_snoc, map_app. unfold sig_of. cbn [snd].
  destruct (keqb_spec sig (build_signature r)) as [->|Hn].
  - rewrite sig_eqb_refl. cbn [map]. now rewrite firstn_snoc, <- !Hi.
  - rewrite (keqb_neq (build_signature r) sig) by congruence.
    cbn [map]. rewrite app_nil_r. apply Hi.
Qed.

Lemma examples_corpus (files : list csv_file) (c : census) :
  read_files files census_start = Ok c -> examples_ok (entries files) c.
Proof.
  apply (lift_corpus examples_ok).
  - intros. eapply examples_step; eassumption.
  - intros es c0 c' Hi (_ & H2 & _) sig. rewrite H2. apply Hi.
  - intros sig. reflexivity.
Qed.

Lemma raw_step (filename : string) (r : row) (es : list (string * row))
      (c : census) (f : in_file) (c' : census) (f' : in_file) :
  raw_ok es c -> email_row filename r c f = Ok (c', f') ->
  raw_ok (es ++ [(filename, r)]) c'.
Proof.
  intros Hi He y.
  destruct (email_row_step filename r c f) as (c2 & f2 & He2 & _ & _ & _ & Hraw & _).
  rewrite He in He2. injection He2 as <- <-.
  rewrite Hraw, with_year_snoc, length_app.
  destruct (String.eqb_spec (year_of (filename, r)) y) as [Hy|Hy].
  - subst y. destruct (truthy (year_of (filename, r))) eqn:Ht.
    + rewrite get_set_same. unfold get_default. rewrite Hi, Ht. cbn [andb List.length].
      destruct (List.length (with_year _ es)); cbn; f_equal; lia.
    + rewrite Hi, Ht. reflexivity.
  - cbn [List.length]. rewrite Nat.add_0_r.
    destruct (truthy (year_of (filename, r))); [|apply Hi].
    rewrite get_set_other by congruence. apply Hi.
Qed.

Lemma raw_corpus (files : list csv_file) (c : census) :
  read_files files census_start = Ok c -> raw_ok (entries files) c.
Proof.
  apply (lift_corpus raw_ok).
  - intros. eapply raw_step; eassumption.
  - intros es c0 c' Hi (_ & _ & _ & H4 & _) y. rewrite H4. apply Hi.
  - intros y. cbn. now rewrite andb_false_r.
Qed.

(** *** Years as numbers *)

Lemma digit_code (c : ascii) : is_digit c = true -> (48 <= code c <= 57)%N.
Proof.
  unfold is_digit, between. intros H. apply andb_prop in H as [H1 H2].
  apply N.leb_le in H1, H2. lia.
Qed.

Lemma decimal_acc (s : string) :
  forall acc, decimal acc s = (acc * 10 ^ Z.of_nat (length s) + decimal 0 s)%Z.
Proof.
  induction s as [|c r IH]; intros acc.
  - cbn. lia.
  - cbn [decimal length]. rewrite IH, (IH (10 * 0 + _)%Z).
    rewrite Nat2Z.inj_succ, Z.pow_succ_r by lia. lia.
Qed.

Lemma decimal_bound (s : string) :
  forallb is_digit s = true ->
  (0 <= decimal 0 s < 10 ^ Z.of_nat (length s))%Z.
Proof.
  induction s as [|c r IH]; intros H.
  - cbn. lia.
  - cbn [forallb] in H. apply andb_prop in H as [Hc Hr].
    specialize (IH Hr). apply digit_code in Hc.
    cbn [decimal length]. rewrite decimal_acc.
    rewrite Nat2Z.inj_succ, Z.pow_succ_r by lia.
    assert (Hp : (0 < 10 ^ Z.of_nat (length r))%Z) by (apply Z.pow_pos_nonneg; lia).
    nia.
Qed.

(** Two texts of as many decimal digits compare as the numbers they
    write. *)
Lemma compare_digits (a : string) :
  forall b,
    length a = length b ->
    forallb is_digit a = true -> forallb is_digit b = true ->
    String.compare a b = (decimal 0 a ?= decimal 0 b)%Z.
Proof.
  induction a as [|x a IH]; intros [|y b] Hl Ha Hb; try discriminate.
  - reflexivity.
  - cbn [forallb] in Ha, Hb. apply andb_prop in Ha as [Hx Ha].
    apply andb_prop in Hb as [Hy Hb]. injection Hl as Hl.
    pose proof (decimal_bound a Ha) as Ba. pose proof (decimal_bound b Hb) as Bb.
    apply digit_code in Hx, Hy.
    cbn [String.compare decimal]. rewrite (decimal_acc a), (decimal_acc b).
    rewrite <- Hl in *. unfold Ascii.compare. fold (code x). fold (code y).
    assert (Hp : (0 < 10 ^ Z.of_nat (length a))%Z) by (apply Z.pow_pos_nonneg; lia).
    destruct (N.compare_spec (code x) (code y)) as [He|Hlt|Hgt].
    + rewrite He. rewrite (IH b Hl Ha Hb).
      destruct (Z.compare_spec (decimal 0 a) (decimal 0 b));
        symmetry; [apply Z.compare_eq_iff|apply Z.compare_lt_iff|apply Z.compare_gt_iff]; nia.
    + symmetry. apply Z.compare_lt_iff. nia.
    + symmetry. apply Z.compare_gt_iff. nia.
Qed.

Lemma ltb_digits (a b : string) :
  length a = length b ->
  forallb is_digit a = true -> forallb is_digit b = true ->
  String.ltb a b = (year_number a <? year_number b)%Z.
Proof.
  intros Hl Ha Hb. unfold String.ltb, Z.ltb, year_number.
  now rewrite (compare_digits a b Hl Ha Hb).
Qed.

(** A year the resolver returns is four digits in the window. *)
Lemma year_of_valid (e : string * row) :
  truthy (year_of e) = true ->
  length (year_of e) = 4 /\ forallb is_digit (year_of e) = true
  /\ (YEAR_MIN <= year_number (year_of e) <= YEAR_MAX)%Z.
Proof.
  unfold year_of.
  assert (H : forall s y, first_year s = Some y ->
           length y = 4 /\ forallb is_digit y = true
           /\ (YEAR_MIN <= year_number y <= YEAR_MAX)%Z).
  { intros s y Hs. destruct (first_year_digits _ _ Hs) as (Hl & Hd & Hr).
    split; [exact Hl|]. split; [exact Hd|]. unfold in_range in Hr.
    apply andb_prop in Hr as [H1 H2]. apply Z.leb_le in H1, H2.
    unfold year_number. lia. }
  destruct (first_year (safe_get (snd e) "date")) as [y|] eqn:Hd; [intros _; eauto|].
  destruct (first_year (fst e)) as [y|] eqn:Hf; [intros _; eauto|discriminate].
Qed.

Lemma not_truthy (s : string) : truthy s = false -> s = "".
Proof. destruct s; [reflexivity|discriminate]. Qed.

(** *** Unique signatures per year *)

Lemma first_seen_set (y : string) (d : dict signature string) (k : signature)
      (v : string) :
  first_seen_in y (set d k v)
  <= first_seen_in y d + (if String.eqb v y then 1 else 0).
Proof.
  unfold first_seen_in. induction d as [|[k' v'] r IH]; cbn [set filter snd].
  - destruct (String.eqb v y); cbn; lia.
  - destruct (keqb k k'); cbn [filter snd].
    + destruct (String.eqb v y), (String.eqb v' y); cbn [List.length]; lia.
    + destruct (String.eqb v' y); cbn [List.length]; lia.
Qed.

Lemma unique_step (filename : string) (r : row) (es : list (string * row))
      (c : census) (f : in_file) (c' : census) (f' : in_file) :
  unique_ok es c -> email_row filename r c f = Ok (c', f') ->
  unique_ok (es ++ [(filename, r)]) c'.
Proof.
  intros Hi He y.
  destruct (email_row_step filename r c f)
    as (c2 & f2 & He2 & _ & _ & Hfy & Hraw & _).
  rewrite He in He2. injection He2 as <- <-. rewrite Hfy, Hraw. clear Hfy Hraw He.
  specialize (Hi y).
  destruct (truthy (year_of (filename, r))); [|exact Hi].
  rewrite get_default_set. change (keqb y (year_of (filename, r)))
    with (String.eqb y (year_of (filename, r))).
  pose proof (first_seen_set y (sig_first_year c) (build_signature r)
                (year_of (filename, r))) as Hset.
  rewrite (String.eqb_sym y).
  destruct (get (sig_first_year c) (build_signature r)) as [y0|].
  - destruct (year_of (filename, r) <? y0)%string;
      destruct (String.eqb_spec (year_of (filename, r)) y) as [->|_];
      try rewrite get_default_set in *; lia.
  - destruct (String.eqb_spec (year_of (filename, r)) y) as [->|_]; lia.
Qed.

Lemma unique_corpus (files : list csv_file) (c : census) :
  read_files files census_start = Ok c -> unique_ok (entries files) c.
Proof.
  apply (lift_corpus unique_ok).
  - intros. eapply unique_step; eassumption.
  - intros es c0 c' Hi (_ & _ & H3 & H4 & _) y. rewrite H3, H4. apply Hi.
  - intros y. cbn. lia.
Qed.

(** [per_year_unique], as [main] fills it from [sig_first_year]. *)
Lemma count_unique_get (y : string) (items : list (signature * string)) :
  truthy y = true ->
  forall acc,
    get_default (count_unique items acc) y 0
    = get_default acc y 0 + first_seen_in y items.
Proof.
  intros Hy. unfold first_seen_in.
  induction items as [|[sig yr] rest IH]; intros acc; [cbn; lia|].
  cbn [count_unique filter snd]. rewrite IH.
  destruct (String.eqb_spec yr y) as [->|Hn].
  - rewrite Hy, get_default_set. change (keqb y y) with (String.eqb y y).
    rewrite String.eqb_refl. cbn [List.length]. lia.
  - destruct (truthy yr); [|reflexivity].
    rewrite get_default_set. change (keqb y yr) with (String.eqb y yr).
    rewrite (proj2 (String.eqb_neq y yr)) by congruence. reflexivity.
Qed.

Lemma count_unique_keys (y : string) (items : list (signature * string)) :
  forall acc,
    In y (keys (count_unique items acc)) ->
    In y (keys acc) \/ (truthy y = true /\ 1 <= first_seen_in y items).
Proof.
  unfold first_seen_in.
  induction items as [|[sig yr] rest IH]; intros acc Hin; [now left|].
  cbn [count_unique] in Hin. cbn [filter snd].
  destruct (IH _ Hin) as [Hk|[Ht Hn]].
  - destruct (truthy yr) eqn:Hyr.
    + apply in_keys_set in Hk as [->|Hk]; [|now left].
      right. rewrite String.eqb_refl. cbn [List.length]. split; [exact Hyr|lia].
    + now left.
  - right. split; [exact Ht|]. destruct (String.eqb yr y); cbn [List.length]; lia.
Qed.

Lemma insert_sorted_in (a x : string) (l : list string) :
  In x (insert_sorted a l) <-> x = a \/ In x l.
Proof.
  induction l as [|y r IH]; cbn [insert_sorted].
  - cbn. intuition.
  - destruct (String.eqb_spec a y) as [->|Hn].
    + cbn. intuition.
    + destruct (a <? y)%string; cbn [In]; [intuition|]. rewrite IH. intuition.
Qed.

Lemma sorted_set_in (x : string) (l : list string) :
  In x (sorted_set l) <-> In x l.
Proof.
  unfold sorted_set. induction l as [|a r IH]; [reflexivity|].
  cbn [fold_right]. rewrite insert_sorted_in, IH. cbn. intuition.
Qed.

(** The lines of [per_year_counts.csv]. *)
Lemma per_year_lines (files : list csv_file) (c : census) :
  read_files files census_start = Ok c ->
  forall line,
    In line (CensusReport.per_year_counts (finalize c)) ->
    truthy (CensusReport.year line) = true
    /\ CensusReport.raw_y line
       = List.length (with_year (CensusReport.year line) (entries files))
    /\ 1 <= CensusReport.raw_y line
    /\ CensusReport.uniq_y line
       = first_seen_in (CensusReport.year line) (sig_first_year c)
    /\ CensusReport.uniq_y line <= CensusReport.raw_y line
    /\ CensusReport.dup_y line
       = (Z.of_nat (CensusReport.raw_y line) - Z.of_nat (CensusReport.uniq_y line))%Z.
Proof.
  intros Hc line Hin.
  pose proof (raw_corpus files c Hc) as Hraw.
  pose proof (unique_corpus files c Hc) as Huniq.
  unfold CensusReport.per_year_counts in Hin.
  apply in_map_iff in Hin as (y & <- & Hy).
  cbn [CensusReport.raw_y CensusReport.uniq_y CensusReport.dup_y CensusReport.year
       finalize final per_year_unique] in *.
  unfold CensusReport.years_sorted in Hy. apply (proj1 (sorted_set_in _ _)) in Hy.
  cbn [finalize final per_year_unique] in Hy.
  specialize (Huniq y). specialize (Hraw y).
  assert (Ht : truthy y = true /\ 1 <= get_default (per_year_raw c) y 0).
  { apply in_app_iff in Hy as [Hy|Hy].
    - destruct (get (per_year_raw c) y) as [n|] eqn:Hg.
      + unfold get_default. rewrite Hg.
        destruct (truthy y); [|discriminate]. split; [reflexivity|].
        cbn [andb] in Hraw.
        destruct (Nat.ltb_spec 0 (List.length (with_year y (entries files))));
          [|discriminate].
        injection Hraw as ->. lia.
      + apply get_none in Hg. contradiction.
    - apply count_unique_keys in Hy as [[]|[Ht Hn]]. split; [exact Ht|]. lia. }
  destruct Ht as [Ht Hpos].
  rewrite (count_unique_get y _ Ht).
  change (get_default [] y 0) with 0. cbn [Nat.add].
  assert (Hn : get_default (per_year_raw c) y 0
               = List.length (with_year y (entries files))).
  { unfold get_default in Hpos |- *. rewrite Hraw in Hpos |- *. rewrite Ht in *.
    cbn [andb] in *.
    destruct (0 <? List.length (with_year y (entries files)))%nat eqn:Hl;
      [reflexivity|lia]. }
  split; [exact Ht|]. repeat split; try lia.
Qed.

(** The year of a line is a year of the window, of some email-like row. *)
Lemma line_year_valid (files : list csv_file) (c : census) :
  read_files files census_start = Ok c ->
  forall y,
    In y (CensusReport.years_sorted (finalize c)) ->
    year_shaped y /\ (YEAR_MIN <= year_number y <= YEAR_MAX)%Z
    /\ exists e, In e (entries files) /\ year_of e = y.
Proof.
  intros Hc y Hy.
  destruct (per_year_lines files c Hc
              {| CensusReport.year := y;
                 CensusReport.raw_y := get_default (per_year_raw c) y 0;
                 CensusReport.uniq_y :=
                   get_default (per_year_unique (finalize c)) y 0;
                 CensusReport.dup_y :=
                   Z.max 0 (Z.of_nat (get_default (per_year_raw c) y 0)
                            - Z.of_nat (get_default (per_year_unique (finalize c)) y 0)) |})
    as (Ht & Hraw & Hpos & _).
  { unfold CensusReport.per_year_counts. apply in_map_iff. now exists y. }
  cbn [CensusReport.year CensusReport.raw_y] in *. rewrite Hraw in Hpos.
  destruct (with_year y (entries files)) as [|e r] eqn:He; [cbn in Hpos; lia|].
  assert (Hin : In e (with_year y (entries files))) by (rewrite He; now left).
  apply filter_In in Hin as [Hin Hye]. apply String.eqb_eq in Hye.
  rewrite <- Hye in Ht |- *.
  destruct (year_of_valid e Ht) as (Hl & Hd & Hw).
  split; [now split|]. split; [exact Hw|]. now exists e.
Qed.

(** Every year with an email-like row has a line. *)
Lemma year_listed (files : list csv_file) (c : census) :
  read_files files census_start = Ok c ->
  forall e, In e (entries files) -> truthy (year_of e) = true ->
    In (year_of e) (CensusReport.years_sorted (finalize c)).
Proof.
  intros Hc e Hin Ht. unfold CensusReport.years_sorted.
  apply sorted_set_in, in_or_app. left. cbn [finalize final].
  pose proof (raw_corpus files c Hc (year_of e)) as Hraw. rewrite Ht in Hraw.
  assert (Hw : In e (with_year (year_of e) (entries files))).
  { apply filter_In. split; [exact Hin|apply String.eqb_refl]. }
  destruct (with_year (year_of e) (entries files)) as [|x r]; [destruct Hw|].
  cbn [List.length Nat.ltb Nat.leb andb] in Hraw.
  destruct (in_dec string_dec (year_of e) (keys (per_year_raw c))) as [Hk|Hk];
    [exact Hk|].
  apply get_none in Hk. congruence.
Qed.

Lemma year_number_inj (a b : string) :
  year_shaped a -> year_shaped b -> year_number a = year_number b -> a = b.
Proof.
  intros [La Da] [Lb Db] Hn. apply String.compare_eq_iff.
  rewrite (compare_digits a b (eq_trans La (eq_sym Lb)) Da Db).
  apply Z.compare_eq_iff. exact Hn.
Qed.

(** *** The summary of each file *)

Lemma set_add_spec (seen : list signature) (sig : signature) :
  NoDup seen ->
  NoDup (set_add seen sig)
  /\ (forall x, In x (set_add seen sig) <-> In x seen \/ x = sig)
  /\ List.length (set_add seen sig) <= S (List.length seen).
Proof.
  intros Hd. unfold set_add. destruct (existsb (keqb sig) seen) eqn:He.
  - apply existsb_exists in He as (x & Hx & Hk).
    destruct (keqb_spec sig x) as [->|]; [|discriminate].
    split; [exact Hd|]. split; [|lia].
    intros y. split; [tauto|intros [H | ->]; assumption].
  - assert (Hnin : ~ In sig seen).
    { intros Hin. assert (existsb (keqb sig) seen = true); [|congruence].
      apply existsb_exists. exists sig. split; [exact Hin|apply keqb_refl]. }
    split; [|split].
    + apply NoDup_app; [exact Hd|repeat constructor; intros []|].
      intros x Hx [<-|[]]. contradiction.
    + intros x. rewrite in_app_iff. cbn. intuition.
    + rewrite length_app. cbn. lia.
Qed.

Lemma fold_set_add (l : list signature) :
  forall seen,
    NoDup seen ->
    NoDup (fold_left set_add l seen)
    /\ (forall x, In x (fold_left set_add l seen) <-> In x seen \/ In x l)
    /\ List.length (fold_left set_add l seen) <= List.length seen + List.length l.
Proof.
  induction l as [|sig r IH]; intros seen Hd.
  - cbn. split; [exact Hd|]. split; [|lia].
    intros x. split; [tauto|intros [H|[]]; exact H].
  - cbn [fold_left]. destruct (set_add_spec seen sig Hd) as (H1 & H2 & H3).
    destruct (IH _ H1) as (I1 & I2 & I3). split; [exact I1|]. split.
    + intros x. rewrite I2, H2. cbn. intuition.
    + cbn [List.length]. lia.
Qed.

(** [unique_signatures_in_file] counts the signatures of the email-like
    rows of the file, each once. *)
Lemma distinct_sigs_spec (l : list signature) :
  NoDup (distinct_sigs l)
  /\ (forall x, In x (distinct_sigs l) <-> In x l)
  /\ List.length (distinct_sigs l) <= List.length l.
Proof.
  destruct (fold_set_add l [] (NoDup_nil _)) as (H1 & H2 & H3).
  split; [exact H1|]. split; [|exact H3].
  intros x. rewrite (H2 x). cbn. tauto.
Qed.

Lemma read_rows_file (filename : string) (rs : list row) :
  forall c f c' f',
    read_rows filename rs c f = Ok (c', f') ->
    rows_in_file f' = rows_in_file f + List.length rs
    /\ email_like_in_file f'
       = email_like_in_file f + List.length (filter is_email_like rs)
    /\ seen_sigs_this_file f'
       = fold_left set_add (map build_signature (filter is_email_like rs))
                   (seen_sigs_this_file f)
    /\ total_rows_all c' = total_rows_all c + List.length rs
    /\ file_counts c' = file_counts c.
Proof.
  induction rs as [|r rest IH]; intros c f c' f' H.
  - cbn in H. injection H as <- <-. cbn. repeat split; lia.
  - cbn [read_rows] in H. cbn [count_row] in H. cbn [filter List.length].
    destruct (is_email_like r); cbn [negb] in H.
    + match type of H with
      | context [email_row _ _ ?c1 ?f1] =>
          destruct (email_row_step filename r c1 f1)
            as (c2 & f2 & He & _ & _ & _ & _ & _ & Ht & Hfc & Hr & Hl & Hs)
      end.
      rewrite He in H. cbn [bind fst snd] in H.
      destruct (IH _ _ _ _ H) as (I1 & I2 & I3 & I4 & I5).
      cbn in Ht, Hfc, Hr, Hl, Hs.
      rewrite I1, I2, I3, I4, I5, Ht, Hfc, Hr, Hl, Hs.
      cbn [map fold_left List.length]. repeat split; lia.
    + destruct (IH _ _ _ _ H) as (I1 & I2 & I3 & I4 & I5).
      cbn in I1, I2, I3, I4, I5. rewrite I1, I2, I3, I4, I5. repeat split; lia.
Qed.

(** [file_counts] has one summary for each file, in reading order, and
    [total_rows_all] is the number of rows read. *)
Lemma read_files_summaries (files : list csv_file) :
  forall c c',
    read_files files c = Ok c' ->
    file_counts c' = (file_counts c ++ map summary_of files)%list
    /\ total_rows_all c'
       = total_rows_all c + list_sum (map (fun p => List.length (rows p)) files).
Proof.
  induction files as [|p rest IH]; intros c c' H.
  - cbn in H. injection H as <-. cbn. rewrite app_nil_r. split; [reflexivity|lia].
  - cbn [read_files] in H.
    destruct (read_rows (name p) (rows p) c _) as [[c1 f1]|e] eqn:Hr;
      [|discriminate].
    cbn [bind] in H.
    destruct (read_rows_file _ _ _ _ _ _ Hr) as (R1 & R2 & R3 & R4 & R5).
    destruct (IH _ _ H) as (I1 & I2).
    cbn [file_counts total_rows_all] in I1, I2. cbn in R1, R2, R3.
    rewrite I1, I2, R4, R5, <- app_assoc. cbn [map app].
    rewrite CuesFacts.list_sum_cons.
    split; [|lia]. do 2 f_equal. unfold summary_of, distinct_sigs.
    now rewrite R1, R2, R3.
Qed.

(** *** The largest clusters *)

Lemma insert_by_count_perm (x : signature * nat) (l : list (signature * nat)) :
  Permutation (CensusReport.insert_by_count x l) (x :: l).
Proof.
  induction l as [|y r IH]; [apply Permutation_refl|].
  cbn [CensusReport.insert_by_count].
  destruct (snd y <=? snd x)%nat; [apply Permutation_refl|].
  eapply Permutation_trans; [apply perm_skip, IH|apply perm_swap].
Qed.

Lemma sort_by_count_perm (l : list (signature * nat)) :
  Permutation (fold_right CensusReport.insert_by_count [] l) l.
Proof.
  induction l as [|x r IH]; [constructor|]. cbn [fold_right].
  eapply Permutation_trans; [apply insert_by_count_perm|now apply perm_skip].
Qed.

Lemma insert_by_count_sorted (x : signature * nat) (l : list (signature * nat)) :
  by_count_desc l -> by_count_desc (CensusReport.insert_by_count x l).
Proof.
  unfold by_count_desc. induction 1 as [|y r Hr IH Hy].
  - repeat constructor.
  - cbn [CensusReport.insert_by_count].
    destruct (Nat.leb_spec (snd y) (snd x)) as [Hle|Hgt].
    + constructor; [now constructor|]. constructor; [exact Hle|].
      eapply Forall_impl; [|exact Hy]. cbn. intros a Ha. lia.
    + constructor; [exact IH|].
      eapply Permutation_Forall; [apply Permutation_sym, insert_by_count_perm|].
      constructor; [lia|exact Hy].
Qed.

Lemma sort_by_count_sorted (l : list (signature * nat)) :
  by_count_desc (fold_right CensusReport.insert_by_count [] l).
Proof.
  induction l as [|x r IH]; [constructor|].
  cbn [fold_right]. now apply insert_by_count_sorted.
Qed.

Lemma sorted_firstn (n : nat) (l : list (signature * nat)) :
  by_count_desc l -> by_count_desc (firstn n l).
Proof.
  unfold by_count_desc. intros H. revert n.
  induction H as [|y r Hr IH Hy]; intros [|n]; cbn [firstn]; try constructor.
  - apply IH.
  - apply Forall_forall. intros a Ha. rewrite Forall_forall in Hy.
    apply Hy. now apply (in_firstn n).
Qed.

Lemma sorted_filter (p : signature * nat -> bool) (l : list (signature * nat)) :
  by_count_desc l -> by_count_desc (filter p l).
Proof.
  unfold by_count_desc. induction 1 as [|y r Hr IH Hy]; cbn [filter]; [constructor|].
  destruct (p y); [|exact IH]. constructor; [exact IH|].
  apply Forall_forall. intros a Ha. rewrite Forall_forall in Hy.
  apply Hy. apply filter_In in Ha. tauto.
Qed.

(** [top_dups]: at most fifty clusters, each a signature counted twice or
    more, the largest first; all of them when there are no more than fifty
    signatures. *)
Lemma top_dups_spec (c : census) :
  List.length (CensusReport.top_dups c) <= TOP_DUP_CLUSTERS
  /\ by_count_desc (CensusReport.top_dups c)
  /\ (forall item, In item (CensusReport.top_dups c) ->
         In item (sig_counter c) /\ 2 <= snd item)
  /\ (List.length (sig_counter c) <= TOP_DUP_CLUSTERS ->
      forall item, In item (sig_counter c) -> 2 <= snd item ->
                   In item (CensusReport.top_dups c)).
Proof.
  unfold CensusReport.top_dups, CensusReport.most_common.
  set (sorted := fold_right CensusReport.insert_by_count [] (sig_counter c)).
  assert (Hperm : Permutation sorted (sig_counter c)) by apply sort_by_count_perm.
  assert (Hsorted : by_count_desc sorted) by apply sort_by_count_sorted.
  split; [|split; [|split]].
  - eapply Nat.le_trans; [apply filter_length_le|]. rewrite length_firstn. lia.
  - now apply sorted_filter, sorted_firstn.
  - intros item Hin. apply filter_In in Hin as [Hin Hn]. split.
    + apply (Permutation_in _ Hperm). now apply (in_firstn TOP_DUP_CLUSTERS).
    + now apply Nat.leb_le.
  - intros Hlen item Hin Hn. apply filter_In. split.
    + rewrite firstn_all2 by (rewrite (Permutation_length Hperm); exact Hlen).
      apply (Permutation_in _ (Permutation_sym Hperm)). exact Hin.
    + now apply Nat.leb_le.
Qed.

End TallyFacts.

(** ** The order of the years, as strings *)

Module OrderFacts.
Import Chars PyStr PyRe Py Patterns PyText Census Spec Props.
Import DictFacts YearFacts CensusFacts DedupeFacts TallyFacts.

Lemma ascii_compare_lt (a b : ascii) :
  Ascii.compare a b = Lt <-> (N_of_ascii a < N_of_ascii b)%N.
Proof. unfold Ascii.compare. apply N.compare_lt_iff. Qed.

Lemma ascii_compare_eq (a b : ascii) : Ascii.compare a b = Eq <-> a = b.
Proof.
  unfold Ascii.compare. rewrite N.compare_eq_iff. split; [|now intros ->].
  intros H. rewrite <- (ascii_N_embedding a), <- (ascii_N_embedding b). now rewrite H.
Qed.

Lemma compare_lt_trans (a : string) :
  forall b c, String.compare a b = Lt -> String.compare b c = Lt ->
              String.compare a c = Lt.
Proof.
  induction a as [|x a IH]; intros [|y b] [|z c]; cbn [String.compare];
    try discriminate; try reflexivity.
  destruct (Ascii.compare x y) eqn:Hxy; try discriminate.
  - apply ascii_compare_eq in Hxy as ->.
    destruct (Ascii.compare y z); try discriminate; [apply IH|reflexivity].
  - intros _. destruct (Ascii.compare y z) eqn:Hyz; try discriminate.
    + apply ascii_compare_eq in Hyz as <-. now rewrite Hxy.
    + intros _. apply ascii_compare_lt in Hxy, Hyz.
      assert (H : Ascii.compare x z = Lt).
      { apply ascii_compare_lt. exact (N.lt_trans _ _ _ Hxy Hyz). }
      now rewrite H.
Qed.

Lemma ltb_trans (a b c : string) :
  String.ltb a b = true -> String.ltb b c = true -> String.ltb a c = true.
Proof.
  unfold String.ltb. intros H1 H2.
  destruct (String.compare a b) eqn:Hab; try discriminate.
  destruct (String.compare b c) eqn:Hbc; try discriminate.
  now rewrite (compare_lt_trans a b c Hab Hbc).
Qed.

Lemma compare_refl (a : string) : String.compare a a = Eq.
Proof.
  induction a as [|x a IH]; [reflexivity|]. cbn [String.compare].
  unfold Ascii.compare. now rewrite N.compare_refl.
Qed.

Lemma ltb_irrefl (a : string) : String.ltb a a = false.
Proof. unfold String.ltb. now rewrite compare_refl. Qed.

(** Of two different strings one is below the other. *)
Lemma ltb_connex (a b : string) :
  a <> b -> String.ltb a b = false -> String.ltb b a = true.
Proof.
  unfold String.ltb. intros Hn H. rewrite (String.compare_antisym b a).
  destruct (String.compare a b) eqn:Hab; try discriminate; [|reflexivity].
  apply String.compare_eq_iff in Hab. contradiction.
Qed.

(** Nothing below [b] is above something not above [b]. *)
Lemma not_ltb_trans (a b c : string) :
  String.ltb a b = true -> String.ltb c b = false -> String.ltb c a = false.
Proof.
  intros Hab Hcb. destruct (String.ltb c a) eqn:Hca; [|reflexivity].
  now rewrite (ltb_trans c a b Hca Hab) in Hcb.
Qed.

Lemma first_least_step (filename : string) (r : row) (es : list (string * row))
      (c : census) (f : in_file) (c' : census) (f' : in_file) :
  first_least es c -> email_row filename r c f = Ok (c', f') ->
  first_least (es ++ [(filename, r)]) c'.
Proof.
  intros Hi He sig.
  destruct (email_row_step filename r c f) as (c2 & f2 & He2 & _ & _ & Hfy & _).
  rewrite He in He2. injection He2 as <- <-. rewrite Hfy. clear Hfy He.
  set (e1 := (filename, r)) in *. specialize (Hi sig).
  destruct (keqb_spec sig (build_signature r)) as [Hs|Hs].
  - subst sig. destruct (truthy (year_of e1)) eqn:Ht.
    + destruct (get (sig_first_year c) (build_signature r)) as [y0|] eqn:Hg.
      * destruct Hi as ((e0 & Hin0 & Hs0 & Hy0 & Ht0) & Hmin).
        destruct (String.ltb (year_of e1) y0) eqn:Hlt.
        -- rewrite get_set_same. split.
           ++ exists e1. rewrite in_app_iff. cbn. tauto.
           ++ intros e Hin Hse Hte. apply in_app_iff in Hin as [Hin|[<-|[]]];
                [|apply ltb_irrefl].
              exact (not_ltb_trans _ _ _ Hlt (Hmin e Hin Hse Hte)).
        -- rewrite Hg. split.
           ++ exists e0. rewrite in_app_iff. tauto.
           ++ intros e Hin Hse Hte. apply in_app_iff in Hin as [Hin|[<-|[]]];
                [now apply Hmin|exact Hlt].
      * rewrite get_set_same. split.
        -- exists e1. rewrite in_app_iff. cbn. tauto.
        -- intros e Hin Hse Hte. apply in_app_iff in Hin as [Hin|[<-|[]]];
             [|apply ltb_irrefl].
           rewrite (Hi e Hin Hse) in Hte. discriminate.
    + destruct (get (sig_first_year c) (build_signature r)) as [y0|] eqn:Hg.
      * destruct Hi as ((e0 & Hin0 & Hs0 & Hy0 & Ht0) & Hmin). split.
        -- exists e0. rewrite in_app_iff. tauto.
        -- intros e Hin Hse Hte. apply in_app_iff in Hin as [Hin|[<-|[]]];
             [now apply Hmin|congruence].
      * intros e Hin Hse. apply in_app_iff in Hin as [Hin|[<-|[]]];
          [now apply Hi|now apply not_truthy].
  - assert (Hget : get (if truthy (year_of e1)
                        then match get (sig_first_year c) (build_signature r) with
                             | Some y0 =>
                                 if (year_of e1 <? y0)%string
                                 then set (sig_first_year c) (build_signature r) (year_of e1)
                                 else sig_first_year c
                             | None => set (sig_first_year c) (build_signature r) (year_of e1)
                             end
                        else sig_first_year c) sig
                   = get (sig_first_year c) sig).
    { destruct (truthy (year_of e1)); [|reflexivity].
      destruct (get (sig_first_year c) (build_signature r)) as [y0|].
      - destruct (year_of e1 <? y0)%string; [now apply get_set_other|reflexivity].
      - now apply get_set_other. }
    rewrite Hget.
    assert (Hold : forall e, In e (es ++ [e1]) -> sig_of e = sig -> In e es).
    { intros e Hin Hse. apply in_app_iff in Hin as [Hin|[<-|[]]]; [exact Hin|].
      unfold sig_of in Hse. cbn in Hse. congruence. }
    destruct (get (sig_first_year c) sig) as [y0|].
    + destruct Hi as ((e0 & Hin0 & Hrest) & Hmin). split.
      * exists e0. rewrite in_app_iff. tauto.
      * intros e Hin Hse. apply Hmin; [now apply Hold|exact Hse].
    + intros e Hin Hse. apply Hi; [now apply Hold|exact Hse].
Qed.

Lemma first_least_corpus (files : list csv_file) (c : census) :
  read_files files census_start = Ok c -> first_least (entries files) c.
Proof.
  apply (lift_corpus first_least).
  - intros. eapply first_least_step; eassumption.
  - intros es c0 c' Hi (_ & _ & H3 & _) sig. rewrite H3. apply Hi.
  - intros sig e [].
Qed.

Lemma insert_sorted_ascend (x : string) (l : list string) :
  years_ascend l -> years_ascend (insert_sorted x l).
Proof.
  intros Hs. induction Hs as [|y r Hr IH Hy]; cbn [insert_sorted].
  - repeat constructor.
  - destruct (String.eqb_spec x y) as [->|Hn]; [now constructor|].
    destruct (String.ltb x y) eqn:Hlt.
    + constructor; [now constructor|]. constructor; [exact Hlt|].
      rewrite Forall_forall in Hy |- *. intros z Hz.
      exact (ltb_trans x y z Hlt (Hy z Hz)).
    + constructor; [exact IH|].
      apply Forall_forall. intros z Hz. apply insert_sorted_in in Hz as [->|Hz].
      * now apply ltb_connex.
      * rewrite Forall_forall in Hy. now apply Hy.
Qed.

(** [sorted(set(l))] is in strictly increasing order, whatever the strings. *)
Lemma sorted_set_ascend (l : list string) : years_ascend (sorted_set l).
Proof.
  unfold sorted_set. induction l as [|x r IH]; [constructor|].
  cbn [fold_right]. now apply insert_sorted_ascend.
Qed.

Lemma ascend_nodup (l : list string) : years_ascend l -> NoDup l.
Proof.
  intros Hl. induction Hl as [|y r Hr IH Hy]; constructor; [|exact IH].
  intros Hin. rewrite Forall_forall in Hy. specialize (Hy y Hin).
  now rewrite ltb_irrefl in Hy.
Qed.

(** On years of four digits the order of the strings is that of the
    numbers. *)
Lemma ascend_numbers (l : list string) :
  years_ascend l ->
  Sorted.StronglySorted
    (fun a b => year_shaped a -> year_shaped b -> (year_number a < year_number b)%Z) l.
Proof.
  intros Hl. induction Hl as [|y r Hr IH Hy]; constructor; [exact IH|].
  rewrite Forall_forall in Hy |- *. intros z Hz [Ly Dy] [Lz Dz].
  specialize (Hy z Hz).
  rewrite (ltb_digits y z (eq_trans Ly (eq_sym Lz)) Dy Dz) in Hy.
  now apply Z.ltb_lt.
Qed.

Lemma not_below_numbers (a b : string) :
  String.ltb a b = false -> year_shaped b -> year_shaped a ->
  (year_number b <= year_number a)%Z.
Proof.
  intros H [Lb Db] [La Da].
  rewrite (ltb_digits a b (eq_trans La (eq_sym Lb)) Da Db) in H.
  now apply Z.ltb_ge.
Qed.

End OrderFacts.

(** ** [html_to_text] *)

Module HtmlFacts.
Import Chars PyStr PyRe Py Patterns PyText Census Spec Props.
Import CharFacts TextFacts NormFacts IpFacts RedactFacts.

(** *** The blanks of the output *)

Lemma squeeze_spaced (s : string) :
  forall b, spaced b (squeeze is_space b s) = true.
Proof.
  induction s as [|c r IH]; intros b; [reflexivity|].
  cbn [squeeze]. destruct (is_space c) eqn:Hc.
  - destruct b; [apply IH|]. cbn [spaced]. change (is_space " ") with true.
    cbv iota. now rewrite IH.
  - cbn [spaced]. rewrite Hc. apply IH.
Qed.

Lemma spaced_squeeze (s : string) :
  forall b, spaced b s = true -> squeeze is_space b s = s.
Proof.
  induction s as [|c r IH]; intros b H; [reflexivity|].
  cbn [spaced] in H. cbn [squeeze]. destruct (is_space c) eqn:Hc.
  - apply andb_prop in H as [H Hr]. apply andb_prop in H as [Hsp Hb].
    apply Ascii.eqb_eq in Hsp. subst c. destruct b; [discriminate|].
    now rewrite IH.
  - now rewrite IH.
Qed.

Lemma spaced_weaken (s : string) : forall b, spaced b s = true -> spaced false s = true.
Proof.
  destruct s as [|c r]; intros b H; [reflexivity|]. cbn [spaced] in *.
  destruct (is_space c); [|exact H].
  apply andb_prop in H as [H Hr]. apply andb_prop in H as [Hsp _].
  now rewrite Hsp, Hr.
Qed.

Lemma spaced_rstrip (s : string) :
  forall b, spaced b s = true -> spaced b (rstrip s) = true.
Proof.
  induction s as [|c r IH]; intros b H; [reflexivity|].
  cbn [spaced] in H. cbn [rstrip]. destruct (is_space c) eqn:Hc.
  - apply andb_prop in H as [H Hr]. apply andb_prop in H as [Hsp Hb].
    specialize (IH true Hr). destruct (rstrip r); [reflexivity|].
    cbn [spaced]. now rewrite Hc, Hsp, Hb.
  - specialize (IH false H).
    destruct (rstrip r); cbn [spaced]; rewrite Hc; [reflexivity|exact IH].
Qed.

Lemma spaced_lstrip (s : string) :
  forall b, spaced b s = true -> spaced true (lstrip s) = true.
Proof.
  induction s as [|c r IH]; intros b H; [reflexivity|].
  cbn [spaced] in H. cbn [lstrip]. destruct (is_space c) eqn:Hc.
  - apply andb_prop in H as [_ Hr]. now apply (IH true).
  - cbn [spaced]. now rewrite Hc.
Qed.

(** Squeezing the blanks of a trimmed, squeezed text changes nothing. *)
Lemma sub_spaces_strip (x : string) :
  sub_spaces (strip (sub_spaces x)) = strip (sub_spaces x).
Proof.
  unfold sub_spaces. rewrite !sub_plus_squeeze. apply spaced_squeeze.
  apply (spaced_weaken _ true). unfold strip.
  apply (spaced_lstrip _ false), spaced_rstrip, squeeze_spaced.
Qed.

(** *** No tag is left *)

Lemma tags_positive (prev : option ascii) (s : string) : RE_TAGS prev s <> Some 0.
Proof.
  unfold RE_TAGS. destruct s as [|c r]; [discriminate|].
  destruct c as [[] [] [] [] [] [] [] []]; try discriminate.
  destruct (run_len not_gt r) as [|n]; [discriminate|].
  destruct (drop (S n) r) as [|x y]; [discriminate|].
  destruct x as [[] [] [] [] [] [] [] []]; discriminate.
Qed.

Lemma no_gt_run (r : string) : contains ">" r = false -> drop (run_len not_gt r) r = "".
Proof.
  induction r as [|c r IH]; [reflexivity|]. cbn [contains run_len].
  intros H. apply orb_false_iff in H as [Hc Hr]. unfold not_gt at 1.
  rewrite Hc. cbn [negb drop]. now apply IH.
Qed.

(** Where the text is tagless at its head the pattern does not match. *)
Lemma tags_none (prev : option ascii) (c : ascii) (r : string) :
  negb (Ascii.eqb c "<") || starts_gt r || negb (contains ">" r) = true ->
  RE_TAGS prev (String c r) = None.
Proof.
  unfold RE_TAGS. destruct (Ascii.eqb_spec c "<") as [->|Hn].
  - cbn [negb orb]. intros H. apply orb_prop in H as [H|H].
    + destruct r as [|x y]; [discriminate|]. cbn [starts_gt] in H.
      cbn [run_len]. unfold not_gt at 1. now rewrite H.
    + apply negb_true_iff in H. pose proof (no_gt_run r H) as Hd.
      destruct (run_len not_gt r); [reflexivity|]. now rewrite Hd.
  - intros _. destruct c as [[] [] [] [] [] [] [] []]; try reflexivity. now elim Hn.
Qed.

Lemma tags_none_inv (prev : option ascii) (r : string) :
  RE_TAGS prev (String "<" r) = None ->
  starts_gt r = true \/ contains ">" r = false.
Proof.
  unfold RE_TAGS. destruct (run_len_split not_gt r) as (H1 & H2 & H3 & H4).
  destruct (run_len not_gt r) as [|n] eqn:Hn.
  - intros _. rewrite ReFacts.take_zero in H1. cbn [drop append] in H4.
    destruct r as [|x y]; [now right|]. left. cbn [not_at_head] in H4.
    unfold not_gt in H4. rewrite negb_involutive in H4. exact H4.
  - destruct (drop (S n) r) as [|x y] eqn:Hd.
    + intros _. right. rewrite H1, append_empty_r.
      clear - H2. induction (take (S n) r) as [|c t IH]; [reflexivity|].
      cbn [forallb contains] in *. apply andb_prop in H2 as [Hc Ht].
      unfold not_gt in Hc. apply negb_true_iff in Hc. now rewrite Hc, IH.
    + cbn [not_at_head] in H4. unfold not_gt in H4. rewrite negb_involutive in H4.
      apply Ascii.eqb_eq in H4. subst x. discriminate.
Qed.

Lemma tagless_count (s : string) :
  tagless s = true -> forall prev, count_from RE_TAGS prev s 0 = 0.
Proof.
  induction s as [|c r IH]; intros H prev; [reflexivity|].
  cbn [tagless] in H. apply andb_prop in H as [Hc Hr].
  cbn [count_from]. rewrite (tags_none prev c r Hc). now apply IH.
Qed.

(** A [>] of the output of a substitution by a space comes from the
    input. *)
Lemma sub_space_gt (m : matcher) (s : string) :
  forall prev k,
    contains ">" s = false ->
    contains ">" (sub_from m (fun _ => " ") prev s k) = false.
Proof.
  induction s as [|c r IH]; intros prev k H.
  - cbn [sub_from]. destruct k; [|reflexivity]. now destruct (m prev "").
  - cbn [contains] in H. apply orb_false_iff in H as [Hc Hr].
    cbn [sub_from]. destruct k as [|k]; [|now apply IH].
    destruct (m prev (String c r)) as [[|n]|]; cbn [append contains];
      rewrite ?Hc, (IH _ _ Hr); reflexivity.
Qed.

Lemma sub_tags_tagless (s : string) :
  forall prev k, tagless (sub_from RE_TAGS (fun _ => " ") prev s k) = true.
Proof.
  induction s as [|c r IH]; intros prev k.
  - cbn [sub_from]. now destruct k.
  - cbn [sub_from]. destruct k as [|k]; [|apply IH].
    destruct (RE_TAGS prev (String c r)) as [[|n]|] eqn:Hm.
    + now elim (tags_positive prev (String c r)).
    + cbn [append tagless]. cbn [Ascii.eqb Bool.eqb negb orb andb]. apply IH.
    + cbn [tagless]. rewrite IH, andb_true_r.
      destruct (Ascii.eqb_spec c "<") as [->|_]; [|reflexivity].
      cbn [negb orb]. apply tags_none_inv in Hm as [Hg|Hg].
      * destruct r as [|x y]; [discriminate|]. cbn [starts_gt] in Hg.
        apply Ascii.eqb_eq in Hg. subst x. cbn [sub_from].
        rewrite tags_none by reflexivity. reflexivity.
      * now rewrite (sub_space_gt _ _ _ _ Hg), orb_true_r.
Qed.

Lemma squeeze_gt (s : string) :
  forall b, contains ">" s = false -> contains ">" (squeeze is_space b s) = false.
Proof.
  induction s as [|c r IH]; intros b H; [reflexivity|].
  cbn [contains] in H. apply orb_false_iff in H as [Hc Hr].
  cbn [squeeze]. destruct (is_space c); [destruct b|]; cbn [contains];
    rewrite ?Hc, (IH _ Hr); reflexivity.
Qed.

Lemma tagless_squeeze (s : string) :
  forall b, tagless s = true -> tagless (squeeze is_space b s) = true.
Proof.
  induction s as [|c r IH]; intros b H; [reflexivity|].
  cbn [tagless] in H. apply andb_prop in H as [Hc Hr].
  cbn [squeeze]. destruct (is_space c) eqn:Hsp.
  - destruct b; [now apply IH|]. cbn [tagless].
    cbn [Ascii.eqb Bool.eqb negb orb andb]. now apply IH.
  - cbn [tagless]. rewrite (IH false Hr), andb_true_r.
    destruct (Ascii.eqb c "<"); [|reflexivity]. cbn [negb orb] in Hc |- *.
    apply orb_prop in Hc as [Hg|Hg].
    + destruct r as [|x y]; [discriminate|]. cbn [starts_gt] in Hg.
      apply Ascii.eqb_eq in Hg. subst x. reflexivity.
    + apply negb_true_iff in Hg. now rewrite (squeeze_gt _ _ Hg), orb_true_r.
Qed.

Lemma tagless_lstrip (s : string) : tagless s = true -> tagless (lstrip s) = true.
Proof.
  induction s as [|c r IH]; intros H; [reflexivity|].
  cbn [lstrip]. destruct (is_space c); [|exact H].
  cbn [tagless] in H. apply andb_prop in H as [_ Hr]. now apply IH.
Qed.

Lemma rstrip_gt (s : string) : contains ">" s = false -> contains ">" (rstrip s) = false.
Proof.
  induction s as [|c r IH]; intros H; [reflexivity|].
  cbn [contains] in H. apply orb_false_iff in H as [Hc Hr]. specialize (IH Hr).
  cbn [rstrip]. destruct (rstrip r).
  - destruct (is_space c); cbn [contains]; now rewrite ?Hc.
  - cbn [contains] in *. now rewrite Hc, IH.
Qed.

Lemma tagless_rstrip (s : string) : tagless s = true -> tagless (rstrip s) = true.
Proof.
  induction s as [|c r IH]; intros H; [reflexivity|].
  cbn [tagless] in H. apply andb_prop in H as [Hc Hr]. specialize (IH Hr).
  destruct (is_space c) eqn:Hsp.
  - assert (Hlt : Ascii.eqb c "<" = false).
    { destruct (Ascii.eqb_spec c "<") as [->|]; [discriminate|reflexivity]. }
    cbn [rstrip]. rewrite Hsp. destruct (rstrip r) as [|x y]; [reflexivity|].
    change (tagless (String c (String x y)))
      with ((negb (Ascii.eqb c "<") || starts_gt (String x y)
             || negb (contains ">" (String x y))) && tagless (String x y)).
    rewrite Hlt. cbn [negb orb andb]. exact IH.
  - rewrite (rstrip_cons_nonspace c r Hsp). cbn [tagless]. rewrite IH, andb_true_r.
    destruct (Ascii.eqb c "<"); [|reflexivity]. cbn [negb orb] in Hc |- *.
    apply orb_prop in Hc as [Hg|Hg].
    + destruct r as [|x y]; [discriminate|]. cbn [starts_gt] in Hg.
      apply Ascii.eqb_eq in Hg. subst x.
      rewrite (rstrip_cons_nonspace ">" y) by reflexivity. reflexivity.
    + apply negb_true_iff in Hg. now rewrite (rstrip_gt _ Hg), orb_true_r.
Qed.

(** The text [html_to_text] returns has no match of the tag pattern. *)
Lemma html_to_text_tagless (html : option string) :
  tagless (html_to_text html) = true.
Proof.
  destruct html as [[|c r]|]; try reflexivity.
  unfold html_to_text, sub_spaces. rewrite sub_plus_squeeze. unfold strip.
  apply tagless_lstrip, tagless_rstrip, tagless_squeeze.
  unfold sub, sub_fn. apply sub_tags_tagless.
Qed.

(** *** Text without markup *)

Lemma sub_no_lt (m : matcher) (repl : string) (s : string) :
  (forall prev c r, Ascii.eqb c "<" = false -> m prev (String c r) = None) ->
  (forall prev, m prev "" = None) ->
  forall prev, contains "<" s = false -> sub_from m (fun _ => repl) prev s 0 = s.
Proof.
  intros Hm Hnil. induction s as [|c r IH]; intros prev H.
  - cbn [sub_from]. now rewrite Hnil.
  - cbn [contains] in H. apply orb_false_iff in H as [Hc Hr].
    cbn [sub_from]. rewrite (Hm prev c r Hc). now rewrite IH.
Qed.

Lemma html_to_text_plain (s : string) :
  contains "<" s = false -> html_to_text (Some s) = strip (sub_spaces s).
Proof.
  intros H. destruct s as [|c r]; [reflexivity|].
  unfold html_to_text, sub, sub_fn.
  rewrite (sub_no_lt RE_SCRIPTS " " (String c r)); [|..|exact H].
  - rewrite (sub_no_lt RE_TAGS " " (String c r)); [reflexivity|..|exact H].
    + intros prev x y Hx. unfold RE_TAGS.
      destruct x as [[] [] [] [] [] [] [] []]; try reflexivity. discriminate.
    + reflexivity.
  - intros prev x y Hx. unfold RE_SCRIPTS, script_block.
    destruct x as [[] [] [] [] [] [] [] []]; try reflexivity. discriminate.
  - reflexivity.
Qed.

End HtmlFacts.

(** ** The year test, rows that look like emails, the shape of a detection *)

Module ShapeFacts.
Import Chars PyStr PyRe Py Patterns PyText Census Spec Props Cues.
Import CharFacts TextFacts NormFacts DictFacts CuesFacts DedupeFacts.

(** [_valid_year], case by case. *)
Lemma valid_year_cases (y : string) :
  _valid_year y
  = if (length y =? 4)%nat && forallb py_isdigit y then
      if forallb is_digit y then Ok (in_range y) else Raise ValueError
    else Ok false.
Proof.
  unfold _valid_year, isdigit, py_int, in_range.
  destruct y as [|c r]; [reflexivity|]. cbn [truthy negb orb andb].
  destruct (forallb py_isdigit (String c r)); cbn [negb orb andb];
    [|now rewrite andb_false_r].
  rewrite andb_true_r.
  destruct (length (String c r) =? 4)%nat; cbn [negb]; [|reflexivity].
  destruct (forallb is_digit (String c r)); reflexivity.
Qed.

Lemma truthy_strip (s : string) : truthy (strip s) = true -> truthy s = true.
Proof. destruct s; [discriminate|reflexivity]. Qed.

Lemma first_present_filled (r : row) (keys : list string) :
  truthy (strip (first_present r keys)) = existsb (filled r) keys.
Proof.
  induction keys as [|k rest IH]; [reflexivity|].
  cbn [first_present existsb]. unfold filled at 1.
  destruct (truthy (strip (safe_get r k))) eqn:Hk; [exact Hk|exact IH].
Qed.

(** A row looks like an email when one of the candidate columns is not
    blank. *)
Lemma is_email_like_filled (r : row) :
  is_email_like r
  = existsb (filled r)
      (LIKELY_SUBJECT_KEYS ++ LIKELY_HTML_KEYS ++ LIKELY_BODY_KEYS)%list.
Proof.
  unfold is_email_like. rewrite existsb_app, <- !first_present_filled.
  assert (H : forall s, truthy s && truthy (strip s) = truthy (strip s)).
  { intros s. destruct (truthy (strip s)) eqn:Hs; [|apply andb_false_r].
    now rewrite (truthy_strip s Hs). }
  now rewrite !H.
Qed.

(** The keys of the result of the loop over the categories. *)
Lemma detect_items_keys (text : string) (lexicon : dict string (list string)) :
  forall results res,
    NoDup (keys results ++ keys lexicon) ->
    detect_items (Some text) (compile_lexicon lexicon) results = Ok res ->
    keys res = (keys results ++ keys lexicon)%list.
Proof.
  induction lexicon as [|[c ph] r IH]; intros results res Hd Hres.
  - cbn in Hres. injection Hres as <-. cbn. now rewrite app_nil_r.
  - cbn [compile_lexicon map fst snd detect_items] in Hres.
    rewrite count_phrases_ok in Hres. cbn [bind] in Hres.
    cbn [keys map fst] in Hd |- *.
    assert (Hc : get results c = None).
    { apply get_none. intros Hin. apply NoDup_remove_2 in Hd. apply Hd.
      apply in_or_app. now left. }
    rewrite (set_absent _ _ _ Hc) in Hres.
    assert (Hd' : NoDup (keys (results ++ [(c, counted text ph [])])%list ++ keys r)).
    { unfold keys. rewrite map_app, <- app_assoc. exact Hd. }
    rewrite (IH _ _ Hd' Hres). unfold keys. now rewrite map_app, <- app_assoc.
Qed.

Lemma summarize_items_keys (items : dict string (dict string nat)) :
  forall totals,
    NoDup (keys totals ++ keys items) ->
    keys (summarize_items items totals) = (keys totals ++ keys items)%list.
Proof.
  induction items as [|[c pc] r IH]; intros totals Hd.
  - cbn. now rewrite app_nil_r.
  - cbn [summarize_items]. cbn [keys map fst] in Hd |- *.
    assert (Hc : get totals c = None).
    { apply get_none. intros Hin. apply NoDup_remove_2 in Hd. apply Hd.
      apply in_or_app. now left. }
    rewrite (set_absent _ _ _ Hc).
    assert (Hd' : NoDup (keys (totals ++ [(c, sum_counts pc)])%list ++ keys r)).
    { unfold keys. rewrite map_app, <- app_assoc. exact Hd. }
    rewrite (IH _ Hd'). unfold keys. now rewrite map_app, <- app_assoc.
Qed.

(** What [detect_cues] returns: every category of the lexicon, in its
    order, each with the phrases that occur and their counts. *)
Lemma detect_cues_shape (text : string) :
  exists res,
    detect_cues (Some text) = Ok res
    /\ keys res = keys CUE_LEXICON
    /\ keys (summarize_counts res) = keys CUE_LEXICON
    /\ forall cat inner p n,
         In (cat, inner) res -> In (p, n) inner ->
         0 < n /\ n = phrase_count p text
         /\ exists phrases, In (cat, phrases) CUE_LEXICON /\ In p phrases.
Proof.
  destruct (detect_cues_ok text) as (res & Hres & Hnd & Hget).
  exists res. split; [exact Hres|].
  assert (Hkeys : keys res = keys CUE_LEXICON).
  { unfold detect_cues, detect_cues_with in Hres. rewrite patterns_compiled in Hres.
    apply (detect_items_keys text CUE_LEXICON [] res); [|exact Hres].
    exact lexicon_keys_nodup. }
  split; [exact Hkeys|]. split.
  { unfold summarize_counts. rewrite summarize_items_keys; [exact Hkeys|exact Hnd]. }
  intros cat inner p n Hcat Hp.
  pose proof (in_get _ _ _ Hnd Hcat) as Hg. rewrite Hget in Hg.
  destruct (get CUE_LEXICON cat) as [phrases|] eqn:Hlex; [|discriminate].
  injection Hg as <-.
  assert (Hgp : get (counted text phrases []) p = Some n).
  { apply in_get; [apply counted_nodup; constructor|exact Hp]. }
  rewrite counted_get in Hgp. cbn [get] in Hgp.
  destruct (existsb (String.eqb p) phrases) eqn:He; [|discriminate].
  destruct (Nat.ltb_spec 0 (phrase_count p text)) as [Hpos|]; [|discriminate].
  injection Hgp as <-. split; [exact Hpos|]. split; [reflexivity|].
  exists phrases. split; [now apply get_some_in|].
  apply existsb_exists in He as (q & Hq & Heq). apply String.eqb_eq in Heq. now subst.
Qed.

End ShapeFacts.

(** ** Facts shared by the further properties *)

Module ReportFacts.
Import Chars PyStr PyRe Py Patterns PyText Census Spec Props.
Import DictFacts CensusFacts TextFacts DedupeFacts CsvFacts.

Lemma in_get_key {K V : Type} `{KeyEq K} (d : dict K V) (k : K) (v : V) :
  NoDup (keys d) -> In (k, v) d -> get d k = Some v.
Proof.
  induction d as [|[k' v'] r IH]; intros Hd Hin; [destruct Hin|].
  cbn [keys map fst] in Hd. inversion Hd as [|? ? Hk Hr]; subst.
  cbn [get]. destruct Hin as [[= -> ->]|Hin].
  - now rewrite keqb_refl.
  - destruct (keqb_spec k k') as [->|Hn]; [|now apply IH].
    exfalso. apply Hk. change (In k' (keys r)). unfold keys.
    apply in_map_iff. now exists (k', v).
Qed.

Lemma concat_filter {A : Type} (p : A -> bool) (ls : list (list A)) :
  filter p (List.concat ls) = List.concat (map (filter p) ls).
Proof.
  induction ls as [|l r IH]; [reflexivity|].
  cbn [List.concat map]. now rewrite filter_app, IH.
Qed.

(** The rows of [entries] are the email-like rows of the corpus. *)
Lemma entries_rows (files : list csv_file) :
  map snd (entries files) = email_rows files.
Proof.
  unfold entries, email_rows, all_rows. rewrite concat_filter, map_map.
  induction files as [|p r IH]; [reflexivity|].
  cbn [flat_map map List.concat]. rewrite map_app, IH. f_equal.
  rewrite map_map. cbn [snd]. apply map_id.
Qed.

Lemma entries_length (files : list csv_file) :
  List.length (entries files) = List.length (email_rows files).
Proof. now rewrite <- entries_rows, length_map. Qed.

Lemma take_length (n : nat) (s : string) : length (take n s) <= n.
Proof.
  unfold take. revert n. induction s as [|c r IH]; intros [|n]; cbn; try lia.
  specialize (IH n). lia.
Qed.

Lemma sum_column_listed (cat : string) (before after : list string) :
  In cat (keys Cues.CUE_LEXICON) ->
  elem ("sum_" ++ cat)
       (before ++ NazarioScan.CATEGORY_COLUMNS ++ after)%list = true.
Proof.
  intros Hin. apply elem_In, in_or_app. right. apply in_or_app. left.
  unfold NazarioScan.CATEGORY_COLUMNS. apply in_map_iff. now exists cat.
Qed.

(** The year of a row is the one the resolver returns for it. *)
Lemma year_of_guess (e : string * row) (a : audit) :
  exists a', guess_year_with_audit (snd e) (fst e) a = Ok (year_of e, a').
Proof.
  destruct e as [filename r]. cbn [fst snd].
  rewrite YearFacts.guess_year_ok.
  rewrite <- (TallyFacts.year_of_resolved filename r a).
  destruct (resolved (safe_get r "date") filename a) as [y a'].
  now exists a'.
Qed.

(** Every line of the table comes from a row. *)
Lemma table_line (first : dict string Csv.cell) (rest : list (dict string Csv.cell))
      (headers : list string) (lines : list (list string)) :
  Csv.save_csv (first :: rest) = Csv.Table headers lines ->
  forall line, In line lines ->
    exists row, In row (first :: rest) /\ line = map (Csv.clean row) headers.
Proof.
  unfold Csv.save_csv. intros [= <- <-] line [<-|Hin].
  - exists first. split; [now left|reflexivity].
  - apply in_map_iff in Hin as (row & <- & Hr). exists row.
    split; [now right|reflexivity].
Qed.

End ReportFacts.

(** ** The text and the metadata of a row of [src/nazario.py] *)

Module RowFacts.
Import Chars PyStr PyRe Py Patterns PyText NazarioScan Props.
Import DictFacts.

Section Rows.
Variable decode_mime_words : string -> string.

Lemma text_parts_filter (row : Census.row) (cols : list string) :
  forall parts,
    text_parts row cols parts
    = (parts ++ filter truthy (map (safe_get row) cols))%list.
Proof.
  induction cols as [|k rest IH]; intros parts; cbn [text_parts map filter].
  - now rewrite app_nil_r.
  - rewrite IH. destruct (truthy (safe_get row k)); [|reflexivity].
    now rewrite <- app_assoc.
Qed.

Lemma html_parts_filter (row : Census.row) (cols : list string) :
  forall parts,
    html_parts row cols parts
    = (parts ++ map (fun v => html_to_text (Some v))
                    (filter truthy (map (safe_get row) cols)))%list.
Proof.
  induction cols as [|k rest IH]; intros parts; cbn [html_parts map filter].
  - now rewrite app_nil_r.
  - rewrite IH. destruct (truthy (safe_get row k)); [|reflexivity].
    cbn [map]. now rewrite <- app_assoc.
Qed.

Lemma first_subject_get (row : Census.row) (meta : dict string string)
      (key : string) (cols : list string) :
  get (first_subject decode_mime_words row cols meta) key
  = match hd_error (filter truthy (map (safe_get row) cols)) with
    | Some v => if String.eqb key "subject" then Some (decode_mime_words v)
                else get meta key
    | None => get meta key
    end.
Proof.
  induction cols as [|c rest IH]; cbn [first_subject map filter]; [reflexivity|].
  destruct (truthy (safe_get row c)); [|exact IH]. cbn [hd_error].
  destruct (String.eqb_spec key "subject") as [->|Hn].
  - apply get_set_same.
  - now apply get_set_other.
Qed.

Lemma contact_fields_get (row : Census.row) (ks : list string) :
  forall meta k,
    get (contact_fields row ks meta) k
    = if elem k ks && mem row k then Some (safe_get row k) else get meta k.
Proof.
  unfold elem. induction ks as [|k0 rest IH]; intros meta k; [reflexivity|].
  cbn [contact_fields existsb]. rewrite IH.
  destruct (existsb (String.eqb k) rest && mem row k) eqn:Hr.
  - apply andb_prop in Hr as [H1 H2]. now rewrite H1, H2, orb_true_r.
  - destruct (String.eqb_spec k k0) as [->|Hn]; cbn [orb andb].
    + destruct (mem row k0); [apply get_set_same|reflexivity].
    + rewrite Hr. destruct (mem row k0); [now apply get_set_other|reflexivity].
Qed.

End Rows.

End RowFacts.

(** * The properties of the specification, claim by claim *)

Import Chars PyStr PyRe Py Patterns Spec.

(** C9. Every compiled phrase matcher is the literal phrase between two word
    boundaries, matched up to case: [re.escape] makes the pattern compile to
    the characters of the phrase as literals, a match at a position is an
    occurrence of the phrase there up to case with a word boundary on each
    side, the count does not depend on the case of the text, the patterns
    built from the lexicon are these, "now" has no match in "snowman" and
    exactly one in "act now.", and the dot of a phrase "a.b" matches a dot
    only. *)
Theorem C9_phrase_matcher_literal_word_bounded
        (phrase : string) (prev : option ascii) (text : string) :
  Cues.compile_phrase phrase = Ok (literal_regex phrase)
  /\ regex_matcher (literal_regex phrase) prev text
     = (if occurs_at phrase prev text then Some (length phrase) else None)
  /\ phrase_count phrase (lower text) = phrase_count phrase text
  /\ Cues.PATTERNS = compile_lexicon Cues.CUE_LEXICON
  /\ phrase_count "now" "snowman" = 0
  /\ phrase_count "now" "act now." = 1
  /\ phrase_count "a.b" "axb, A.B!" = 1.
Proof.
  split; [apply ReFacts.compile_phrase_literal|].
  split; [apply ReFacts.match_literal|].
  split; [apply ReFacts.finditer_count_lower|].
  split; [apply CuesFacts.patterns_compiled|].
  repeat split; vm_compute; reflexivity.
Qed.

(** C8. The text normaliser is total and idempotent, in each of its copies:
    normalising a normalised text changes nothing, whether the input is a
    string or [None]; the empty string normalises to the empty string and
    "ACT NOW!!" to "act now". *)
Theorem C8_normalize_idempotent (x : option string) :
  Census.normalize_text (Some (Census.normalize_text x)) = Census.normalize_text x
  /\ Nazario.normalize_text (Some (Nazario.normalize_text x)) = Nazario.normalize_text x
  /\ Census.normalize_text (Some "") = ""
  /\ Nazario.normalize_text (Some "") = ""
  /\ Census.normalize_text (Some "ACT NOW!!") = "act now"
  /\ Nazario.normalize_text (Some "ACT NOW!!") = "act now".
Proof.
  assert (H : Census.normalize_text (Some (Census.normalize_text x))
              = Census.normalize_text x).
  { destruct x as [s|]; [apply NormFacts.normalize_text_idem|reflexivity]. }
  split; [exact H|].
  split; [now rewrite !NormFacts.normalize_text_nazario|].
  repeat split; vm_compute; reflexivity.
Qed.

(** C7. A record whose normalised body content is shorter than 5 characters
    has the empty-content sentinel (the empty string) as the content
    component of its signature; a record whose normalised content has 5
    characters or more has the SHA-1 digest of that content, forty
    hexadecimal characters, which is never the sentinel. *)
Theorem C7_short_body_sentinel (r r' : Census.row) :
  length (Census.normalize_text (Some (Census.body_content r)))
    < Census.MIN_CONTENT_CHARS ->
  Census.MIN_CONTENT_CHARS
    <= length (Census.normalize_text (Some (Census.body_content r'))) ->
  snd (Census.build_signature r) = ""
  /\ snd (Census.build_signature r')
     = Sha1.hexdigest (Sha1.utf8 (Census.normalize_text (Some (Census.body_content r'))))
  /\ length (snd (Census.build_signature r')) = 40
  /\ snd (Census.build_signature r') <> snd (Census.build_signature r).
Proof.
  intros Hshort Hlong. unfold Census.build_signature. cbn [snd].
  rewrite (SigFacts.content_signature_short _ Hshort).
  pose proof (SigFacts.content_signature_long _ Hlong) as Hlen.
  split; [reflexivity|]. split.
  - unfold Census.content_signature.
    now rewrite (proj2 (Nat.ltb_ge _ _) Hlong).
  - split; [exact Hlen|]. intros Heq. rewrite Heq in Hlen. discriminate.
Qed.

Lemma C7_short_body_sentinel_witness :
  length (Census.normalize_text
            (Some (Census.body_content [("subject", Some "Hi"); ("body", Some "Ok!")])))
    < Census.MIN_CONTENT_CHARS
  /\ Census.MIN_CONTENT_CHARS
     <= length (Census.normalize_text
                  (Some (Census.body_content
                           [("subject", Some "Hi"); ("body", Some "Hello there")])))
  /\ snd (Census.build_signature [("subject", Some "Hi"); ("body", Some "Ok!")]) = ""
  /\ snd (Census.build_signature [("subject", Some "Hi"); ("body", Some "Hello there")])
     <> snd (Census.build_signature [("subject", Some "Hi"); ("body", Some "Ok!")]).
Proof.
  assert (H1 : length (Census.normalize_text
            (Some (Census.body_content [("subject", Some "Hi"); ("body", Some "Ok!")])))
          < Census.MIN_CONTENT_CHARS) by (vm_compute; lia).
  assert (H2 : Census.MIN_CONTENT_CHARS
     <= length (Census.normalize_text
                  (Some (Census.body_content
                           [("subject", Some "Hi"); ("body", Some "Hello there")]))))
    by (vm_compute; lia).
  split; [exact H1|]. split; [exact H2|].
  pose proof (C7_short_body_sentinel _ _ H1 H2) as H. tauto.
Defined.




(** C3 (as amended). One call of the year resolver never raises and adds one
    to exactly one of [date_valid], [fallback_file] and [unknown];
    [date_out_of_range] is informational and can only move together with
    [fallback_file] or [unknown]. After a full pass over any corpus these
    three counters sum to the number of email-like rows, and
    [date_out_of_range] is at most [fallback_file + unknown]. *)
Theorem C3_audit_counters
        (files : list Census.csv_file)
        (r : Census.row) (filename : string) (a : Census.audit) :
  (exists y a',
      Census.guess_year_with_audit r filename a = Ok (y, a')
      /\ ((Census.date_valid a' = Census.date_valid a + 1
           /\ Census.fallback_file a' = Census.fallback_file a
           /\ Census.unknown a' = Census.unknown a
           /\ Census.date_out_of_range a' = Census.date_out_of_range a)
          \/ (Census.date_valid a' = Census.date_valid a
              /\ Census.fallback_file a' = Census.fallback_file a + 1
              /\ Census.unknown a' = Census.unknown a
              /\ (Census.date_out_of_range a' = Census.date_out_of_range a
                  \/ Census.date_out_of_range a' = Census.date_out_of_range a + 1))
          \/ (Census.date_valid a' = Census.date_valid a
              /\ Census.fallback_file a' = Census.fallback_file a
              /\ Census.unknown a' = Census.unknown a + 1
              /\ (Census.date_out_of_range a' = Census.date_out_of_range a
                  \/ Census.date_out_of_range a' = Census.date_out_of_range a + 1))))
  /\ (exists c,
         Census.read_files files Census.census_start = Ok c
         /\ Census.email_like_all c = List.length (email_rows files)
         /\ Census.date_valid (Census.year_audit c)
            + Census.fallback_file (Census.year_audit c)
            + Census.unknown (Census.year_audit c)
            = Census.email_like_all c
         /\ Census.date_out_of_range (Census.year_audit c)
            <= Census.fallback_file (Census.year_audit c)
               + Census.unknown (Census.year_audit c)).
Proof.
  split.
  - exists (fst (resolved (Census.safe_get r "date") filename a)),
           (snd (resolved (Census.safe_get r "date") filename a)).
    split; [rewrite YearFacts.guess_year_ok; now destruct (resolved _ _ _)|].
    apply CensusFacts.resolved_audit.
  - destruct (CensusFacts.read_corpus_ok files) as (c & Hc & [Hn _ _ Ha Ho]).
    exists c. repeat split; [exact Hc|exact Hn|lia|exact Ho].
Qed.

(** C3, the claim as stated fails: one email-like row whose date field holds
    a year outside the window, read from a file whose name holds a valid
    year, adds one to [date_out_of_range] and one to [fallback_file]; the
    four counters then sum to 2 for 1 row. *)
Lemma C3_counterexample_two_counters_one_row :
  exists c,
    Census.read_files
      [{| Census.path := "data/phishing-2010.csv";
          Census.name := "phishing-2010.csv";
          Census.rows := [[("subject", Some "Your account");
                           ("date", Some "Fri, 1 Jan 1999 00:00:00 +0000")]] |}]
      Census.census_start = Ok c
    /\ Census.email_like_all c = 1
    /\ Census.year_audit c
       = {| Census.date_valid := 0; Census.fallback_file := 1;
            Census.unknown := 0; Census.date_out_of_range := 1 |}
    /\ Census.date_valid (Census.year_audit c)
       + Census.date_out_of_range (Census.year_audit c)
       + Census.fallback_file (Census.year_audit c)
       + Census.unknown (Census.year_audit c) = 2.
Proof.
  eexists. split; [vm_compute; reflexivity|].
  repeat split.
Qed.

(** C4 (as amended). [detect_cues] returns a result for every string, and
    for the empty string every category is present with no phrase, so every
    total is zero. Both [detect_with_extras] return a result for every
    optional text, and for [None] and for the empty string all their totals
    and heuristics are zero. ([detect_cues] itself has no guard for [None]:
    the guard is in its callers.) *)
Theorem C4_detectors_on_optional_text (text : option string) (s : string) :
  (exists res, Cues.detect_cues (Some s) = Ok res)
  /\ (exists out, Nazario.detect_with_extras text = Ok out)
  /\ (exists out, Images.detect_with_extras text = Ok out)
  /\ Cues.detect_cues (Some "") = Ok (map (fun cp => (fst cp, [])) Cues.CUE_LEXICON)
  /\ Cues.summarize_counts (map (fun cp => (fst cp, [])) Cues.CUE_LEXICON)
     = zero_totals
  /\ Nazario.detect_with_extras None = Ok (zero_totals, zero_extras)
  /\ Nazario.detect_with_extras (Some "") = Ok (zero_totals, zero_extras)
  /\ Images.detect_with_extras None = Ok (zero_totals, zero_extras)
  /\ Images.detect_with_extras (Some "") = Ok (zero_totals, zero_extras).
Proof.
  split.
  { destruct (CuesFacts.detect_cues_ok s) as (res & Hres & _). now exists res. }
  split.
  { unfold Nazario.detect_with_extras.
    destruct (CuesFacts.detect_cues_ok
                (Nazario.deobfuscate_iocs
                   (Some match text with Some t => t | None => "" end)))
      as (res & Hres & _).
    rewrite Hres. cbn [bind]. eexists. reflexivity. }
  split.
  { destruct (CuesFacts.images_totals match text with Some t => t | None => "" end)
      as (totals & extras & Hres & _).
    exists (totals, extras). destruct text; exact Hres. }
  repeat split; vm_compute; reflexivity.
Qed.

(** C4, the claim as stated fails: [detect_cues] applied to [None] raises
    [TypeError] (from [finditer]) instead of returning zero totals. *)
Lemma C4_counterexample_detect_cues_none :
  Cues.detect_cues None = Raise TypeError.
Proof. vm_compute. reflexivity. Qed.

(** C5. For every corpus, with N its number of email-like rows and U the
    number of distinct signatures they resolve to (the keys of
    [sig_counter] are exactly these signatures, each once), the census reads
    the corpus without an exception and reports N email-like rows, U unique
    emails, [duplicates = N - U] and
    [dup_rate = (N - U) / N * 100] in binary64 arithmetic, or 0 when N = 0;
    with no email-like row every figure is zero. [main] returns these
    figures as soon as there is a CSV file. *)
Theorem C5_duplicate_accounting (files : list Census.csv_file) :
  exists c,
    Census.read_files files Census.census_start = Ok c
    /\ Census.main files
       = Ok (match files with [] => None | _ :: _ => Some (Census.finalize c) end)
    /\ NoDup (keys (Census.sig_counter c))
    /\ (forall sig,
           In sig (keys (Census.sig_counter c))
           <-> In sig (map Census.build_signature (email_rows files)))
    /\ Census.email_like (Census.finalize c) = List.length (email_rows files)
    /\ Census.unique_emails (Census.finalize c)
       = List.length (keys (Census.sig_counter c))
    /\ Census.unique_emails (Census.finalize c)
       <= Census.email_like (Census.finalize c)
    /\ Census.duplicates (Census.finalize c)
       = (Z.of_nat (Census.email_like (Census.finalize c))
          - Z.of_nat (Census.unique_emails (Census.finalize c)))%Z
    /\ Census.dup_rate (Census.finalize c)
       = (if (Census.email_like (Census.finalize c) =? 0)%nat then 0%float
          else (Census.float_of_Z (Census.duplicates (Census.finalize c))
                / Census.float_of_Z (Z.of_nat (Census.email_like (Census.finalize c)))
                * 100)%float)
    /\ (email_rows files = [] ->
        Census.unique_emails (Census.finalize c) = 0
        /\ Census.duplicates (Census.finalize c) = 0%Z
        /\ Census.dup_rate (Census.finalize c) = 0%float).
Proof.
  destruct (CensusFacts.read_corpus_ok files) as (c & Hc & Hok).
  pose proof (CensusFacts.unique_le_rows _ _ Hok) as Hle.
  destruct Hok as [Hn Hnd Hsigs _ _].
  exists c. split; [exact Hc|]. split.
  { unfold Census.main. destruct files; [reflexivity|]. now rewrite Hc. }
  split; [exact Hnd|]. split; [exact Hsigs|].
  cbn [Census.finalize Census.email_like Census.unique_emails Census.duplicates
       Census.dup_rate].
  split; [exact Hn|]. split; [unfold keys; now rewrite length_map|].
  split; [exact Hle|]. split; [lia|]. split.
  - unfold Census.rate. destruct (Census.email_like_all c); reflexivity.
  - intros Hempty. rewrite Hempty in Hn. cbn [List.length] in Hn.
    rewrite Hn in *. assert (Hu : List.length (Census.sig_counter c) = 0) by lia.
    rewrite Hu. repeat split.
Qed.

(** C1 (as amended). [detect_cues] makes one pass: for every phrase of the
    lexicon the count it reports is the number of non-overlapping matches
    of the phrase pattern in the text it is given. The dual pass is made by
    the caller in [images.py]: [detect_with_extras] there runs [detect_cues]
    on the raw text and on [normalize_text(text)], adds the two counts of
    each phrase, and returns as the total of a category the sum over its
    phrases of raw count plus normalised count. *)
Theorem C1_single_pass_and_dual_pass
        (text cat : string) (phrases : list string) (p : string) :
  In (cat, phrases) Cues.CUE_LEXICON -> In p phrases ->
  (exists res,
      Cues.detect_cues (Some text) = Ok res
      /\ reported res cat p = phrase_count p text)
  /\ (exists totals extras,
         Images.detect_with_extras (Some text) = Ok (totals, extras)
         /\ get totals cat
            = Some (sum_over phrases
                      (fun q => phrase_count q text
                                + phrase_count q (Images.normalize_text (Some text))))).
Proof.
  intros Hcat Hp. split.
  - destruct (CuesFacts.detect_cues_ok text) as (res & Hres & _).
    exists res. split; [exact Hres|].
    exact (CuesFacts.detect_cues_reported _ _ _ _ _ Hcat Hp Hres).
  - destruct (CuesFacts.images_totals text) as (totals & extras & Hres & Hget).
    exists totals, extras. split; [exact Hres|].
    rewrite NormFacts.normalize_text_images. now apply Hget.
Qed.

Lemma C1_single_pass_and_dual_pass_witness :
  In ("similarity_socialproof",
      ["people like you"; "as recommended"; "popular choice"; "trending now";
       "recommended"; "popular"; "trending"]) Cues.CUE_LEXICON
  /\ In "trending now"
        ["people like you"; "as recommended"; "popular choice"; "trending now";
         "recommended"; "popular"; "trending"]
  /\ (exists res,
         Cues.detect_cues (Some "TRENDING NOW!!") = Ok res
         /\ reported res "similarity_socialproof" "trending now"
            = phrase_count "trending now" "TRENDING NOW!!")
  /\ (exists totals extras,
         Images.detect_with_extras (Some "TRENDING NOW!!") = Ok (totals, extras)
         /\ get totals "similarity_socialproof"
            = Some (sum_over
                      ["people like you"; "as recommended"; "popular choice";
                       "trending now"; "recommended"; "popular"; "trending"]
                      (fun q => phrase_count q "TRENDING NOW!!"
                                + phrase_count q
                                    (Images.normalize_text (Some "TRENDING NOW!!"))))).
Proof.
  assert (H1 : In ("similarity_socialproof",
      ["people like you"; "as recommended"; "popular choice"; "trending now";
       "recommended"; "popular"; "trending"]) Cues.CUE_LEXICON)
    by (cbn; tauto).
  assert (H2 : In "trending now"
        ["people like you"; "as recommended"; "popular choice"; "trending now";
         "recommended"; "popular"; "trending"]) by (cbn; tauto).
  split; [exact H1|]. split; [exact H2|].
  exact (C1_single_pass_and_dual_pass "TRENDING NOW!!" _ _ _ H1 H2).
Defined.

(** C1, the claim as stated fails on [detect_cues] and on the
    [detect_with_extras] of [nazario.py], which make one pass: in the text
    "act now" the phrase "act now" is reported once, not once for the raw
    text plus once for the normalised text, and the urgency total of
    [nazario.py] is 2 ("act now" and "now"), not 4. *)
Lemma C1_counterexample_one_pass_only :
  (exists res,
      Cues.detect_cues (Some "act now") = Ok res
      /\ reported res "urgency" "act now" = 1)
  /\ phrase_count "act now" "act now"
     + phrase_count "act now" (Census.normalize_text (Some "act now")) = 2
  /\ (exists totals extras,
         Nazario.detect_with_extras (Some "act now") = Ok (totals, extras)
         /\ get totals "urgency" = Some 2)
  /\ sum_over (get_default Cues.CUE_LEXICON "urgency" [])
       (fun q => phrase_count q "act now"
                 + phrase_count q (Census.normalize_text (Some "act now"))) = 4.
Proof.
  split; [eexists; split; vm_compute; reflexivity|].
  split; [vm_compute; reflexivity|].
  split; [eexists; eexists; split; vm_compute; reflexivity|].
  vm_compute; reflexivity.
Qed.

(** C10. When one of the HTML-like fields of a record is non-blank, the
    content that is hashed is the text of the first such field and nothing
    else: changing, adding or removing plain-text body fields leaves the
    signature as it is. So a record whose HTML strips to fewer than 5
    normalised characters gets the empty-content sentinel, whatever its
    plain-text body holds. *)
Theorem C10_html_field_shadows_plain_text (r r' : Census.row) :
  truthy (strip (Census.first_present r Census.LIKELY_HTML_KEYS)) = true ->
  (forall k, ~ In k Census.LIKELY_BODY_KEYS ->
             Census.safe_get r' k = Census.safe_get r k) ->
  Census.body_content r
  = Census.html_to_text (Some (Census.first_present r Census.LIKELY_HTML_KEYS))
  /\ Census.build_signature r' = Census.build_signature r
  /\ (length (Census.normalize_text
                (Some (Census.html_to_text
                         (Some (Census.first_present r Census.LIKELY_HTML_KEYS)))))
        < Census.MIN_CONTENT_CHARS ->
      snd (Census.build_signature r) = "").
Proof.
  intros Hhtml Hsame.
  assert (Hbody : Census.body_content r
                  = Census.html_to_text
                      (Some (Census.first_present r Census.LIKELY_HTML_KEYS))).
  { unfold Census.body_content. now rewrite Hhtml. }
  assert (Hh : Census.first_present r' Census.LIKELY_HTML_KEYS
               = Census.first_present r Census.LIKELY_HTML_KEYS).
  { apply SigFacts.first_present_ext. intros k Hk. apply Hsame.
    cbn in Hk |- *. intuition (subst; discriminate). }
  assert (Hs : Census.first_present r' Census.LIKELY_SUBJECT_KEYS
               = Census.first_present r Census.LIKELY_SUBJECT_KEYS).
  { apply SigFacts.first_present_ext. intros k Hk. apply Hsame.
    cbn in Hk |- *. intuition (subst; discriminate). }
  assert (Hd : Census.safe_get r' "from_domain" = Census.safe_get r "from_domain").
  { apply Hsame. cbn. intuition discriminate. }
  split; [exact Hbody|]. split.
  - unfold Census.build_signature, Census.body_content.
    now rewrite Hh, Hs, Hd, Hhtml.
  - intros Hshort. unfold Census.build_signature. cbn [snd]. rewrite Hbody.
    now apply SigFacts.content_signature_short.
Qed.

Lemma C10_html_field_shadows_plain_text_witness :
  truthy (strip (Census.first_present
                   [("sanitized_body", Some "<div><br></div>");
                    ("body", Some "Dear customer, please verify your account.")]
                   Census.LIKELY_HTML_KEYS)) = true
  /\ (forall k, ~ In k Census.LIKELY_BODY_KEYS ->
        Census.safe_get
          [("sanitized_body", Some "<div><br></div>"); ("body", Some "Hello")] k
        = Census.safe_get
            [("sanitized_body", Some "<div><br></div>");
             ("body", Some "Dear customer, please verify your account.")] k)
  /\ Census.build_signature
       [("sanitized_body", Some "<div><br></div>"); ("body", Some "Hello")]
     = Census.build_signature
         [("sanitized_body", Some "<div><br></div>");
          ("body", Some "Dear customer, please verify your account.")]
  /\ snd (Census.build_signature
            [("sanitized_body", Some "<div><br></div>");
             ("body", Some "Dear customer, please verify your account.")]) = "".
Proof.
  assert (H1 : truthy (strip (Census.first_present
                   [("sanitized_body", Some "<div><br></div>");
                    ("body", Some "Dear customer, please verify your account.")]
                   Census.LIKELY_HTML_KEYS)) = true) by (vm_compute; reflexivity).
  assert (H2 : forall k, ~ In k Census.LIKELY_BODY_KEYS ->
     Census.safe_get
       [("sanitized_body", Some "<div><br></div>"); ("body", Some "Hello")] k
     = Census.safe_get
         [("sanitized_body", Some "<div><br></div>");
          ("body", Some "Dear customer, please verify your account.")] k).
  { intros k Hk. unfold Census.safe_get, get_default. cbn [get].
    destruct (keqb k "sanitized_body"); [reflexivity|].
    destruct (keqb_spec k "body") as [->|]; [|reflexivity].
    exfalso. apply Hk. cbn. tauto. }
  destruct (C10_html_field_shadows_plain_text _ _ H1 H2) as (_ & Hsig & Hshort).
  split; [exact H1|]. split; [exact H2|]. split; [exact Hsig|].
  apply Hshort. vm_compute. lia.
Defined.

(** C6. Two records with the same from-domain, whose subjects are equal
    once lower-cased and rid of one leading Re:/Fw:/Fwd: marker, and whose
    body contents (what [html_to_text] leaves of the HTML field when there
    is one, else the plain-text field) have the same alphanumeric tokens in
    the same order up to case, that is, differ only in whitespace, case and
    punctuation between tokens, have equal signatures. *)
Theorem C6_signature_stability (r1 r2 : Census.row) :
  Census.safe_get r1 "from_domain" = Census.safe_get r2 "from_domain" ->
  strip_marker (lower (Census.first_present r1 Census.LIKELY_SUBJECT_KEYS))
  = strip_marker (lower (Census.first_present r2 Census.LIKELY_SUBJECT_KEYS)) ->
  tokens (lower (Census.body_content r1)) = tokens (lower (Census.body_content r2)) ->
  Census.build_signature r1 = Census.build_signature r2.
Proof.
  intros Hd Hs Hb. unfold Census.build_signature.
  rewrite Hd, (SigFacts.normalize_subject_same _ _ Hs).
  rewrite !NormFacts.normalize_text_spec. unfold normalize. now rewrite Hb.
Qed.

Lemma C6_signature_stability_witness :
  Census.safe_get
    [("subject", Some "Re: Account Verification"); ("from_domain", Some "example.com");
     ("body", Some "Please verify  your account NOW!")] "from_domain"
  = Census.safe_get
      [("subject", Some "FWD:  account verification"); ("from_domain", Some "example.com");
       ("sanitized_body", Some "<p>Please verify your <b>account</b> now.</p>")]
      "from_domain"
  /\ strip_marker (lower "Re: Account Verification")
     = strip_marker (lower "FWD:  account verification")
  /\ tokens (lower "Please verify  your account NOW!")
     = tokens (lower (Census.html_to_text
                        (Some "<p>Please verify your <b>account</b> now.</p>")))
  /\ Census.build_signature
       [("subject", Some "Re: Account Verification"); ("from_domain", Some "example.com");
        ("body", Some "Please verify  your account NOW!")]
     = Census.build_signature
         [("subject", Some "FWD:  account verification");
          ("from_domain", Some "example.com");
          ("sanitized_body", Some "<p>Please verify your <b>account</b> now.</p>")].
Proof.
  split; [vm_compute; reflexivity|].
  split; [vm_compute; reflexivity|].
  split; [vm_compute; reflexivity|].
  apply C6_signature_stability; vm_compute; reflexivity.
Defined.

(** C6, the claim as stated fails: bodies that differ only in punctuation,
    or that are an HTML and a plain-text form of the same sentence, can have
    different signatures, the from-domain and the subject being the same.
    An apostrophe inside a word splits it in two tokens: "don't" is hashed as
    "don t" and "dont" as it is.  [html_to_text] does not decode entities, so
    that "&nbsp;" leaves a token "nbsp", and puts a blank for a tag, so that
    "ac<b>count</b>" is hashed as "ac count". *)
Lemma C6_counterexample_tokens_change :
  let record key body :=
    [("subject", Some "Notice"); ("from_domain", Some "example.com");
     (key, Some body)] in
  let plain := record "body" "Please verify your account now" in
  (Census.normalize_text (Some "Please don't reply") = "please don t reply"
   /\ Census.normalize_text (Some "Please dont reply") = "please dont reply"
   /\ Census.build_signature (record "body" "Please don't reply")
      = ("example.com", "notice", "0c1021cbdb6aff5c5a946600bf422549bad540fe")
   /\ Census.build_signature (record "body" "Please dont reply")
      = ("example.com", "notice", "b52026874056b7d42b0aa6bf112f8a764c250bdb")
   /\ Census.build_signature (record "body" "Please don't reply")
      <> Census.build_signature (record "body" "Please dont reply"))
  /\ (Census.normalize_text
        (Some (Census.html_to_text (Some "<p>Please&nbsp;verify your account now</p>")))
      = "please nbsp verify your account now"
      /\ Census.build_signature
           (record "sanitized_body" "<p>Please&nbsp;verify your account now</p>")
         <> Census.build_signature plain)
  /\ (Census.normalize_text
        (Some (Census.html_to_text (Some "Please verify your ac<b>count</b> now")))
      = "please verify your ac count now"
      /\ Census.build_signature
           (record "sanitized_body" "Please verify your ac<b>count</b> now")
         <> Census.build_signature plain)
  /\ Census.build_signature plain
     = ("example.com", "notice", "322ab3627feaecc4917c783ed6c386df6715fc5c").
Proof.
  cbv zeta.
  repeat match goal with
         | |- _ /\ _ => split
         | |- _ <> _ => vm_compute; discriminate
         | |- _ = _ => vm_compute; reflexivity
         end.
Qed.

(** * Further properties of the code *)

Import Chars PyStr PyRe Py Patterns Spec PyText Props.

(** X1. [detect_cues] (src/cues.py) returns, for every text, one entry per
    category of the lexicon, in the order of the lexicon; an entry lists only
    phrases of its category that occur, each with the number of its matches;
    [summarize_counts] keeps the categories and their order and gives to each
    the sum of the matches of its phrases. *)
Theorem X1_detection_shape (text : string) :
  exists res,
    Cues.detect_cues (Some text) = Ok res
    /\ keys res = keys Cues.CUE_LEXICON
    /\ keys (Cues.summarize_counts res) = keys Cues.CUE_LEXICON
    /\ (forall cat inner p n,
          In (cat, inner) res -> In (p, n) inner ->
          0 < n /\ n = phrase_count p text
          /\ exists phrases, In (cat, phrases) Cues.CUE_LEXICON /\ In p phrases)
    /\ (forall cat phrases,
          In (cat, phrases) Cues.CUE_LEXICON ->
          get (Cues.summarize_counts res) cat
          = Some (sum_over phrases (fun p => phrase_count p text))).
Proof.
  destruct (ShapeFacts.detect_cues_shape text) as (res & Hres & Hk & Hs & Hin).
  exists res. repeat split; try assumption; try (now apply (Hin cat inner p n)).
  intros cat phrases Hc. now apply (ScanFacts.summarize_detect text).
Qed.

(** X2. [detect_with_extras] of src/nazario.py makes one pass, over the
    text with its defanged links restored: the total of a category is the
    number of matches of its phrases in [deobfuscate_iocs(text)], and the
    four heuristics are counted on that same text. *)
Theorem X2_nazario_detects_on_restored_text (text : string) :
  exists totals,
    Nazario.detect_with_extras (Some text)
    = Ok (totals, Extras.count_extras (Nazario.deobfuscate_iocs (Some text)))
    /\ forall cat phrases,
         In (cat, phrases) Cues.CUE_LEXICON ->
         get totals cat
         = Some (sum_over phrases
                   (fun p => phrase_count p (Nazario.deobfuscate_iocs (Some text)))).
Proof. exact (ScanFacts.nazario_detect_ok text). Qed.

(** X3. After [redact_email_addresses] (src/nazario.py) the address pattern
    matches nowhere in the text; a text without [@] is returned as it is;
    [None] and the empty text give the empty text; [redact_contacts] is the
    same function. *)
Theorem X3_redaction_leaves_no_address (s : option string) :
  finditer_count NazarioScan.EMAIL_RX (NazarioScan.redact_email_addresses s) = 0
  /\ (forall t, s = Some t -> contains "@" t = false ->
        NazarioScan.redact_email_addresses s = t)
  /\ (or_empty s = "" -> NazarioScan.redact_email_addresses s = "")
  /\ NazarioScan.redact_contacts s = NazarioScan.redact_email_addresses s.
Proof.
  split; [apply RedactFacts.redact_no_address|]. split.
  - intros t -> Ht. now apply RedactFacts.redact_no_at.
  - split.
    + destruct s as [[|c r]|]; cbn [or_empty]; [reflexivity|discriminate|reflexivity].
    + destruct s as [[|c r]|]; reflexivity.
Qed.

(** X4. [pick_columns] (src/nazario.py) keeps the columns of the header in
    their order: the subject, body and HTML columns are those whose trimmed,
    lower-cased name is in the set of that kind; when neither a body nor an
    HTML column is found, every column that is not metadata is read as body
    text.  A subject column is in no other set, so that subjects are scanned
    only in that second case.  A missing header gives no column. *)
Theorem X4_columns_by_name (header : list string) :
  NazarioScan.pick_columns (Some header)
  = (filter is_subject_col header,
     match filter is_body_col header, filter is_html_col header with
     | [], [] => filter (fun h => negb (is_metadata_col h)) header
     | text, _ => text
     end,
     filter is_html_col header)
  /\ NazarioScan.pick_columns None = ([], [], [])
  /\ (forall h, is_subject_col h = true ->
        is_body_col h = false /\ is_html_col h = false
        /\ is_metadata_col h = false).
Proof.
  split; [apply ScanFacts.pick_columns_filter|]. split; [reflexivity|].
  intros h Hs. split; [now apply ScanFacts.subject_not_body|].
  split; [|now apply ScanFacts.subject_not_metadata].
  unfold is_subject_col, is_html_col in *.
  unfold elem, NazarioScan.LIKELY_SUBJECT_KEYS, NazarioScan.LIKELY_HTML_KEYS in *.
  cbn [existsb] in *.
  repeat match type of Hs with
         | (String.eqb ?a ?b || _) = true =>
             destruct (String.eqb_spec a b) as [->|_]; [reflexivity|];
             cbn [orb] in Hs
         end.
  discriminate.
Qed.

(** X5. [scan_csv] (src/nazario.py) never drops what an attempt has
    appended: a file read to its end as UTF-8 gives one scanned entry per row;
    when that attempt raises after some rows, their entries stay in the list
    and the Latin-1 attempt appends its own after them; when both raise, the
    error entry comes last.  The entry of the [i]-th row of an attempt is a
    scanned one with the path [<path>#row=<i>], counted from 1. *)
Theorem X5_scan_csv_attempts (decode_mime_words : string -> string)
        (path : string) (utf8 latin1 : NazarioScan.reading) :
  NazarioScan.scan_csv decode_mime_words path utf8 latin1
  = (if NazarioScan.completed utf8 then row_entries decode_mime_words path utf8
     else if NazarioScan.completed latin1
          then row_entries decode_mime_words path utf8
               ++ row_entries decode_mime_words path latin1
          else row_entries decode_mime_words path utf8
               ++ row_entries decode_mime_words path latin1
               ++ [NazarioScan.Failed path "Failed to read CSV with utf-8 or latin-1"])%list
  /\ forall a,
       List.length (row_entries decode_mime_words path a)
       = List.length (NazarioScan.rows a)
       /\ forall i e,
            nth_error (row_entries decode_mime_words path a) i = Some e ->
            exists meta text_len totals extras,
              e = NazarioScan.Scanned (path ++ "#row=" ++ str_of_nat (S i))
                                      meta text_len totals extras.
Proof.
  split; [apply ScanFacts.scan_csv_spec|].
  intros a. split; [apply ScanFacts.row_entries_ok|].
  intros i e. apply ScanFacts.row_entries_nth.
Qed.

(** X6. The summary table of src/nazario.py has one line per entry and the
    columns of its first entry: the fixed columns, followed by [error] only
    when the first entry is an error entry.  Every field is on one line; the
    field [sum_<category>] of a scanned entry is its total for that category;
    when the first entry is a scanned one no line has a field [error], so the
    message of a later error entry is not written. *)
Theorem X6_nazario_summary_table (e : NazarioScan.entry)
        (rest : list NazarioScan.entry) :
  let headers :=
    (NAZARIO_COLUMNS ++ if is_scanned e then [] else ["error"])%list in
  exists lines,
    NazarioScan.summary (e :: rest) = Csv.Table headers lines
    /\ List.length lines = S (List.length rest)
    /\ (forall line, In line lines ->
          List.length line = List.length headers
          /\ List.forallb one_line line = true)
    /\ (forall i path meta text_len totals extras cat,
          nth_error (e :: rest) i
          = Some (NazarioScan.Scanned path meta text_len totals extras) ->
          In cat (keys Cues.CUE_LEXICON) ->
          exists line,
            nth_error lines i = Some line
            /\ field headers line ("sum_" ++ cat)
               = Some (str_of_nat (get_default totals cat 0)))
    /\ (is_scanned e = true ->
        forall line, In line lines -> field headers line "error" = None).
Proof.
  intros headers. unfold NazarioScan.summary. cbn [map].
  destruct (CsvFacts.save_csv_spec (NazarioScan.flat_row e)
              (map NazarioScan.flat_row rest))
    as (lines & Hs & Hlen & Hline & Hnth).
  assert (Hk : keys (NazarioScan.flat_row e) = headers)
    by apply CsvFacts.nazario_keys.
  rewrite Hk in *. exists lines. split; [exact Hs|].
  split; [now rewrite Hlen, length_map|]. split; [exact Hline|]. split.
  - intros i path meta text_len totals extras cat Hi Hcat.
    exists (map (Csv.clean (NazarioScan.flat_row
                   (NazarioScan.Scanned path meta text_len totals extras)))
                headers).
    split.
    + apply Hnth. change (NazarioScan.flat_row e :: map NazarioScan.flat_row rest)
        with (map NazarioScan.flat_row (e :: rest)).
      now apply CsvFacts.nth_error_map_some.
    + rewrite CsvFacts.field_map. unfold headers, NAZARIO_COLUMNS.
      rewrite <- !app_assoc.
      rewrite (ReportFacts.sum_column_listed cat _ _ Hcat).
      f_equal. apply CsvFacts.clean_int. now apply CsvFacts.nazario_sum.
  - intros He line Hin.
    destruct (ReportFacts.table_line _ _ _ _ Hs line Hin) as (row & _ & ->).
    rewrite CsvFacts.field_map. unfold headers. now rewrite He.
Qed.

(** X7. The summary table of src/images.py takes its columns from the first
    entry.  When that is a scanned image the columns are the fixed ones, the
    field [sum_<category>] of a scanned entry is its total for the category,
    and no line has a field [error].  When the first entry is an error entry
    the columns are [path], [text_len] and [error] only, and no line has a
    field [sum_<category>]: the totals of every image are left out. *)
Theorem X7_images_summary_table (e : ImagesScan.entry)
        (rest : list ImagesScan.entry) :
  let headers :=
    match e with
    | ImagesScan.Scanned _ _ _ _ => IMAGES_COLUMNS
    | ImagesScan.Failed _ _ => ["path"; "text_len"; "error"]
    end in
  exists lines,
    ImagesScan.summary (e :: rest) = Csv.Table headers lines
    /\ List.length lines = S (List.length rest)
    /\ (forall i path text_len totals extras cat,
          nth_error (e :: rest) i
          = Some (ImagesScan.Scanned path text_len totals extras) ->
          In cat (keys Cues.CUE_LEXICON) ->
          exists line,
            nth_error lines i = Some line
            /\ field headers line ("sum_" ++ cat)
               = match e with
                 | ImagesScan.Scanned _ _ _ _ =>
                     Some (str_of_nat (get_default totals cat 0))
                 | ImagesScan.Failed _ _ => None
                 end)
    /\ (forall line, In line lines ->
          match e with
          | ImagesScan.Scanned _ _ _ _ => field headers line "error" = None
          | ImagesScan.Failed _ _ =>
              forall cat, field headers line ("sum_" ++ cat) = None
          end).
Proof.
  intros headers. unfold ImagesScan.summary. cbn [map].
  destruct (CsvFacts.save_csv_spec (ImagesScan.flat_row e)
              (map ImagesScan.flat_row rest))
    as (lines & Hs & Hlen & _ & Hnth).
  assert (Hk : keys (ImagesScan.flat_row e) = headers)
    by apply CsvFacts.images_keys.
  rewrite Hk in *. exists lines. split; [exact Hs|].
  split; [now rewrite Hlen, length_map|]. split.
  - intros i path text_len totals extras cat Hi Hcat.
    exists (map (Csv.clean (ImagesScan.flat_row
                   (ImagesScan.Scanned path text_len totals extras)))
                headers).
    split.
    + apply Hnth. change (ImagesScan.flat_row e :: map ImagesScan.flat_row rest)
        with (map ImagesScan.flat_row (e :: rest)).
      now apply CsvFacts.nth_error_map_some.
    + rewrite CsvFacts.field_map. unfold headers.
      destruct e as [p0 n0 t0 x0|p0 err]; [|reflexivity].
      unfold IMAGES_COLUMNS, ImagesScan.CATEGORY_COLUMNS.
      rewrite (ReportFacts.sum_column_listed cat _ _ Hcat).
      f_equal. apply CsvFacts.clean_int. now apply CsvFacts.images_sum.
  - intros line Hin.
    destruct (ReportFacts.table_line _ _ _ _ Hs line Hin) as (row & _ & ->).
    unfold headers. destruct e as [p0 n0 t0 x0|p0 err].
    + now rewrite CsvFacts.field_map.
    + intros cat. now rewrite CsvFacts.field_map.
Qed.

(** X8. [ocr_image] (src/images.py) leaves an image whose smaller side has
    800 pixels or more as it is, and multiplies both sides of a smaller one by
    the larger of 2 and the integer part of 800 over the smaller side (a side
    below 1 counting for 1).  The smaller side of the upscaled image then has
    between 534 and 1598 pixels: it can stay below 800. *)
Theorem X8_ocr_upscaling (w h : Z) :
  ((800 <= Z.min w h)%Z -> ImagesScan.ocr_size w h = Some (w, h))
  /\ ((Z.min w h < 800)%Z ->
      let scale := Z.max 2 (800 / Z.max 1 (Z.min w h)) in
      ImagesScan.ocr_size w h = Some (w * scale, h * scale)%Z
      /\ ((1 <= Z.min w h)%Z ->
          (534 <= Z.min (w * scale) (h * scale) <= 1598)%Z)).
Proof.
  unfold ImagesScan.ocr_size. split.
  - intros H. destruct (Z.ltb_spec (Z.min w h) 800); [lia|reflexivity].
  - intros H. set (scale := Z.max 2 (800 / Z.max 1 (Z.min w h))).
    destruct (Z.ltb_spec (Z.min w h) 800); [|lia].
    rewrite (OcrFacts.scale_factor_spec w h H). split; [reflexivity|].
    intros H1.
    assert (Hs : (0 <= scale)%Z) by (unfold scale; lia).
    rewrite (Z.mul_min_distr_nonneg_r _ _ _ Hs).
    pose proof (OcrFacts.scaled_side (Z.min w h) (conj H1 H)) as Hb.
    unfold scale. replace (Z.max 1 (Z.min w h)) with (Z.min w h) by lia. lia.
Qed.

(** X9. [apex_from_host] (src/urlscan.py) returns the end of the lower-cased
    host: the whole of it when it has no dot, and the last two labels of a
    host written as labels joined by dots, whatever comes before them.  The
    result has at most two labels and is its own apex; [None] counts for the
    empty host. *)
Theorem X9_apex_is_last_two_labels (host : option string) :
  let a := Urlscan.apex_from_host host in
  (exists pre, lower (or_empty host) = pre ++ a)
  /\ List.length (split "." a) <= 2
  /\ Urlscan.apex_from_host (Some a) = a
  /\ (contains "." (lower (or_empty host)) = false -> a = lower (or_empty host))
  /\ (forall pre x y,
        contains "." x = false -> contains "." y = false ->
        lower (or_empty host) = String.concat "." (pre ++ [x; y]) ->
        a = x ++ "." ++ y).
Proof.
  intros a. unfold a. rewrite UrlFacts.apex_from_host_of.
  destruct (UrlFacts.apex_of_spec (lower (or_empty host))) as (Hpre & Hlen & Hidem).
  split; [exact Hpre|]. split; [exact Hlen|]. split.
  - rewrite UrlFacts.apex_from_host_of. cbn [or_empty].
    rewrite (UrlFacts.apex_of_lower _ (TextFacts.lower_lower _)). exact Hidem.
  - split; [apply UrlFacts.apex_no_dot|].
    intros pre x y Hx Hy ->. apply UrlFacts.apex_of_labels; assumption.
Qed.

(** X10. [is_ip_host] (src/urlscan.py) holds of a host exactly when the host
    is not empty and either contains a colon or is made of four groups of one
    to three digits separated by dots, a final line feed being allowed after
    them.  The groups are not compared with 255. *)
Theorem X10_ip_hosts (host : option string) :
  Urlscan.is_ip_host host = true
  <-> exists h,
        host = Some h /\ h <> ""
        /\ (contains ":" h = true
            \/ exists a b c d,
                 is_octet a = true /\ is_octet b = true /\ is_octet c = true
                 /\ is_octet d = true
                 /\ (h = dotted_quad a b c d
                     \/ h = dotted_quad a b c d ++ String "010" "")).
Proof.
  destruct host as [[|x r]|]; cbn [Urlscan.is_ip_host].
  - split; [discriminate|]. intros (h & [= <-] & Hne & _). now contradiction Hne.
  - destruct (contains ":" (String x r)) eqn:Hc.
    + split; [|reflexivity]. intros _. exists (String x r).
      split; [reflexivity|]. split; [discriminate|now left].
    + rewrite IpFacts.ipv4_like_spec. split.
      * intros Hq. exists (String x r). split; [reflexivity|].
        split; [discriminate|now right].
      * intros (h & [= <-] & _ & [Hcolon|Hq]); [congruence|exact Hq].
  - split; [discriminate|]. intros (h & Hh & _). discriminate.
Qed.

(** X11. [cue_totals] (src/urlscan.py) makes two passes whatever the order
    in which the set of categories is gone through: for every text the total
    of a category is the sum over its phrases of the matches in the text and
    of the matches in the normalised text; [None] counts for the empty
    text. *)
Theorem X11_cue_totals_two_passes (set_iter : list string -> list string)
        (set_iter_elements : forall l x, In x (set_iter l) <-> In x l)
        (text : option string) :
  exists totals,
    Urlscan.cue_totals set_iter text = Ok totals
    /\ forall cat phrases,
         In (cat, phrases) Cues.CUE_LEXICON ->
         get totals cat
         = Some (sum_over phrases
                   (fun p => phrase_count p (or_empty text)
                             + phrase_count p
                                 (Urlscan.normalize_text (Some (or_empty text))))).
Proof. exact (CueTotalsFacts.cue_totals_ok set_iter set_iter_elements text). Qed.

Lemma X11_cue_totals_two_passes_witness :
  (forall (l : list string) (x : string), In x (rev l) <-> In x l)
  /\ exists totals,
       Urlscan.cue_totals (@rev string) (Some "Act now: verify your account") = Ok totals
       /\ forall cat phrases,
            In (cat, phrases) Cues.CUE_LEXICON ->
            get totals cat
            = Some (sum_over phrases
                      (fun p => phrase_count p (or_empty (Some "Act now: verify your account"))
                                + phrase_count p
                                    (Urlscan.normalize_text
                                       (Some (or_empty (Some "Act now: verify your account")))))).
Proof.
  split.
  - intros l x. symmetry. apply in_rev.
  - apply (X11_cue_totals_two_passes (@rev string)).
    intros l x. symmetry. apply in_rev.
Defined.

(** X12. [normalise_url] (src/urlscan.py) returns the empty text exactly for
    a blank or missing input; any other result is trimmed, starts with
    [http://], [https://] or [www.] up to case, and is left as it is by
    [normalise_url].  [read_urls_from_phishtank] returns such results only,
    none of them empty, and nothing when no column is named [url]. *)
Theorem X12_normalised_urls (u : option string)
        (fieldnames : option (list string)) (rows : list Census.row) :
  let r := Urlscan.normalise_url u in
  (r = "" <-> strip (or_empty u) = "")
  /\ (r <> "" -> has_scheme_or_www r = true)
  /\ strip r = r
  /\ Urlscan.normalise_url (Some r) = r
  /\ Forall (fun x => x <> "" /\ Urlscan.normalise_url (Some x) = x)
            (Urlscan.read_urls_from_phishtank fieldnames rows)
  /\ (Forall (fun fn => lower (strip fn) <> "url")
             match fieldnames with Some f => f | None => [] end ->
      Urlscan.read_urls_from_phishtank fieldnames rows = []).
Proof.
  intros r.
  destruct (NormUrlFacts.normalise_url_spec u) as (H1 & H2 & H3 & H4).
  split; [exact H1|]. split; [exact H2|]. split; [exact H3|]. split; [exact H4|].
  unfold Urlscan.read_urls_from_phishtank. split.
  - destruct (Urlscan.find_url_field _) as [f|]; [|constructor].
    destruct (truthy f); [|constructor].
    apply NormUrlFacts.read_rows_normal. constructor.
  - intros Hall.
    assert (Hf : Urlscan.find_url_field
                   match fieldnames with Some f => f | None => [] end = None).
    { induction Hall as [|fn l Hfn _ IH]; [reflexivity|].
      cbn [Urlscan.find_url_field].
      destruct (String.eqb_spec (lower (strip fn)) "url"); [contradiction|exact IH]. }
    now rewrite Hf.
Qed.

(** X13. [dedupe_urls] (src/urlscan.py) returns the list as it is for any
    mode other than [apex], up to case.  In that mode, when every URL can be
    parsed, it returns URLs of the list in their order, no two with the same
    apex domain, and the apex domain of every URL of the list is that of a
    URL kept; when some URL cannot be parsed it raises. *)
Theorem X13_dedupe_by_apex (urlparse : string -> result Urlscan.parsed)
        (urls : list string) (mode : string) :
  (lower mode <> "apex" -> Urlscan.dedupe_urls urlparse urls mode = Ok urls)
  /\ (lower mode = "apex" ->
      (forall u, In u urls -> exists p, urlparse u = Ok p) ->
      exists kept,
        Urlscan.dedupe_urls urlparse urls mode = Ok kept
        /\ subseq kept urls
        /\ NoDup (map (apex_key urlparse) kept)
        /\ (forall u, In u urls ->
              In (apex_key urlparse u) (map (apex_key urlparse) kept)))
  /\ (lower mode = "apex" ->
      forall u e, In u urls -> urlparse u = Raise e ->
        exists e', Urlscan.dedupe_urls urlparse urls mode = Raise e').
Proof.
  unfold Urlscan.dedupe_urls. split; [|split].
  - intros Hm. destruct (String.eqb_spec (lower mode) "apex"); [contradiction|].
    reflexivity.
  - intros Hm Hall. rewrite Hm. cbn [String.eqb Ascii.eqb negb].
    destruct (DedupeFacts.dedupe_loop_ok urlparse urls Hall [] [] eq_refl
                (NoDup_nil _))
      as (kept & Hk & Hsub & Hnd & Hcov).
    exists kept. cbn [app] in *. repeat split; assumption.
  - intros Hm u e Hin Hu. rewrite Hm. cbn [String.eqb Ascii.eqb negb].
    exact (DedupeFacts.dedupe_loop_raise urlparse urls u e Hin Hu [] []).
Qed.

(** X14. [sample_urls] (src/urlscan.py) returns the list as it is when the
    limit is 0 or at least its length.  Otherwise it cuts the list, shuffled
    first when the pick is random: a positive smaller limit gives its first
    [limit] URLs; a negative limit is not refused and gives it without its
    last [-limit] URLs, that is its first [len - |limit|] ones, none when
    [|limit|] is the length or more.  In every case each URL returned is one
    of the list. *)
Theorem X14_sample_within_list (shuffle : Z -> list string -> list string)
        (shuffle_permutes : forall seed l, Permutation (shuffle seed l) l)
        (urls : list string) (limit : Z) (random_pick : bool) (seed : Z) :
  let out := Urlscan.sample_urls shuffle urls limit random_pick seed in
  let pool := if random_pick then shuffle seed urls else urls in
  ((limit = 0 \/ Z.of_nat (List.length urls) <= limit)%Z -> out = urls)
  /\ ((0 < limit < Z.of_nat (List.length urls))%Z ->
       out = firstn (Z.to_nat limit) pool
       /\ List.length out = Z.to_nat limit
       /\ (random_pick = false -> out = firstn (Z.to_nat limit) urls))
  /\ ((limit < 0)%Z ->
       out = firstn (List.length urls - Z.to_nat (- limit)) pool
       /\ (exists dropped,
             pool = (out ++ dropped)%list
             /\ List.length dropped = Nat.min (Z.to_nat (- limit)) (List.length urls))
       /\ List.length out = List.length urls - Z.to_nat (- limit)
       /\ (random_pick = false ->
           out = firstn (List.length urls - Z.to_nat (- limit)) urls))
  /\ incl out urls.
Proof.
  exact (DedupeFacts.sample_urls_ok shuffle shuffle_permutes urls limit
           random_pick seed).
Qed.

Lemma X14_sample_within_list_witness :
  (forall (seed : Z) (l : list string), Permutation (rev l) l)
  /\ let urls := ["http://a.example/x"; "http://b.example/y"; "http://c.example/z"] in
     let out := Urlscan.sample_urls (fun _ l => rev l) urls (-1) true 2025 in
     let pool := rev urls in
     ((-1 = 0 \/ Z.of_nat (List.length urls) <= -1)%Z -> out = urls)
     /\ ((0 < -1 < Z.of_nat (List.length urls))%Z ->
          out = firstn (Z.to_nat (-1)) pool
          /\ List.length out = Z.to_nat (-1)
          /\ (true = false -> out = firstn (Z.to_nat (-1)) urls))
     /\ ((-1 < 0)%Z ->
          out = firstn (List.length urls - Z.to_nat (- -1)) pool
          /\ (exists dropped,
                pool = (out ++ dropped)%list
                /\ List.length dropped
                   = Nat.min (Z.to_nat (- -1)) (List.length urls))
          /\ List.length out = List.length urls - Z.to_nat (- -1)
          /\ (true = false ->
              out = firstn (List.length urls - Z.to_nat (- -1)) urls))
     /\ incl out urls.
Proof.
  split.
  - intros _ l. apply Permutation_sym, Permutation_rev.
  - exact (X14_sample_within_list (fun _ l => rev l)
             (fun _ l => Permutation_sym (Permutation_rev l))
             ["http://a.example/x"; "http://b.example/y"; "http://c.example/z"]
             (-1) true 2025).
Defined.

(** X15. [mask_url_for_output] (src/urlscan.py) returns, for a URL that can
    be parsed, the apex domain of its host, a colon and a slash followed by
    at most one segment of the path: the text that follows has no slash, and
    nothing of the query is given.  For a URL that cannot be parsed the result
    is [[redacted]]: the second attempt of the fallback fails as the first. *)
Theorem X15_masked_url (urlparse : string -> result Urlscan.parsed) (u : string) :
  (forall p, urlparse u = Ok p ->
     exists seg,
       Urlscan.mask_url_for_output urlparse u
       = Urlscan.apex_from_host (Some (or_empty (Urlscan.hostname p)))
         ++ ":" ++ "/" ++ seg
       /\ contains "/" seg = false
       /\ (seg = ""
           \/ exists a rest,
                split "/" (strip (Urlscan.path p)) = a :: seg :: rest))
  /\ (forall e, urlparse u = Raise e ->
        Urlscan.mask_url_for_output urlparse u = "[redacted]").
Proof.
  unfold Urlscan.mask_url_for_output. split.
  - intros p ->.
    destruct (DedupeFacts.first_segment_spec (Urlscan.path p))
      as (seg & Hs & Hno & Hseg).
    exists seg. rewrite Hs. repeat split; assumption.
  - intros e ->. reflexivity.
Qed.

(** X16. After the census loop of src/nazario_census.py, [sig_counter] holds
    for every signature the number of email-like rows of the corpus with that
    signature (0 for a signature it does not hold); every count it holds is at
    least 1, and the counts add up to the number of email-like rows. *)
Theorem X16_signature_counts (files : list Census.csv_file) :
  exists c,
    Census.read_files files Census.census_start = Ok c
    /\ (forall sig,
          get_default (Census.sig_counter c) sig 0
          = List.length (with_sig sig (entries files)))
    /\ (forall sig n,
          In (sig, n) (Census.sig_counter c) ->
          1 <= n /\ n = List.length (with_sig sig (entries files)))
    /\ list_sum (map snd (Census.sig_counter c)) = Census.email_like_all c
    /\ map snd (entries files) = email_rows files.
Proof.
  destruct (CensusFacts.read_corpus_ok files) as (c & Hc & Hok).
  pose proof (TallyFacts.counts_corpus files c Hc) as Hcount.
  destruct (TallyFacts.sizes_corpus files c Hc) as [Hsum Hpos].
  exists c. split; [exact Hc|]. split; [exact Hcount|]. split; [|split].
  - intros sig n Hin. split; [now apply (Hpos sig)|].
    rewrite <- Hcount. unfold get_default.
    now rewrite (ReportFacts.in_get_key _ _ _ (ok_nodup _ _ Hok) Hin).
  - rewrite Hsum, (ok_count _ _ Hok). apply ReportFacts.entries_length.
  - apply ReportFacts.entries_rows.
Qed.

(** X17. The clusters written to [duplicates_top.csv] by
    src/nazario_census.py are at most 50, their counts do not increase, each
    is a signature with its number of email-like rows, which is at least 2;
    when the corpus has at most 50 signatures, every signature with two rows
    or more is among them. *)
Theorem X17_top_duplicate_clusters (files : list Census.csv_file) :
  exists c,
    Census.read_files files Census.census_start = Ok c
    /\ List.length (CensusReport.top_dups c) <= 50
    /\ by_count_desc (CensusReport.top_dups c)
    /\ (forall sig n,
          In (sig, n) (CensusReport.top_dups c) ->
          2 <= n /\ n = List.length (with_sig sig (entries files)))
    /\ (List.length (Census.sig_counter c) <= 50 ->
        forall sig,
          2 <= List.length (with_sig sig (entries files)) ->
          In (sig, List.length (with_sig sig (entries files)))
             (CensusReport.top_dups c)).
Proof.
  destruct (CensusFacts.read_corpus_ok files) as (c & Hc & Hok).
  pose proof (TallyFacts.counts_corpus files c Hc) as Hcount.
  destruct (TallyFacts.top_dups_spec c) as (Hlen & Hsorted & Hin & Hall).
  exists c. split; [exact Hc|]. split; [exact Hlen|]. split; [exact Hsorted|].
  split.
  - intros sig n Hi. destruct (Hin _ Hi) as [Hc' Hn]. cbn [snd] in Hn.
    split; [exact Hn|]. rewrite <- Hcount. unfold get_default.
    now rewrite (ReportFacts.in_get_key _ _ _ (ok_nodup _ _ Hok) Hc').
  - intros Hfew sig Hn. apply (Hall Hfew); [|exact Hn].
    apply DictFacts.get_some_in. specialize (Hcount sig).
    unfold get_default in Hcount.
    destruct (get (Census.sig_counter c) sig) as [n|]; [now rewrite Hcount|lia].
Qed.

(** X18. After the census loop, [sig_examples] holds for every signature the
    first three email-like rows with that signature, in reading order: for
    each the name of its file and its first non-blank subject field, cut to
    200 characters. *)
Theorem X18_first_three_examples (files : list Census.csv_file) :
  exists c,
    Census.read_files files Census.census_start = Ok c
    /\ forall sig,
         let examples := get_default (Census.sig_examples c) sig [] in
         examples = firstn 3 (map example_of (with_sig sig (entries files)))
         /\ List.length examples = Nat.min 3 (List.length (with_sig sig (entries files)))
         /\ Forall (fun ex => length (snd ex) <= 200) examples.
Proof.
  destruct (CensusFacts.read_corpus_ok files) as (c & Hc & _).
  pose proof (TallyFacts.examples_corpus files c Hc) as Hex.
  exists c. split; [exact Hc|]. intros sig examples. unfold examples.
  rewrite (Hex sig). change Census.MAX_EXAMPLES_PER_SIG with 3.
  split; [reflexivity|]. split; [now rewrite length_firstn, length_map|].
  apply Forall_forall. intros ex Hin. apply DedupeFacts.in_firstn in Hin.
  apply in_map_iff in Hin as (e & <- & _). apply ReportFacts.take_length.
Qed.

(** X19. After the census loop, [sig_first_year] holds for a signature the
    year of one of its rows, which lies in the window from 2005 to 2024 and is
    the least of the years of its rows in the order the code compares them
    in, that of [<] on [str]: no row of the signature has a year that is
    smaller as a string.  Between years of four digits 0 to 9 this is the
    order of the numbers.  [sig_first_year] holds nothing for a signature
    none of whose rows has a year.  The year of a row is the one
    [guess_year_with_audit] returns for it, empty when it finds none. *)
Theorem X19_earliest_year (files : list Census.csv_file) :
  exists c,
    Census.read_files files Census.census_start = Ok c
    /\ (forall e a,
          exists a',
            Census.guess_year_with_audit (snd e) (fst e) a = Ok (year_of e, a'))
    /\ forall sig,
         match get (Census.sig_first_year c) sig with
         | None =>
             forall e, In e (entries files) -> sig_of e = sig -> year_of e = ""
         | Some y0 =>
             (exists e, In e (entries files) /\ sig_of e = sig /\ year_of e = y0)
             /\ (Census.YEAR_MIN <= year_number y0 <= Census.YEAR_MAX)%Z
             /\ forall e, In e (entries files) -> sig_of e = sig ->
                          year_of e <> "" ->
                          String.ltb (year_of e) y0 = false
                          /\ (year_shaped y0 -> year_shaped (year_of e) ->
                              (year_number y0 <= year_number (year_of e))%Z)
         end.
Proof.
  destruct (CensusFacts.read_corpus_ok files) as (c & Hc & _).
  pose proof (OrderFacts.first_least_corpus files c Hc) as Hfirst.
  exists c. split; [exact Hc|].
  split; [intros e a; apply ReportFacts.year_of_guess|].
  intros sig. specialize (Hfirst sig).
  destruct (get (Census.sig_first_year c) sig) as [y0|]; [|exact Hfirst].
  destruct Hfirst as ((e & Hin & Hsig & Hy & Ht) & Hmin).
  split; [now exists e|]. split.
  - rewrite <- Hy in Ht |- *. now apply TallyFacts.year_of_valid.
  - intros e' Hin' Hsig' Hne.
    assert (Hlow : String.ltb (year_of e') y0 = false).
    { apply Hmin; [assumption..|].
      destruct (year_of e'); [contradiction|reflexivity]. }
    split; [exact Hlow|]. intros H0 H'.
    now apply OrderFacts.not_below_numbers.
Qed.

(** X20. Every line of [per_year_counts.csv] written by
    src/nazario_census.py is for a year of the window from 2005 to 2024 with
    at least one email-like row: its row count is the number of email-like
    rows of that year, its unique count is the number of signatures first seen
    in that year, which is at most the row count, and its third count is their
    difference: the lower bound 0 of the code is never reached from below. *)
Theorem X20_per_year_lines (files : list Census.csv_file) :
  exists c,
    Census.read_files files Census.census_start = Ok c
    /\ (forall e a,
          exists a',
            Census.guess_year_with_audit (snd e) (fst e) a = Ok (year_of e, a'))
    /\ forall line,
         In line (CensusReport.per_year_counts (Census.finalize c)) ->
         (Census.YEAR_MIN <= year_number (CensusReport.year line)
          <= Census.YEAR_MAX)%Z
         /\ CensusReport.raw_y line
            = List.length (with_year (CensusReport.year line) (entries files))
         /\ 1 <= CensusReport.raw_y line
         /\ CensusReport.uniq_y line
            = first_seen_in (CensusReport.year line) (Census.sig_first_year c)
         /\ CensusReport.uniq_y line <= CensusReport.raw_y line
         /\ CensusReport.dup_y line
            = (Z.of_nat (CensusReport.raw_y line)
               - Z.of_nat (CensusReport.uniq_y line))%Z.
Proof.
  destruct (CensusFacts.read_corpus_ok files) as (c & Hc & _).
  exists c. split; [exact Hc|].
  split; [intros e a; apply ReportFacts.year_of_guess|]. intros line Hin.
  destruct (TallyFacts.per_year_lines files c Hc line Hin)
    as (Ht & Hraw & Hpos & Hrest).
  split; [|split; [exact Hraw|split; [exact Hpos|exact Hrest]]].
  rewrite Hraw in Hpos.
  destruct (with_year (CensusReport.year line) (entries files)) as [|e r] eqn:He;
    [cbn in Hpos; lia|].
  assert (Hin' : In e (with_year (CensusReport.year line) (entries files)))
    by (rewrite He; now left).
  apply filter_In in Hin' as [_ Hy]. apply String.eqb_eq in Hy.
  rewrite <- Hy in Ht |- *. now apply TallyFacts.year_of_valid.
Qed.

(** X21. The census of src/nazario_census.py keeps one summary per file, in
    the order of the files: its path, the number of its rows, the number of
    its email-like rows and the number of distinct signatures among these,
    which do not increase in that order; the total of rows is the sum over
    the files. *)
Theorem X21_file_summaries (files : list Census.csv_file) :
  exists c,
    Census.read_files files Census.census_start = Ok c
    /\ Census.file_counts c = map summary_of files
    /\ Census.total_rows_all c
       = list_sum (map (fun p => List.length (Census.rows p)) files)
    /\ (forall p,
          Census.unique_signatures_in_file (summary_of p)
          <= Census.email_like_rows (summary_of p)
          /\ Census.email_like_rows (summary_of p)
             <= Census.rows_total (summary_of p))
    /\ (forall l,
          NoDup (distinct_sigs l) /\ forall x, In x (distinct_sigs l) <-> In x l).
Proof.
  destruct (CensusFacts.read_corpus_ok files) as (c & Hc & _).
  destruct (TallyFacts.read_files_summaries files _ _ Hc) as [Hf Ht].
  exists c. split; [exact Hc|]. split; [exact Hf|]. split; [exact Ht|]. split.
  - intros p. cbn [summary_of Census.unique_signatures_in_file
                   Census.email_like_rows Census.rows_total]. split.
    + destruct (TallyFacts.distinct_sigs_spec
                  (map Census.build_signature
                       (filter Census.is_email_like (Census.rows p))))
        as (_ & _ & Hle).
      now rewrite length_map in Hle.
    + apply filter_length_le.
  - intros l. destruct (TallyFacts.distinct_sigs_spec l) as (Hnd & Hin & _).
    now split.
Qed.

(** X22. The text [html_to_text] (src/nazario_census.py and src/nazario.py)
    returns has no match of the tag pattern left, has no blank at either end
    and no blank other than single spaces; a text without [<] is only
    trimmed and has its runs of blanks replaced by one space. *)
Theorem X22_html_to_text_output (html : option string) :
  finditer_count RE_TAGS (Census.html_to_text html) = 0
  /\ strip (Census.html_to_text html) = Census.html_to_text html
  /\ sub_spaces (Census.html_to_text html) = Census.html_to_text html
  /\ (forall s, html = Some s -> contains "<" s = false ->
        Census.html_to_text html = strip (sub_spaces s))
  /\ NazarioScan.html_to_text html = Census.html_to_text html.
Proof.
  split; [|split; [|split; [|split]]].
  - unfold finditer_count.
    apply HtmlFacts.tagless_count, HtmlFacts.html_to_text_tagless.
  - destruct html as [[|c r]|]; try reflexivity.
    unfold Census.html_to_text. apply NormFacts.strip_idem.
  - destruct html as [[|c r]|]; try reflexivity.
    unfold Census.html_to_text. apply HtmlFacts.sub_spaces_strip.
  - intros s -> Hs. now apply HtmlFacts.html_to_text_plain.
  - reflexivity.
Qed.

(** X23. [_valid_year] (src/nazario_census.py) answers yes exactly for four
    decimal digits that read as a number from 2005 to 2024.  It raises
    [ValueError] exactly for a text of four characters that all pass
    [isdigit] but are not all decimal digits, and answers no otherwise. *)
Theorem X23_valid_year_cases (y : string) :
  (Census._valid_year y = Ok true
   <-> length y = 4 /\ forallb is_digit y = true
       /\ (Census.YEAR_MIN <= year_number y <= Census.YEAR_MAX)%Z)
  /\ (Census._valid_year y = Raise ValueError
      <-> length y = 4 /\ forallb py_isdigit y = true
          /\ forallb is_digit y = false)
  /\ (forall e, Census._valid_year y = Raise e -> e = ValueError).
Proof.
  rewrite ShapeFacts.valid_year_cases. unfold in_range, year_number.
  assert (Hd : forallb is_digit y = true -> forallb py_isdigit y = true).
  { induction y as [|c r IH]; [reflexivity|]. cbn [forallb].
    intros H. apply andb_prop in H as [Hc Hr].
    unfold py_isdigit. rewrite Hc. cbn [orb andb]. now apply IH. }
  destruct (Nat.eqb_spec (length y) 4) as [Hl|Hl]; cbn [andb].
  - destruct (forallb py_isdigit y) eqn:Hp.
    + destruct (forallb is_digit y) eqn:Hi.
      * split; [|split; [|discriminate]].
        -- split.
           ++ intros [= H]. apply andb_prop in H as [H1 H2].
              apply Z.leb_le in H1. apply Z.leb_le in H2. auto.
           ++ intros (_ & _ & H1 & H2). f_equal. apply andb_true_intro.
              split; now apply Z.leb_le.
        -- split; [discriminate|]. intros (_ & _ & H). discriminate.
      * split; [|split].
        -- split; [discriminate|]. intros (_ & H & _). discriminate.
        -- split; [auto|reflexivity].
        -- now intros e [= <-].
    + split; [|split; [|discriminate]].
      * split; [discriminate|]. intros (_ & H & _). apply Hd in H. congruence.
      * split; [discriminate|]. intros (_ & H & _). discriminate.
  - split; [|split; [|discriminate]].
    + split; [discriminate|]. intros (H & _). contradiction.
    + split; [discriminate|]. intros (H & _). contradiction.
Qed.

(** X24. [is_email_like] (src/nazario_census.py) holds of a row exactly when
    one of its subject, HTML or body fields is not blank; [first_present]
    returns a non-blank text exactly when one of the fields it is given is
    not blank. *)
Theorem X24_email_like_rows (r : Census.row) (ks : list string) :
  Census.is_email_like r
  = existsb (filled r)
      (Census.LIKELY_SUBJECT_KEYS ++ Census.LIKELY_HTML_KEYS
       ++ Census.LIKELY_BODY_KEYS)%list
  /\ truthy (strip (Census.first_present r ks)) = existsb (filled r) ks
  /\ (existsb (filled r) ks = false -> Census.first_present r ks = "").
Proof.
  split; [apply ShapeFacts.is_email_like_filled|].
  split; [apply ShapeFacts.first_present_filled|].
  induction ks as [|k rest IH]; [reflexivity|].
  cbn [existsb Census.first_present]. intros H.
  apply orb_false_iff in H as [Hk Hr]. unfold filled in Hk.
  rewrite Hk. now apply IH.
Qed.

(** X25. Every entry [scan_csv] (src/nazario.py) returns is either a scanned
    row whose subject, sender and recipient hold no match of the address
    pattern, or the error entry of the file. *)
Theorem X25_scan_entries_hold_no_address (decode_mime_words : string -> string)
        (path : string) (utf8 latin1 : NazarioScan.reading) :
  Forall (fun e =>
            match e with
            | NazarioScan.Scanned _ meta _ _ _ =>
                finditer_count NazarioScan.EMAIL_RX (NazarioScan.subject meta) = 0
                /\ finditer_count NazarioScan.EMAIL_RX (NazarioScan.from meta) = 0
                /\ finditer_count NazarioScan.EMAIL_RX (NazarioScan.to meta) = 0
            | NazarioScan.Failed p error =>
                p = path /\ error = "Failed to read CSV with utf-8 or latin-1"
            end)
         (NazarioScan.scan_csv decode_mime_words path utf8 latin1).
Proof.
  assert (Hrows : forall a,
             Forall (fun e =>
                       match e with
                       | NazarioScan.Scanned _ meta _ _ _ =>
                           finditer_count NazarioScan.EMAIL_RX (NazarioScan.subject meta) = 0
                           /\ finditer_count NazarioScan.EMAIL_RX (NazarioScan.from meta) = 0
                           /\ finditer_count NazarioScan.EMAIL_RX (NazarioScan.to meta) = 0
                       | NazarioScan.Failed p error =>
                           p = path
                           /\ error = "Failed to read CSV with utf-8 or latin-1"
                       end)
                    (row_entries decode_mime_words path a)).
  { intros a. apply Forall_forall. intros e Hin. unfold row_entries in Hin.
    destruct (ScanFacts.scan_rows_row decode_mime_words path _ _ _ _ Hin)
      as (i & row & Hrow).
    destruct (ScanFacts.scan_row_redacted decode_mime_words path _ i row e Hrow)
      as (p & meta & n & t & x & -> & H1 & H2 & H3).
    now repeat split. }
  rewrite ScanFacts.scan_csv_spec.
  destruct (NazarioScan.completed utf8); [apply Hrows|].
  destruct (NazarioScan.completed latin1).
  - apply Forall_app. split; apply Hrows.
  - apply Forall_app. split; [apply Hrows|].
    apply Forall_app. split; [apply Hrows|]. constructor; [now split|constructor].
Qed.

(** X26. The loop of [scan_image_dir] (src/images.py) makes an error entry
    of an image exactly when [ocr_image] raises on it, with the text of that
    exception; for a text read from the image the detector does not raise:
    the entry holds the length of the text and the totals and heuristics of
    [detect_with_extras], whatever [repr] is. *)
Theorem X26_image_entries (repr : exn -> string) (path : string)
        (o : ImagesScan.ocr) :
  match o with
  | ImagesScan.OcrError e =>
      ImagesScan.scan_image repr path o = ImagesScan.Failed path e
  | ImagesScan.Text text =>
      exists totals extras,
        Images.detect_with_extras (Some text) = Ok (totals, extras)
        /\ ImagesScan.scan_image repr path o
           = ImagesScan.Scanned path (length text) totals extras
  end.
Proof.
  destruct o as [text|e]; [|reflexivity].
  destruct (CuesFacts.images_totals text) as (totals & extras & Hd & _).
  exists totals, extras. split; [exact Hd|].
  cbn [ImagesScan.scan_image]. rewrite Hd. now destruct text.
Qed.

(** X27. [per_year_counts.csv] of src/nazario_census.py has its lines in
    the order of [sorted] on the year strings, strictly increasing for [<]
    on [str], so no year string is on two lines; it has a line for the year
    of every email-like row that has one.  Lines whose years are of four
    digits 0 to 9 are in strictly increasing order of the numbers. *)
Theorem X27_years_in_order (files : list Census.csv_file) :
  exists c,
    Census.read_files files Census.census_start = Ok c
    /\ (forall e a,
          exists a',
            Census.guess_year_with_audit (snd e) (fst e) a = Ok (year_of e, a'))
    /\ years_ascend
         (map CensusReport.year (CensusReport.per_year_counts (Census.finalize c)))
    /\ NoDup (map CensusReport.year
                  (CensusReport.per_year_counts (Census.finalize c)))
    /\ (forall e,
          In e (entries files) -> year_of e <> "" ->
          In (year_of e)
             (map CensusReport.year
                  (CensusReport.per_year_counts (Census.finalize c))))
    /\ Sorted.StronglySorted
         (fun a b => year_shaped a -> year_shaped b ->
                     (year_number a < year_number b)%Z)
         (map CensusReport.year (CensusReport.per_year_counts (Census.finalize c))).
Proof.
  destruct (CensusFacts.read_corpus_ok files) as (c & Hc & _).
  exists c. split; [exact Hc|].
  split; [intros e a; apply ReportFacts.year_of_guess|].
  assert (Hm : map CensusReport.year
                   (CensusReport.per_year_counts (Census.finalize c))
               = CensusReport.years_sorted (Census.finalize c)).
  { unfold CensusReport.per_year_counts. rewrite map_map. cbn [CensusReport.year].
    apply map_id. }
  rewrite Hm.
  assert (Hs : years_ascend (CensusReport.years_sorted (Census.finalize c)))
    by apply OrderFacts.sorted_set_ascend.
  split; [exact Hs|]. split; [now apply OrderFacts.ascend_nodup|]. split.
  - intros e Hin Hne. apply (TallyFacts.year_listed files c Hc e Hin).
    destruct (year_of e); [contradiction|reflexivity].
  - now apply OrderFacts.ascend_numbers.
Qed.

(** X28. [build_text_from_csv_row] (src/nazario.py) joins with line feeds
    the non-empty fields of the body columns, in the order of the columns,
    followed by [html_to_text] of the non-empty fields of the HTML columns.
    The subject it keeps is the first non-empty field of the subject columns,
    decoded; [from], [to] and [date] are kept exactly when the row has the
    key, a missing value counting for the empty text; no other key is
    kept. *)
Theorem X28_row_text_and_metadata (decode_mime_words : string -> string)
        (row : Census.row) (subj_cols text_cols html_cols : list string) :
  let fields cols := filter truthy (map (NazarioScan.safe_get row) cols) in
  exists meta,
    NazarioScan.build_text_from_csv_row decode_mime_words row
      subj_cols text_cols html_cols
    = (meta,
       String.concat (String "010" "")
         (fields text_cols
          ++ map (fun v => NazarioScan.html_to_text (Some v)) (fields html_cols)))
    /\ forall k,
         get meta k
         = if elem k ["from"; "to"; "date"] && mem row k
           then Some (NazarioScan.safe_get row k)
           else if String.eqb k "subject"
                then option_map decode_mime_words (hd_error (fields subj_cols))
                else None.
Proof.
  intros fields. unfold NazarioScan.build_text_from_csv_row.
  eexists. split.
  - rewrite RowFacts.html_parts_filter, RowFacts.text_parts_filter.
    reflexivity.
  - intros k. rewrite RowFacts.contact_fields_get.
    destruct (elem k ["from"; "to"; "date"] && mem row k); [reflexivity|].
    rewrite RowFacts.first_subject_get. fold (fields subj_cols).
    destruct (hd_error (fields subj_cols)); destruct (String.eqb k "subject");
      reflexivity.
Qed.
